(** * Verification of [utils/binance_data.py]

    The module downloads per-day Binance archives into a local cache
    directory and concatenates the cached CSV files of a date range into one
    frame.  This development embeds its four functions

      - [get_existing_dates]      (lines 12-53)
      - [download_and_save_csv]   (lines 56-76)
      - [download_binance_data]   (lines 79-166)
      - [get_combined_dataframe]  (lines 169-223)

    together with the parts of the Python library they rest on
    ([datetime.date], [strptime]/[strftime] for the format [%Y-%m-%d], the
    directory glob, the anchored file-name regex), and proves the properties
    of the design document about them.

    Conventions of the embedding.

      - A Python exception is a value of [exn]; a call yields a [result]:
        it returns, raises, or never returns ([Blocked]).
      - The file system is explicit state: a finite map from directories to
        their entries, a directory being named by its path components.
        Every I/O action is also appended to a trace of [event]s, so that
        "no request is issued" is a statement about the trace.
      - [pandas.read_csv] and the HTTP server are parameters: any function
        from the bytes of a file to a frame or an error, and any function
        from a url and an attempt number to a response.
      - The coroutines of one run are run one after the other; what the
        semaphore does to their interleaving is the subject of the module
        [Scheduler].

    Bounds of the embedding.

      - A [str] is represented by its UTF-8 bytes, and a file name by the
        bytes the file system holds (Python decodes them as UTF-8 with
        [surrogateescape]).  The regex class [\d] is the one of [re] on
        [str]: every decimal digit of Unicode 14, the version of CPython
        3.11; the ranges [[0-9]] of [strptime] are the ASCII digits.
      - [data_dir] and [output_dir] stand for the absolute directory the
        code computes from [__file__]; the components below it contain no
        path separator, and no component of the cache path is a regular
        file, so that [mkdir] succeeds.
      - The glob is modelled for patterns whose only metacharacter is the
        [*] the code writes; results that depend on it assume a file-name
        prefix that is [plain].
      - [strftime] renders [%Y] as the C library does on Linux: the year
        without padding, so that a year below 1000 has fewer than four
        digits.  [date.isoformat], which always has four, is [isoformat].
      - Writing an open file does not fail. *)

From Stdlib Require Import ZArith List String Ascii Lia Bool Sorted.
From stdpp Require Import gmap strings list relations sorting.

Open Scope string_scope.
Open Scope list_scope.
Open Scope Z_scope.

(** ** Exceptions and results *)

Inductive exn :=
| ValueError (msg : string)
| OverflowError
| IndexError
| IsADirectoryError
| FileNotFoundError
| ClientError
| BadZipFile
| ReadCsvError (msg : string).

Inductive result (A : Type) :=
| Returned (a : A)
| Raised (e : exn)
| Blocked.
Arguments Returned {A} a.
Arguments Raised {A} e.
Arguments Blocked {A}.

(** ** [datetime.date]

    A date stores year, month and day; comparison is the lexicographic one
    on that triple; [date.min] is 0001-01-01 and [date.max] 9999-12-31. *)

Record date := Date { year : Z; month : Z; day : Z }.

Definition is_leap (y : Z) : bool :=
  (y mod 4 =? 0) && (negb (y mod 100 =? 0) || (y mod 400 =? 0)).

Definition days_in_month (y m : Z) : Z :=
  if m =? 2 then (if is_leap y then 29 else 28)
  else if (m =? 4) || (m =? 6) || (m =? 9) || (m =? 11) then 30
  else 31.

Definition MAXYEAR : Z := 9999.

Definition valid_date (d : date) : bool :=
  (1 <=? year d) && (year d <=? MAXYEAR) &&
  (1 <=? month d) && (month d <=? 12) &&
  (1 <=? day d) && (day d <=? days_in_month (year d) (month d)).

(** [d1 <= d2] on dates. *)
Definition date_le (d1 d2 : date) : bool :=
  (year d1 <? year d2) ||
  ((year d1 =? year d2) &&
   ((month d1 <? month d2) ||
    ((month d1 =? month d2) && (day d1 <=? day d2)))).

(** [d + timedelta(days=1)]: the next calendar day, [OverflowError] past
    [date.max]. *)
Definition add_day (d : date) : result date :=
  if day d <? days_in_month (year d) (month d) then
    Returned (Date (year d) (month d) (day d + 1))
  else if month d <? 12 then
    Returned (Date (year d) (month d + 1) 1)
  else if year d <? MAXYEAR then
    Returned (Date (year d + 1) 1 1)
  else Raised OverflowError.

Definition date_max : date := Date MAXYEAR 12 31.

(** [d1 < d2], the complement of [d2 <= d1]. *)
Definition date_lt (d1 d2 : date) : Prop := date_le d2 d1 = false.

(** [date.toordinal()]: 0001-01-01 is day 1. *)
Definition days_before_year (y : Z) : Z :=
  let y1 := y - 1 in y1 * 365 + y1 / 4 - y1 / 100 + y1 / 400.

Definition days_before_month (y m : Z) : Z :=
  (if 1 <? m then 31 else 0) +
  (if 2 <? m then (if is_leap y then 29 else 28) else 0) +
  (if 3 <? m then 31 else 0) +
  (if 4 <? m then 30 else 0) +
  (if 5 <? m then 31 else 0) +
  (if 6 <? m then 30 else 0) +
  (if 7 <? m then 31 else 0) +
  (if 8 <? m then 31 else 0) +
  (if 9 <? m then 30 else 0) +
  (if 10 <? m then 31 else 0) +
  (if 11 <? m then 30 else 0).

Definition toordinal (d : date) : Z :=
  days_before_year (year d) + days_before_month (year d) (month d) + day d.

(** Milliseconds since the epoch of midnight UTC of the date
    (1970-01-01 has ordinal 719163). *)
Definition ms_per_day : Z := 86400000.
Definition midnight_ms (d : date) : Z := (toordinal d - 719163) * ms_per_day.

#[global] Instance date_eq_dec : EqDecision date.
Proof. solve_decision. Defined.

#[global] Instance date_countable : Countable date.
Proof.
  refine (inj_countable' (fun d => (year d, month d, day d))
                         (fun t => Date t.1.1 t.1.2 t.2) _).
  by intros [].
Defined.

(** ** Characters and decimal digits *)

Definition byte_val (c : ascii) : Z := Z.of_nat (nat_of_ascii c).

(** The six payload bits of a continuation byte [10xxxxxx]. *)
Definition continuation (c : ascii) : option Z :=
  let n := byte_val c in
  if (128 <=? n) && (n <=? 191) then Some (n - 128) else None.

(** The code point of the character at the front of a byte sequence, and
    the bytes after it.  There is none when the sequence does not start
    with a well-formed character (an overlong form, a surrogate, a stray
    or missing continuation byte): Python reads such a byte as a lone
    surrogate, which is no digit. *)
Definition decode_char (l : list ascii) : option (Z * list ascii) :=
  match l with
  | [] => None
  | a :: r =>
      let n := byte_val a in
      if n <? 128 then Some (n, r)
      else if n <? 194 then None
      else if n <? 224 then
        match r with
        | b :: r' =>
            match continuation b with
            | Some x => Some ((n - 192) * 64 + x, r')
            | None => None
            end
        | _ => None
        end
      else if n <? 240 then
        match r with
        | b :: c :: r' =>
            match continuation b, continuation c with
            | Some x, Some y =>
                let cp := (n - 224) * 4096 + x * 64 + y in
                if (2048 <=? cp) && negb ((55296 <=? cp) && (cp <=? 57343))
                then Some (cp, r') else None
            | _, _ => None
            end
        | _ => None
        end
      else if n <? 245 then
        match r with
        | b :: c :: d :: r' =>
            match continuation b, continuation c, continuation d with
            | Some x, Some y, Some z =>
                let cp := (n - 240) * 262144 + x * 4096 + y * 64 + z in
                if (65536 <=? cp) && (cp <=? 1114111)
                then Some (cp, r') else None
            | _, _, _ => None
            end
        | _ => None
        end
      else None
  end.

(** The decimal digits of Unicode (general category Nd) come in runs of
    ten, from the digit zero to the digit nine of a script; these are the
    code points of the zeros. *)
Definition decimal_zeros : list Z :=
  [ 48; 1632; 1776; 1984; 2406; 2534; 2662; 2790; 2918; 3046; 3174; 3302;
    3430; 3558; 3664; 3792; 3872; 4160; 4240; 6112; 6160; 6470; 6608; 6784;
    6800; 6992; 7088; 7232; 7248; 42528; 43216; 43264; 43472; 43504; 43600;
    44016; 65296; 66720; 68912; 69734; 69872; 69942; 70096; 70384; 70736;
    70864; 71248; 71360; 71472; 71904; 72016; 72784; 73040; 73120; 92768;
    92864; 93008; 120782; 120792; 120802; 120812; 120822; 123200; 123632;
    125264; 130032 ].

(** The value of a code point as a decimal digit, as [int] reads it. *)
Definition decimal_value (cp : Z) : option Z :=
  match List.find (fun z => (z <=? cp) && (cp <? z + 10)) decimal_zeros with
  | Some z => Some (cp - z)
  | None => None
  end.

(** The regex class [\d] at the front of a byte sequence: the value of the
    digit and the bytes after it. *)
Definition decimal_digit (l : list ascii) : option (Z * list ascii) :=
  match decode_char l with
  | Some (cp, r) =>
      match decimal_value cp with
      | Some v => Some (v, r)
      | None => None
      end
  | None => None
  end.

(** [n] characters of class [\d]: their values and the bytes after
    them. *)
Fixpoint decimal_digits (n : nat) (l : list ascii)
    : option (list Z * list ascii) :=
  match n with
  | O => Some ([], l)
  | S n' =>
      match decimal_digit l with
      | Some (v, r) =>
          match decimal_digits n' r with
          | Some (vs, r') => Some (v :: vs, r')
          | None => None
          end
      | None => None
      end
  end.

(** ** [strftime] and [strptime] for [%Y-%m-%d] *)

(** The range [[0-9]]. *)
Definition is_digit (c : ascii) : bool :=
  let n := byte_val c in (48 <=? n) && (n <=? 57).

Definition digit_val (c : ascii) : Z := byte_val c - 48.

Definition digit_chr (n : Z) : ascii := ascii_of_nat (Z.to_nat (n + 48)).

Definition dash : ascii := "-"%char.

(** [%Y] of the C library: the digits of the year, without padding. *)
Definition year_str (y : Z) : list ascii :=
  if y <? 10 then [digit_chr y]
  else if y <? 100 then [digit_chr (y / 10); digit_chr (y mod 10)]
  else if y <? 1000 then
    [digit_chr (y / 100); digit_chr (y / 10 mod 10); digit_chr (y mod 10)]
  else
    [digit_chr (y / 1000 mod 10); digit_chr (y / 100 mod 10);
     digit_chr (y / 10 mod 10); digit_chr (y mod 10)].

(** [date.strftime("%Y-%m-%d")]: month and day are zero-padded. *)
Definition strftime (d : date) : string :=
  string_of_list_ascii
    (year_str (year d) ++
     [ dash; digit_chr (month d / 10 mod 10); digit_chr (month d mod 10);
       dash; digit_chr (day d / 10 mod 10); digit_chr (day d mod 10) ]).

(** The regex of directive [%m]: [1[0-2]|0[1-9]|[1-9]]; the value found
    and the rest of the input. *)
Definition match_month (l : list ascii) : option (Z * list ascii) :=
  match l with
  | a :: b :: r =>
      if Ascii.eqb a "1" && is_digit b && (digit_val b <=? 2)
      then Some (10 + digit_val b, r)
      else if Ascii.eqb a "0" && is_digit b && (1 <=? digit_val b)
      then Some (digit_val b, r)
      else if is_digit a && (1 <=? digit_val a)
      then Some (digit_val a, b :: r)
      else None
  | [a] => if is_digit a && (1 <=? digit_val a) then Some (digit_val a, [])
           else None
  | [] => None
  end.

(** A range [[lo-hi]] of ASCII digits at the front of a byte sequence. *)
Definition digit_between (lo hi : Z) (l : list ascii)
    : option (Z * list ascii) :=
  match l with
  | b :: r =>
      if is_digit b && (lo <=? digit_val b) && (digit_val b <=? hi)
      then Some (digit_val b, r) else None
  | [] => None
  end.

(** The regex of directive [%d]: [3[0-1]|[1-2]\d|0[1-9]|[1-9]| [1-9]], its
    alternatives tried in this order. *)
Definition match_day (l : list ascii) : option (Z * list ascii) :=
  match l with
  | [] => None
  | a :: r =>
      match (if Ascii.eqb a "3" then digit_between 0 1 r else None) with
      | Some (v, r') => Some (30 + v, r')
      | None =>
      match (if Ascii.eqb a "1" || Ascii.eqb a "2" then decimal_digit r
             else None) with
      | Some (v, r') => Some (10 * digit_val a + v, r')
      | None =>
      match (if Ascii.eqb a "0" then digit_between 1 9 r else None) with
      | Some res => Some res
      | None =>
          if is_digit a && (1 <=? digit_val a) then Some (digit_val a, r)
          else if Ascii.eqb a " " then digit_between 1 9 r
          else None
      end end end
  end.

(** [datetime.strptime(s, "%Y-%m-%d").date()]; [None] stands for the
    [ValueError] of a string that does not match the format, leaves
    unconverted data, or names no calendar day.  The regex of [%Y] is
    [\d\d\d\d]; [int] reads the digits by their values. *)
Definition strptime (s : string) : option date :=
  match decimal_digits 4 (list_ascii_of_string s) with
  | Some ([y1; y2; y3; y4], sep1 :: r1) =>
      if Ascii.eqb sep1 dash then
        match match_month r1 with
        | Some (m, sep2 :: r2) =>
            if Ascii.eqb sep2 dash then
              match match_day r2 with
              | Some (dd, []) =>
                  let d := Date (1000 * y1 + 100 * y2 + 10 * y3 + y4) m dd in
                  if valid_date d then Some d else None
              | _ => None
              end
            else None
        | _ => None
        end
      else None
  | _ => None
  end.

(** [date.isoformat()]: every field zero-padded, the year to four
    digits. *)
Definition isoformat (d : date) : string :=
  string_of_list_ascii
    [ digit_chr (year d / 1000 mod 10); digit_chr (year d / 100 mod 10);
      digit_chr (year d / 10 mod 10); digit_chr (year d mod 10); dash;
      digit_chr (month d / 10 mod 10); digit_chr (month d mod 10); dash;
      digit_chr (day d / 10 mod 10); digit_chr (day d mod 10) ].

(** ** File names of the cache

    An artifact is named [{symbol}-{interval}-{YYYY-MM-DD}.csv] for klines
    and [{symbol}-{YYYY-MM-DD}.csv] otherwise. *)

(** Truth value of an optional string ([None] and [""] are falsy). *)
Definition truthy (o : option string) : bool :=
  match o with
  | Some s => negb (String.eqb s "")
  | None => false
  end.

(** An optional string inside an f-string. *)
Definition fmt_opt (o : option string) : string :=
  match o with Some s => s | None => "None" end.

Definition name_prefix (data_type : string) (interval : option string)
    (symbol : string) : string :=
  if String.eqb data_type "klines"
  then symbol +:+ "-" +:+ fmt_opt interval +:+ "-"
  else symbol +:+ "-".

Definition csv_name (data_type : string) (interval : option string)
    (symbol : string) (d : date) : string :=
  name_prefix data_type interval symbol +:+ strftime d +:+ ".csv".

Definition zip_name (data_type : string) (interval : option string)
    (symbol : string) (d : date) : string :=
  name_prefix data_type interval symbol +:+ strftime d +:+ ".zip".

(** The wildcard of a glob pattern: [k] holds of some suffix of the name. *)
Fixpoint star_search (k : string -> bool) (name : string) : bool :=
  k name ||
  match name with
  | EmptyString => false
  | String _ name' => star_search k name'
  end.

(** [fnmatch] for a pattern whose only metacharacter is [*]. *)
Fixpoint glob_match (pat name : string) : bool :=
  match pat with
  | EmptyString => match name with EmptyString => true | _ => false end
  | String c pat' =>
      if Ascii.eqb c "*" then star_search (glob_match pat') name
      else
        match name with
        | String c' name' => Ascii.eqb c c' && glob_match pat' name'
        | EmptyString => false
        end
  end.

(** Characters of a symbol or interval that leave the glob pattern and the
    file name as the code intends them: no glob metacharacter and no path
    separator. *)
Definition plain_char (c : ascii) : bool :=
  negb (Ascii.eqb c "*" || Ascii.eqb c "?" || Ascii.eqb c "[" || Ascii.eqb c "/").

Definition plain (s : string) : bool := forallb plain_char (list_ascii_of_string s).

Fixpoint strip_prefix (p s : string) : option string :=
  match p with
  | EmptyString => Some s
  | String c p' =>
      match s with
      | String c' s' => if Ascii.eqb c c' then strip_prefix p' s' else None
      | EmptyString => None
      end
  end.

Definition newline : ascii := ascii_of_nat 10.

(** The regex [\d{4}-\d{2}-\d{2}] at the front of a byte sequence: the
    bytes after the match. *)
Definition date_shape (l : list ascii) : option (list ascii) :=
  match decimal_digits 4 l with
  | Some (_, s1 :: r1) =>
      if Ascii.eqb s1 dash then
        match decimal_digits 2 r1 with
        | Some (_, s2 :: r2) =>
            if Ascii.eqb s2 dash then
              match decimal_digits 2 r2 with
              | Some (_, tl) => Some tl
              | None => None
              end
            else None
        | _ => None
        end
      else None
  | _ => None
  end.

(** The tail [(\d{4}-\d{2}-\d{2})\.csv$] of the file-name regex; the
    result is group 1, the bytes the date shape has matched.  Outside
    MULTILINE mode [$] also matches before a final newline. *)
Definition match_date_csv (rest : string) : option string :=
  let l := list_ascii_of_string rest in
  match date_shape l with
  | Some tl =>
      if String.eqb (string_of_list_ascii tl) ".csv"
         || String.eqb (string_of_list_ascii tl)
              (".csv" +:+ String newline EmptyString)
      then Some (string_of_list_ascii (take (length l - length tl) l))
      else None
  | None => None
  end.

(** [pattern.match(name)] for the pattern
    [^{re.escape(prefix)}(\d{4}-\d{2}-\d{2})\.csv$]. *)
Definition pattern_match (prefix name : string) : option string :=
  match strip_prefix prefix name with
  | Some rest => match_date_csv rest
  | None => None
  end.

(** ** File system, network and traces *)

Inductive entry :=
| File (data : string)
| Dir.

(** A directory is named by its path components; the file system maps a
    directory to its entries. *)
Abbreviation FS := (gmap (list string) (gmap string entry)).

(** [p / c] of pathlib: an empty or ["."] component is dropped. *)
Definition path_join (p : list string) (c : string) : list string :=
  if String.eqb c "" || String.eqb c "." then p else p ++ [c].

Definition lookup_file (fs : FS) (dir : list string) (name : string)
    : option entry :=
  match fs !! dir with
  | Some m => m !! name
  | None => None
  end.

Definition listdir (fs : FS) (dir : list string) : list string :=
  match fs !! dir with
  | Some m => elements (dom m)
  | None => []
  end.

(** Payload of a zip member: opening the member may fail, reading (and
    inflating) it may fail, or it yields its bytes. *)
Inductive member_data :=
| OpenFails
| ReadFails
| Data (bytes : string).

Inductive body :=
| BodyReadError
| NotAZip
| Zip (members : list (string * member_data)).

Inductive response :=
| ConnError
| Response (status : Z) (content : body).

Inductive event :=
| EMkdir (dir : list string)
| EGlob (dir : list string) (pat : string)
| EExists (dir : list string) (name : string)
| EGet (url : string)
| EOpenW (dir : list string) (name : string)
| EWrite (dir : list string) (name : string) (data : string)
| ERead (dir : list string) (name : string)
| ESleep (secs : Z).

(** ** The I/O monad: file-system state, a trace, and exceptions *)

Definition io (A : Type) : Type := FS -> result A * FS * list event.

Definition io_ret {A} (a : A) : io A := fun fs => (Returned a, fs, []).

Definition io_bind {A B} (c : io A) (k : A -> io B) : io B :=
  fun fs =>
    match c fs with
    | (Returned a, fs1, t1) =>
        let '(r, fs2, t2) := k a fs1 in (r, fs2, t1 ++ t2)
    | (Raised e, fs1, t1) => (Raised e, fs1, t1)
    | (Blocked, fs1, t1) => (Blocked, fs1, t1)
    end.

#[global] Instance io_mret : MRet io := @io_ret.
#[global] Instance io_mbind : MBind io := fun A B k c => io_bind c k.

Definition raise {A} (e : exn) : io A := fun fs => (Raised e, fs, []).
Definition block {A} : io A := fun fs => (Blocked, fs, []).
Definition emit (e : event) : io unit := fun fs => (Returned tt, fs, [e]).
Definition get_fs : io FS := fun fs => (Returned fs, fs, []).
Definition put_fs (fs' : FS) : io unit := fun _ => (Returned tt, fs', []).

(** [try: c except Exception as e: h e]. *)
Definition try_except {A} (c : io A) (h : exn -> io A) : io A :=
  fun fs =>
    match c fs with
    | (Raised e, fs1, t1) =>
        let '(r, fs2, t2) := h e fs1 in (r, fs2, t1 ++ t2)
    | other => other
    end.

Definition res_of {A} (o : result A * FS * list event) : result A := o.1.1.
Definition fs_of {A} (o : result A * FS * list event) : FS := o.1.2.
Definition trace_of {A} (o : result A * FS * list event) : list event := o.2.

(** Lift a pure result into the monad. *)
Definition lift {A} (r : result A) : io A := fun fs => (r, fs, []).

(** ** [get_existing_dates] (lines 12-53) *)

(** One iteration of the loop of lines 43-52 over the globbed names. *)
Definition scan_file (prefix : string) (existing_dates : gset date)
    (name : string) : gset date :=
  match pattern_match prefix name with
  | Some group1 =>
      match strptime group1 with
      | Some date_obj => {[ date_obj ]} ∪ existing_dates
      | None => existing_dates
      end
  | None => existing_dates
  end.

Definition get_existing_dates (local_path : list string) (data_type : string)
    (interval : option string) (symbol : string) : io (gset date) :=
  if String.eqb data_type "klines" && negb (truthy interval) then
    raise (ValueError "interval is required for klines data_type")
  else
    let prefix := name_prefix data_type interval symbol in
    let glob_pattern := prefix +:+ "*.csv" in
    emit (EGlob local_path glob_pattern);;
    fs ← get_fs;
    mret (fold_left (scan_file prefix)
            (List.filter (glob_match glob_pattern) (listdir fs local_path)) ∅).

(** ** [download_and_save_csv] (lines 56-76) *)

(** [zip_file.open(name)] resolves a name to the last member carrying it. *)
Definition getinfo (name : string) (members : list (string * member_data))
    : option member_data :=
  last (List.map snd
          (List.filter (fun m => String.eqb (fst m) name) members)).

(** Lines 63-67: take the first name of the archive, open that member, open
    the destination for writing (which creates or truncates it), read the
    member and write its bytes. *)
Definition save_member (dir : list string) (name : string)
    (members : list (string * member_data)) : io unit :=
  match members with
  | [] => raise IndexError
  | (csv_name, _) :: _ =>
      match getinfo csv_name members with
      | None | Some OpenFails => raise BadZipFile
      | Some payload =>
          emit (EOpenW dir name);;
          fs ← get_fs;
          match fs !! dir with
          | None => raise FileNotFoundError
          | Some m =>
              match m !! name with
              | Some Dir => raise IsADirectoryError
              | _ =>
                  put_fs (<[dir := <[name := File ""]> m]> fs);;
                  match payload with
                  | Data bytes =>
                      emit (EWrite dir name bytes);;
                      put_fs (<[dir := <[name := File bytes]> m]> fs)
                  | _ => raise BadZipFile
                  end
              end
          end
      end
  end.

(** The body of the [try] of one attempt (lines 60-71): [true] is the
    [return True], [false] the fall-through of a status other than 200. *)
Definition fetch_once (net : string -> Z -> response) (url : string)
    (dir : list string) (name : string) (attempt : Z) : io bool :=
  emit (EGet url);;
  match net url attempt with
  | ConnError => raise ClientError
  | Response status content =>
      if status =? 200 then
        match content with
        | BodyReadError => raise ClientError
        | NotAZip => raise BadZipFile
        | Zip members => save_member dir name members;; mret true
        end
      else mret false
  end.

(** The [for attempt in range(1, retries + 1)] loop, from attempt number
    [attempt] with [n] iterations left. *)
Fixpoint attempts_from (net : string -> Z -> response) (url : string)
    (dir : list string) (name : string) (attempt : Z) (n : nat) : io bool :=
  match n with
  | O => mret false
  | S n' =>
      ok ← try_except (fetch_once net url dir name attempt)
                      (fun _ => mret false);
      if ok : bool then mret true
      else emit (ESleep 1);; attempts_from net url dir name (attempt + 1) n'
  end.

Definition download_and_save_csv (net : string -> Z -> response)
    (url : string) (dir : list string) (name : string) (retries : Z)
    : io bool :=
  attempts_from net url dir name 1 (Z.to_nat retries).

Definition default_retries : Z := 3.

(** ** [download_binance_data] (lines 79-166) *)

Record request := Request {
  symbol : string;
  start_date : string;
  end_date : string;
  base_url : string;
  instrument : string;
  market : string;
  timeframe : string;
  data_type : string;
  interval : option string;
  output_dir : list string;
  max_concurrent_downloads : Z }.

Definition local_path_of (a : request) : list string :=
  let base := fold_left path_join
                [instrument a; market a; timeframe a; data_type a; symbol a]
                (output_dir a) in
  if String.eqb (data_type a) "klines" && truthy (interval a)
  then path_join base (fmt_opt (interval a))
  else base.

Definition remote_path_of (a : request) : string :=
  let base := base_url a +:+ instrument a +:+ "/" +:+ market a +:+ "/"
              +:+ timeframe a +:+ "/" +:+ data_type a +:+ "/"
              +:+ symbol a +:+ "/" in
  if String.eqb (data_type a) "klines" && truthy (interval a)
  then base +:+ fmt_opt (interval a) +:+ "/"
  else base.

(** [local_path.mkdir(parents=True, exist_ok=True)]. *)
Definition mkdir (dir : list string) : io unit :=
  emit (EMkdir dir);;
  fs ← get_fs;
  match fs !! dir with
  | Some _ => mret tt
  | None => put_fs (<[dir := ∅]> fs)
  end.

Definition parse_date (s : string) : io date :=
  match strptime s with
  | Some d => mret d
  | None => raise (ValueError "time data does not match format '%Y-%m-%d'")
  end.

(** Iterations granted to a [while date <= end] loop started at [start]:
    one per day of the range and one for the final test. *)
Definition loop_fuel (start end_ : date) : nat :=
  S (Z.to_nat (toordinal end_ - toordinal start + 1)).

(** Lines 135-140. *)
Fixpoint missing_loop (fuel : nat) (existing_dates : gset date)
    (d end_ : date) (missing_dates : list date) : result (list date) :=
  match fuel with
  | O => Blocked
  | S fuel' =>
      if date_le d end_ then
        let missing_dates' :=
          if decide (d ∈ existing_dates) then missing_dates
          else missing_dates ++ [d] in
        match add_day d with
        | Returned d' => missing_loop fuel' existing_dates d' end_ missing_dates'
        | Raised e => Raised e
        | Blocked => Blocked
        end
      else Returned missing_dates
  end.

Definition missing_days (existing_dates : gset date) (start end_ : date)
    : result (list date) :=
  missing_loop (loop_fuel start end_) existing_dates start end_ [].

(** Lines 149-163: the tasks to run, as (url, file name) pairs. *)
Fixpoint schedule (a : request) (missing_dates : list date)
    (tasks : list (string * string)) : io (list (string * string)) :=
  match missing_dates with
  | [] => mret tasks
  | d :: rest =>
      let filename := zip_name (data_type a) (interval a) (symbol a) d in
      let out_filename := csv_name (data_type a) (interval a) (symbol a) d in
      let url := remote_path_of a +:+ filename in
      emit (EExists (local_path_of a) out_filename);;
      fs ← get_fs;
      match lookup_file fs (local_path_of a) out_filename with
      | Some _ => schedule a rest tasks
      | None => schedule a rest (tasks ++ [(url, out_filename)])
      end
  end.

(** [asyncio.gather] over the tasks, one task after the other.  The tasks write
    to pairwise different files and none raises, so every interleaving
    ends in the same file system with the same outcomes. *)
Fixpoint gather (net : string -> Z -> response) (dir : list string)
    (tasks : list (string * string)) : io (list bool) :=
  match tasks with
  | [] => mret []
  | (url, out_filename) :: rest =>
      ok ← download_and_save_csv net url dir out_filename default_retries;
      oks ← gather net dir rest;
      mret (ok :: oks)
  end.

Definition download_binance_data (net : string -> Z -> response)
    (a : request) : io unit :=
  if negb (String.eqb (data_type a) "klines"
           || String.eqb (data_type a) "bookTicker") then
    raise (ValueError "data_type must be 'klines' or 'bookTicker'")
  else if String.eqb (data_type a) "klines" && negb (truthy (interval a)) then
    raise (ValueError "interval is required for klines data_type")
  else
    mkdir (local_path_of a);;
    start ← parse_date (start_date a);
    end_ ← parse_date (end_date a);
    existing_dates ← get_existing_dates (local_path_of a) (data_type a)
                       (interval a) (symbol a);
    missing_dates ← lift (missing_days existing_dates start end_);
    match missing_dates with
    | [] => mret tt
    | _ :: _ =>
        if max_concurrent_downloads a <? 0 then
          raise (ValueError "Semaphore initial value must be >= 0")
        else
          tasks ← schedule a missing_dates [];
          match tasks with
          | [] => mret tt
          | _ :: _ =>
              if max_concurrent_downloads a =? 0 then block
              else gather net (local_path_of a) tasks;; mret tt
          end
    end.

(** ** [get_combined_dataframe] (lines 169-223) *)

Definition binance_url : string := "https://data.binance.vision/data/".

(** A row of a frame: its [open_time] column (milliseconds since the
    epoch) and the other cells.  A frame is its sequence of rows. *)
Record row := Row { open_time : Z; cells : list string }.

Section Assembly.

(** [pandas.read_csv] on the bytes of a file. *)
Variable read_csv : string -> exn + list row.

(** Lines 210-218. *)
Fixpoint combine_loop (fuel : nat) (local_path : list string)
    (symbol interval : string) (d end_ : date) (dfs : list (list row))
    : io (list (list row)) :=
  match fuel with
  | O => block
  | S fuel' =>
      if date_le d end_ then
        let filename :=
          symbol +:+ "-" +:+ interval +:+ "-" +:+ strftime d +:+ ".csv" in
        emit (EExists local_path filename);;
        fs ← get_fs;
        dfs' ← match lookup_file fs local_path filename with
               | Some e =>
                   emit (ERead local_path filename);;
                   match e with
                   | File data =>
                       match read_csv data with
                       | inr df => mret (dfs ++ [df])
                       | inl err => raise err
                       end
                   | Dir => raise IsADirectoryError
                   end
               | None => mret dfs
               end;
        d' ← lift (add_day d);
        combine_loop fuel' local_path symbol interval d' end_ dfs'
      else mret dfs
  end.

(** Step 2 (lines 202-223). *)
Definition combine (data_dir : list string)
    (instrument market timeframe data_type symbol interval : string)
    (start_date end_date : string) : io (list row) :=
  let local_path :=
    fold_left path_join
      [instrument; market; timeframe; data_type; symbol; interval] data_dir in
  start ← parse_date start_date;
  end_ ← parse_date end_date;
  dfs ← combine_loop (loop_fuel start end_) local_path symbol interval
          start end_ [];
  match dfs with
  | [] => raise (ValueError "No data found, exiting.")
  | _ :: _ => mret (concat dfs)
  end.

Definition get_combined_dataframe (net : string -> Z -> response)
    (symbol interval start_date end_date : string) (data_dir : list string)
    (instrument market timeframe data_type : string)
    (max_concurrent_downloads : Z) : io (list row) :=
  download_binance_data net
    (Request symbol start_date end_date binance_url instrument market
       timeframe data_type (Some interval) data_dir
       max_concurrent_downloads);;
  combine data_dir instrument market timeframe data_type symbol interval
    start_date end_date.

End Assembly.

(** * Notions used in the statements *)

(** The regex [\d{4}-\d{2}-\d{2}] matches the whole of [g]. *)
Definition date_shaped (g : string) : Prop :=
  date_shape (list_ascii_of_string g) = Some [].

(** The bytes of [s] are all below 128. *)
Definition ascii_only (s : string) : bool :=
  forallb (fun c => byte_val c <? 128) (list_ascii_of_string s).

(** The file name [name] is read as the date [d]: it is the prefix, a text
    of the date shape that [strptime] parses to [d], and [.csv]. *)
Definition read_as (prefix name : string) (d : date) : Prop :=
  exists g, name = prefix +:+ g +:+ ".csv" /\ date_shaped g /\
            strptime g = Some d.

(** The days a [while date <= end] loop visits from [d] on. *)
Fixpoint days_from (fuel : nat) (d end_ : date) : list date :=
  match fuel with
  | O => []
  | S fuel' =>
      if date_le d end_ then
        d :: match add_day d with
             | Returned d' => days_from fuel' d' end_
             | _ => []
             end
      else []
  end.

Definition date_range (start end_ : date) : list date :=
  days_from (loop_fuel start end_) start end_.

Definition is_present (fs : FS) (dir : list string) (name : string) : bool :=
  match lookup_file fs dir name with Some _ => true | None => false end.

(** Every day of the requested range has an entry at its artifact path. *)
Definition all_cached (fs : FS) (a : request) : bool :=
  match strptime (start_date a), strptime (end_date a) with
  | Some start, Some end_ =>
      forallb (fun d => is_present fs (local_path_of a)
                          (csv_name (data_type a) (interval a) (symbol a) d))
              (date_range start end_)
  | _, _ => true
  end.

(** The network requests of a trace, and its requests and pauses. *)
Definition requests (t : list event) : list event :=
  List.filter (fun e => match e with EGet _ => true | _ => false end) t.

Definition net_view (t : list event) : list event :=
  List.filter (fun e => match e with EGet _ | ESleep _ => true | _ => false end) t.

(** A response that makes an attempt fail for a reason on the side of the
    server or of the archive: no connection, a status outside 2xx, a body
    that cannot be read, is no archive, is an empty archive, or whose first
    member cannot be opened or inflated. *)
Definition is_transient (r : response) : bool :=
  match r with
  | ConnError => true
  | Response status content =>
      if (status <? 200) || (299 <? status) then true
      else if status =? 200 then
        match content with
        | BodyReadError | NotAZip => true
        | Zip [] => true
        | Zip (((csv, _) :: _) as members) =>
            match getinfo csv members with
            | Some (Data _) => false
            | _ => true
            end
        end
      else false
  end.

(** A 200 response whose archive opens but whose first member fails while
    it is read. *)
Definition read_fails (r : response) : bool :=
  match r with
  | Response status (Zip (((csv, _) :: _) as members)) =>
      (status =? 200) &&
      match getinfo csv members with Some ReadFails => true | _ => false end
  | _ => false
  end.

(** What the assembly loop gets from the cache for one file name. *)
Definition load (read_csv : string -> exn + list row) (fs : FS)
    (dir : list string) (name : string) : option (exn + list row) :=
  match lookup_file fs dir name with
  | Some (File data) => Some (read_csv data)
  | Some Dir => Some (inl IsADirectoryError)
  | None => None
  end.

Definition klines_name (symbol interval : string) (d : date) : string :=
  symbol +:+ "-" +:+ interval +:+ "-" +:+ strftime d +:+ ".csv".

Definition klines_dir (data_dir : list string)
    (instrument market timeframe data_type symbol interval : string)
    : list string :=
  fold_left path_join
    [instrument; market; timeframe; data_type; symbol; interval] data_dir.

(** The set computed by the loop of [get_existing_dates] on a cache. *)
Definition existing_in (fs : FS) (dir : list string) (data_type : string)
    (interval : option string) (symbol : string) : gset date :=
  let prefix := name_prefix data_type interval symbol in
  fold_left (scan_file prefix)
    (List.filter (glob_match (prefix +:+ "*.csv")) (listdir fs dir)) ∅.

(** The bytes a response delivers when its attempt succeeds. *)
Definition payload (r : response) : option string :=
  match r with
  | Response status (Zip (((csv, _) :: _) as members)) =>
      if status =? 200 then
        match getinfo csv members with
        | Some (Data bytes) => Some bytes
        | _ => None
        end
      else None
  | _ => None
  end.

(** One attempt with its [except] clause (lines 59-73). *)
Definition attempt_once (net : string -> Z -> response) (url : string)
    (dir : list string) (name : string) (attempt : Z) : io bool :=
  try_except (fetch_once net url dir name attempt) (fun _ => mret false).

(** What one attempt can do to the file system: nothing, leave the
    destination created but empty, or leave it holding the payload. *)
Inductive attempt_outcome (fs : FS) (dir : list string) (name : string)
    (r : response) : bool -> FS -> Prop :=
| attempt_untouched : attempt_outcome fs dir name r false fs
| attempt_truncated m :
    fs !! dir = Some m -> m !! name <> Some Dir -> read_fails r = true ->
    attempt_outcome fs dir name r false (<[dir := <[name := File ""]> m]> fs)
| attempt_saved m bytes :
    fs !! dir = Some m -> m !! name <> Some Dir -> payload r = Some bytes ->
    attempt_outcome fs dir name r true (<[dir := <[name := File bytes]> m]> fs).

(** * Concrete caches, servers and parsers for the examples *)

(** A stand-in for the CSV parser: it rejects an empty file, as
    [pandas.read_csv] does, and reads every byte of another file as one row
    whose [open_time] is the code of the byte. *)
Definition demo_read_csv (data : string) : exn + list row :=
  match data with
  | EmptyString => inl (ReadCsvError "No columns to parse from file")
  | _ => inr (List.map (fun c => Row (Z.of_nat (nat_of_ascii c)) [])
                       (list_ascii_of_string data))
  end.

Definition demo_dir : list string :=
  ["data"; "futures"; "um"; "daily"; "klines"; "BTCUSDT"; "1h"].

Definition demo_request (start_date end_date : string) : request :=
  Request "BTCUSDT" start_date end_date binance_url "futures" "um" "daily"
    "klines" (Some "1h") ["data"] 10.

(** A server that answers every request with status 503. *)
Definition net_down (url : string) (attempt : Z) : response :=
  Response 503 NotAZip.

(** A server whose archives break off while their member is inflated. *)
Definition net_corrupt (url : string) (attempt : Z) : response :=
  Response 200 (Zip [("BTCUSDT-1h.csv", ReadFails)]).

(** A server that has the archive of 2024-01-02 only. *)
Definition net_one_day (url : string) (attempt : Z) : response :=
  if String.eqb url
       (binance_url +:+ "futures/um/daily/klines/BTCUSDT/1h/BTCUSDT-1h-2024-01-02.zip")
  then Response 200 (Zip [("BTCUSDT-1h-2024-01-02.csv", Data "cd")])
  else Response 404 NotAZip.

Definition fs_empty_dir : FS := {[ demo_dir := ∅ ]}.

(** A cache holding 2024-01-01 only. *)
Definition fs_one_day : FS :=
  {[ demo_dir := {[ "BTCUSDT-1h-2024-01-01.csv" := File "ab" ]} ]}.

(** A cache whose file for 2024-01-01 has no bytes. *)
Definition fs_zero_byte : FS :=
  {[ demo_dir := {[ "BTCUSDT-1h-2024-01-01.csv" := File "" ]} ]}.

(** A cache holding two days, the later one with the earlier timestamps. *)
Definition fs_unordered : FS :=
  {[ demo_dir := {[ "BTCUSDT-1h-2024-01-01.csv" := File "b";
                    "BTCUSDT-1h-2024-01-02.csv" := File "a" ]} ]}.

(** The file system after [mkdir]. *)
Definition mkdir_fs (dir : list string) (fs : FS) : FS :=
  match fs !! dir with
  | Some _ => fs
  | None => <[dir := ∅]> fs
  end.

(** The task of line 161 for a date: its url and its file name. *)
Definition task_of (a : request) (d : date) : string * string :=
  (remote_path_of a +:+ zip_name (data_type a) (interval a) (symbol a) d,
   csv_name (data_type a) (interval a) (symbol a) d).

Definition artifact_missing (fs : FS) (a : request) (d : date) : bool :=
  negb (is_present fs (local_path_of a)
          (csv_name (data_type a) (interval a) (symbol a) d)).

(** The request checks of lines 95-98 pass. *)
Definition request_ok (a : request) : bool :=
  (String.eqb (data_type a) "klines" || String.eqb (data_type a) "bookTicker")
  && negb (String.eqb (data_type a) "klines" && negb (truthy (interval a))).

(** The frames the assembly loop gathers from what it loads day by day: an
    absent file is skipped, a file that cannot be read ends the loop. *)
Fixpoint collect (loads : list (option (exn + list row)))
    : exn + list (list row) :=
  match loads with
  | [] => inr []
  | None :: rest => collect rest
  | Some (inl err) :: _ => inl err
  | Some (inr df) :: rest =>
      match collect rest with
      | inl err => inl err
      | inr dfs => inr (df :: dfs)
      end
  end.

(** What was loaded is a frame, and that frame. *)
Definition loaded_frame (l : option (exn + list row)) : option (list row) :=
  match l with
  | Some (inr df) => Some df
  | _ => None
  end.

(** What was loaded is a file that could not be read. *)
Definition load_failed (l : option (exn + list row)) : bool :=
  match l with
  | Some (inl _) => true
  | _ => false
  end.

(** A parser for the ordering example: two files with known times. *)
Definition day_read_csv (data : string) : exn + list row :=
  if String.eqb data "a" then inr [Row 1704067200000 []; Row 1704070800000 []]
  else if String.eqb data "b" then inr [Row 1704153600000 []]
  else inl (ReadCsvError "unknown file").

(** A cache holding two days in order, for [day_read_csv]. *)
Definition fs_two_days : FS :=
  {[ demo_dir := {[ "BTCUSDT-1h-2024-01-01.csv" := File "a";
                    "BTCUSDT-1h-2024-01-02.csv" := File "b" ]} ]}.

(** * The tasks of one run under the semaphore

    [gather] runs the tasks of line 161 concurrently; each is one call of
    [download_and_save_csv], whose whole body lies inside
    [async with semaphore].  The scheduler of the event loop is modelled by
    the actions it can take on a task; a schedule is any sequence of them. *)

Module Scheduler.

(** Where a task stands: before the semaphore, inside it in attempt
    [attempt] (requesting, reading, writing), inside it in the pause after
    a failed attempt, or past it with its result. *)
Inductive task_state :=
| Waiting
| Attempting (attempt : Z)
| Pausing (attempt : Z)
| Finished (ok : bool).

Record state := State { permits : Z; tasks : list task_state }.

Inductive action :=
| Acquire (i : nat)
| Succeed (i : nat)
| Fail (i : nat)
| Resume (i : nat).

(** [asyncio.Semaphore(value)] refuses a negative value; the tasks start
    before the semaphore. *)
Definition start (max_concurrent_downloads : Z) (n : nat) : result state :=
  if max_concurrent_downloads <? 0 then
    Raised (ValueError "Semaphore initial value must be >= 0")
  else Returned (State max_concurrent_downloads (replicate n Waiting)).

(** One action of the event loop on task [i]; [None] when the action is
    not enabled.  Entering takes a permit and needs one; [return True] and
    the end of the loop leave the [async with] block and give the permit
    back. *)
Definition exec (s : state) (act : action) : option state :=
  match act with
  | Acquire i =>
      match tasks s !! i with
      | Some Waiting =>
          if 0 <? permits s
          then Some (State (permits s - 1) (<[i := Attempting 1]> (tasks s)))
          else None
      | _ => None
      end
  | Succeed i =>
      match tasks s !! i with
      | Some (Attempting k) =>
          Some (State (permits s + 1) (<[i := Finished true]> (tasks s)))
      | _ => None
      end
  | Fail i =>
      match tasks s !! i with
      | Some (Attempting k) =>
          Some (State (permits s) (<[i := Pausing k]> (tasks s)))
      | _ => None
      end
  | Resume i =>
      match tasks s !! i with
      | Some (Pausing k) =>
          if k <? default_retries
          then Some (State (permits s) (<[i := Attempting (k + 1)]> (tasks s)))
          else Some (State (permits s + 1) (<[i := Finished false]> (tasks s)))
      | _ => None
      end
  end.

Fixpoint run (s : state) (schedule : list action) : option state :=
  match schedule with
  | [] => Some s
  | act :: rest =>
      match exec s act with
      | Some s' => run s' rest
      | None => None
      end
  end.

(** A task is in flight while it is inside the semaphore. *)
Definition in_flight (t : task_state) : Z :=
  match t with
  | Attempting _ | Pausing _ => 1
  | _ => 0
  end.

Fixpoint in_flight_count (l : list task_state) : Z :=
  match l with
  | [] => 0
  | t :: rest => in_flight t + in_flight_count rest
  end.

End Scheduler.

(** The default of the parameter [max_concurrent_downloads]. *)
Definition default_max_concurrent_downloads : Z := 10.

(** * Further notions: the effect of a fetch and of a run *)

(** The first attempt, among [n] attempts numbered from [attempt], whose
    response delivers a payload: the number of attempts that failed before
    it, and its bytes. *)
Fixpoint first_success (net : string -> Z -> response) (url : string)
    (attempt : Z) (n : nat) : option (nat * string) :=
  match n with
  | O => None
  | S n' =>
      match payload (net url attempt) with
      | Some bytes => Some (O, bytes)
      | None =>
          match first_success net url (attempt + 1) n' with
          | Some (failed, bytes) => Some (S failed, bytes)
          | None => None
          end
      end
  end.



(** The requests of a trace for one url. *)
Definition requests_for (url : string) (t : list event) : list event :=
  List.filter (fun ev => match ev with
                         | EGet u => String.eqb u url
                         | _ => false
                         end) t.

(** ** The caller: the window check of [run_backtest] ([main.py], lines
    57-68) *)

Definition window_message (start_date end_date backtest_start_date : string)
    : string :=
  "backtest_start_date " +:+ backtest_start_date +:+ " must be between "
  +:+ "start_date " +:+ start_date +:+ " and end_date " +:+ end_date.

Definition strptime_error : exn :=
  ValueError "time data does not match format '%Y-%m-%d'".

Definition check_backtest_window (start_date end_date : string)
    (backtest_start_date : option string) : result unit :=
  match backtest_start_date with
  | None => Returned tt
  | Some b =>
      match strptime start_date with
      | None => Raised strptime_error
      | Some start =>
          match strptime end_date with
          | None => Raised strptime_error
          | Some end_ =>
              match strptime b with
              | None => Raised strptime_error
              | Some backtest_start =>
                  if negb (date_le start backtest_start
                           && date_le backtest_start end_)
                  then Raised (ValueError (window_message start_date end_date b))
                  else Returned tt
              end
          end
      end
  end.

(** A server that fails twice and then delivers ["cd"]. *)
Definition net_third_time (url : string) (attempt : Z) : response :=
  if attempt <? 3 then Response 503 NotAZip
  else Response 200 (Zip [("BTCUSDT-1h-2024-01-02.csv", Data "cd")]).

(** A server that delivers ["cd"] for every request. *)
Definition net_always (url : string) (attempt : Z) : response :=
  Response 200 (Zip [("day.csv", Data "cd")]).

(** The events of the assembly: existence probes and reads. *)
Definition is_read_event (ev : event) : bool :=
  match ev with
  | EExists _ _ | ERead _ _ => true
  | _ => false
  end.

(** The attempt a task is in lies within the attempts of the loop. *)
Definition attempt_within (t : Scheduler.task_state) : bool :=
  match t with
  | Scheduler.Attempting k | Scheduler.Pausing k =>
      (1 <=? k) && (k <=? default_retries)
  | _ => true
  end.

Definition is_idle (t : Scheduler.task_state) : bool :=
  match t with
  | Scheduler.Attempting _ | Scheduler.Pausing _ => false
  | _ => true
  end.

Definition is_finished (t : Scheduler.task_state) : bool :=
  match t with
  | Scheduler.Finished _ => true
  | _ => false
  end.

(** The actions a task can still take: entering, then for each attempt
    left a failure and the pause after it. *)
Definition remaining_actions (t : Scheduler.task_state) : Z :=
  match t with
  | Scheduler.Waiting => 1 + 2 * default_retries
  | Scheduler.Attempting k => 2 * (default_retries - k) + 2
  | Scheduler.Pausing k => 2 * (default_retries - k) + 1
  | Scheduler.Finished _ => 0
  end.

Fixpoint remaining_total (l : list Scheduler.task_state) : Z :=
  match l with
  | [] => 0
  | t :: rest => remaining_actions t + remaining_total rest
  end.
(** * Properties *)

(** ** The library functions on examples *)

Example strptime_ok : strptime "2024-02-29" = Some (Date 2024 2 29).
Proof. reflexivity. Qed.
Example strptime_short : strptime "2024-2-9" = Some (Date 2024 2 9).
Proof. reflexivity. Qed.
Example strptime_bad : strptime "2023-02-29" = None.
Proof. reflexivity. Qed.
Example strptime_padded : strptime "0987-03-07" = Some (Date 987 3 7).
Proof. reflexivity. Qed.
Example strptime_unpadded : strptime "987-03-07" = None.
Proof. reflexivity. Qed.
Example strptime_fullwidth_year : strptime "２０２４-01-01" = Some (Date 2024 1 1).
Proof. reflexivity. Qed.
Example strptime_fullwidth_month : strptime "2024-０1-01" = None.
Proof. reflexivity. Qed.
Example strptime_fullwidth_day :
  strptime "2024-01-2３" = Some (Date 2024 1 23) /\ strptime "2024-01-０1" = None.
Proof. split; reflexivity. Qed.
Example strftime_ok : strftime (Date 2024 3 7) = "2024-03-07".
Proof. reflexivity. Qed.
Example strftime_short_year :
  strftime (Date 987 3 7) = "987-03-07" /\ isoformat (Date 987 3 7) = "0987-03-07".
Proof. split; reflexivity. Qed.
Example add_day_leap : add_day (Date 2024 2 28) = Returned (Date 2024 2 29).
Proof. reflexivity. Qed.
Example add_day_max : add_day (Date 9999 12 31) = Raised OverflowError.
Proof. reflexivity. Qed.
Example toordinal_epoch : toordinal (Date 1970 1 1) = 719163.
Proof. reflexivity. Qed.
Example pattern_match_ok :
  pattern_match "BTCUSDT-1h-" "BTCUSDT-1h-2024-01-05.csv" = Some "2024-01-05".
Proof. reflexivity. Qed.
Example pattern_match_fullwidth :
  pattern_match "BTCUSDT-1h-" "BTCUSDT-1h-２０２４-01-05.csv" = Some "２０２４-01-05".
Proof. reflexivity. Qed.
Example pattern_match_short_year :
  pattern_match "BTCUSDT-1h-" "BTCUSDT-1h-987-03-07.csv" = None.
Proof. reflexivity. Qed.
Example glob_match_ok :
  glob_match "BTCUSDT-1h-*.csv" "BTCUSDT-1h-2024-01-05.csv" = true.
Proof. reflexivity. Qed.
Example glob_match_newline :
  glob_match "S-*.csv" ("S-2024-01-05.csv" +:+ String newline EmptyString) = false
  /\ pattern_match "S-" ("S-2024-01-05.csv" +:+ String newline EmptyString)
     = Some "2024-01-05".
Proof. split; reflexivity. Qed.

(** ** Calendar arithmetic *)

Lemma valid_date_spec d :
  valid_date d = true <->
  1 <= year d <= MAXYEAR /\ 1 <= month d <= 12 /\
  1 <= day d <= days_in_month (year d) (month d).
Proof. unfold valid_date. rewrite !andb_true_iff, !Z.leb_le. lia. Qed.

Lemma days_in_month_bounds y m : 28 <= days_in_month y m <= 31.
Proof. unfold days_in_month. repeat case_match; lia. Qed.

Lemma add_day_valid d d' :
  valid_date d = true -> add_day d = Returned d' -> valid_date d' = true.
Proof.
  rewrite !valid_date_spec. unfold add_day, MAXYEAR. intros (Hy & Hm & Hd) H.
  pose proof (days_in_month_bounds (year d) (month d + 1)).
  pose proof (days_in_month_bounds (year d + 1) 1).
  repeat case_match; simplify_eq; cbn; lia.
Qed.

Lemma add_day_overflow d e :
  valid_date d = true -> add_day d = Raised e -> d = date_max /\ e = OverflowError.
Proof.
  rewrite valid_date_spec. unfold add_day, MAXYEAR, date_max. intros (Hy & Hm & Hd) H.
  destruct d as [y m dd]; cbn in *.
  repeat case_match; simplify_eq.
  assert (m = 12) by lia. subst. unfold days_in_month in *. cbn in *.
  split; [f_equal; unfold MAXYEAR; lia | done].
Qed.

Lemma add_day_not_blocked d : add_day d <> Blocked.
Proof. unfold add_day. repeat case_match; done. Qed.

Lemma add_day_returns d :
  valid_date d = true -> d <> date_max -> exists d', add_day d = Returned d'.
Proof.
  intros Hv Hne. destruct (add_day d) as [d'|e|] eqn:E; eauto.
  - by destruct (add_day_overflow _ _ Hv E).
  - by destruct (add_day_not_blocked d).
Qed.

Lemma is_leap_spec y :
  is_leap y = true <-> y mod 4 = 0 /\ (y mod 100 <> 0 \/ y mod 400 = 0).
Proof.
  unfold is_leap. rewrite andb_true_iff, orb_true_iff, negb_true_iff, !Z.eqb_eq, Z.eqb_neq. tauto.
Qed.

Lemma days_before_year_succ y :
  days_before_year (y + 1) = days_before_year y + 365 + (if is_leap y then 1 else 0).
Proof.
  unfold days_before_year. cbn zeta.
  replace (y + 1 - 1) with y by lia.
  destruct (is_leap y) eqn:E.
  - apply is_leap_spec in E. Z.div_mod_to_equations; lia.
  - assert (~ (y mod 4 = 0 /\ (y mod 100 <> 0 \/ y mod 400 = 0))) by (rewrite <- is_leap_spec; congruence).
    Z.div_mod_to_equations; lia.
Qed.

Lemma month_cases m :
  1 <= m <= 12 ->
  m = 1 \/ m = 2 \/ m = 3 \/ m = 4 \/ m = 5 \/ m = 6 \/
  m = 7 \/ m = 8 \/ m = 9 \/ m = 10 \/ m = 11 \/ m = 12.
Proof. lia. Qed.

Ltac by_month H :=
  apply month_cases in H;
  destruct H as [->|[->|[->|[->|[->|[->|[->|[->|[->|[->|[->| ->]]]]]]]]]]].

Lemma days_before_month_succ y m :
  1 <= m <= 11 ->
  days_before_month y (m + 1) = days_before_month y m + days_in_month y m.
Proof.
  intros Hm. assert (Hm' : 1 <= m <= 12) by lia.
  unfold days_before_month, days_in_month.
  destruct (is_leap y); by_month Hm'; solve [reflexivity | lia].
Qed.

Lemma days_before_month_12 y :
  days_before_month y 12 + days_in_month y 12 = 365 + (if is_leap y then 1 else 0).
Proof. unfold days_before_month, days_in_month. destruct (is_leap y); reflexivity. Qed.

Lemma add_day_ordinal d d' :
  valid_date d = true -> add_day d = Returned d' -> toordinal d' = toordinal d + 1.
Proof.
  rewrite valid_date_spec. unfold add_day, toordinal. intros (Hy & Hm & Hd) H.
  destruct d as [y m dd]; cbn in *.
  destruct (dd <? days_in_month y m) eqn:E1; [simplify_eq; cbn; lia|].
  apply Z.ltb_ge in E1.
  destruct (m <? 12) eqn:E2.
  - simplify_eq; cbn. apply Z.ltb_lt in E2.
    rewrite days_before_month_succ by lia. lia.
  - destruct (y <? MAXYEAR); simplify_eq; cbn.
    apply Z.ltb_ge in E2. assert (m = 12) by lia. subst m.
    rewrite days_before_year_succ.
    pose proof (days_before_month_12 y).
    change (days_before_month (y + 1) 1) with 0. lia.
Qed.

Lemma date_le_spec d1 d2 :
  date_le d1 d2 = true <->
  year d1 < year d2 \/
  (year d1 = year d2 /\ (month d1 < month d2 \/
                          (month d1 = month d2 /\ day d1 <= day d2))).
Proof.
  unfold date_le.
  rewrite !orb_true_iff, !andb_true_iff, !orb_true_iff, !andb_true_iff,
    !Z.ltb_lt, !Z.eqb_eq, Z.leb_le. tauto.
Qed.

Lemma date_lt_spec d1 d2 :
  date_lt d1 d2 <->
  year d1 < year d2 \/
  (year d1 = year d2 /\ (month d1 < month d2 \/
                          (month d1 = month d2 /\ day d1 < day d2))).
Proof.
  unfold date_lt. rewrite <- not_true_iff_false, date_le_spec. lia.
Qed.

Lemma date_le_refl d : date_le d d = true.
Proof. apply date_le_spec. lia. Qed.

Lemma date_le_antisym d1 d2 :
  date_le d1 d2 = true -> date_le d2 d1 = true -> d1 = d2.
Proof.
  rewrite !date_le_spec. destruct d1, d2; cbn. intros. f_equal; lia.
Qed.

Lemma date_le_trans d1 d2 d3 :
  date_le d1 d2 = true -> date_le d2 d3 = true -> date_le d1 d3 = true.
Proof. rewrite !date_le_spec. lia. Qed.

Lemma date_lt_le d1 d2 : date_lt d1 d2 -> date_le d1 d2 = true.
Proof. rewrite date_lt_spec, date_le_spec. lia. Qed.

Lemma date_lt_le_trans d1 d2 d3 :
  date_lt d1 d2 -> date_le d2 d3 = true -> date_lt d1 d3.
Proof. rewrite !date_lt_spec, date_le_spec. lia. Qed.

Lemma date_le_lt_or_eq d1 d2 :
  date_le d1 d2 = true -> d1 = d2 \/ date_lt d1 d2.
Proof.
  rewrite date_le_spec, date_lt_spec.
  destruct d1 as [y1 m1 a1], d2 as [y2 m2 a2]; cbn. intros.
  destruct (decide (a1 = a2 /\ m1 = m2 /\ y1 = y2)) as [(->&->&->)|];
    [by left | right; lia].
Qed.

(** [add_day] is the successor for the order on calendar days. *)
Lemma add_day_lt d d' :
  valid_date d = true -> add_day d = Returned d' -> date_lt d d'.
Proof.
  rewrite valid_date_spec, date_lt_spec. unfold add_day.
  intros (Hy & Hm & Hd) H. repeat case_match; simplify_eq; cbn; lia.
Qed.

Lemma add_day_least d d' x :
  valid_date d = true -> valid_date x = true ->
  add_day d = Returned d' -> date_lt d x -> date_le d' x = true.
Proof.
  rewrite !valid_date_spec, date_lt_spec, date_le_spec. unfold add_day.
  intros (Hy & Hm & Hd) (Hy' & Hm' & Hd') H Hlt.
  destruct (day d <? days_in_month (year d) (month d)) eqn:E1.
  { simplify_eq; cbn; lia. }
  apply Z.ltb_ge in E1.
  destruct (month d <? 12) eqn:E2.
  { simplify_eq; cbn. apply Z.ltb_lt in E2.
    destruct Hlt as [?|(Heq & [?|(Heq' & ?)])]; [lia | lia |].
    rewrite <- Heq, <- Heq' in Hd'. lia. }
  apply Z.ltb_ge in E2.
  destruct (year d <? MAXYEAR); simplify_eq; cbn.
  destruct Hlt as [?|(Heq & [?|(Heq' & ?)])]; [lia | lia |].
  rewrite <- Heq, <- Heq' in Hd'. lia.
Qed.

(** The ordinal is monotone: each day of a year lies before the first day
    of the next. *)
Lemma days_before_year_mono y1 y2 :
  y1 <= y2 -> days_before_year y1 <= days_before_year y2.
Proof. unfold days_before_year. intros. Z.div_mod_to_equations. lia. Qed.

Lemma days_before_month_mono y m1 m2 :
  1 <= m1 -> m1 < m2 -> m2 <= 12 ->
  days_before_month y m1 + days_in_month y m1 <= days_before_month y m2.
Proof.
  intros H1 H2 H3.
  assert (Hm1 : 1 <= m1 <= 12) by lia. assert (Hm2 : 1 <= m2 <= 12) by lia.
  unfold days_before_month, days_in_month.
  destruct (is_leap y); by_month Hm1; by_month Hm2; solve [lia | vm_compute; discriminate].
Qed.

Lemma days_before_month_nonneg y m : 0 <= days_before_month y m.
Proof.
  unfold days_before_month.
  repeat apply Z.add_nonneg_nonneg; repeat case_match; lia.
Qed.

Lemma toordinal_year_bound d :
  valid_date d = true ->
  days_before_year (year d) < toordinal d <= days_before_year (year d + 1).
Proof.
  rewrite valid_date_spec. intros (Hy & Hm & Hd).
  rewrite days_before_year_succ. unfold toordinal.
  pose proof (days_before_month_12 (year d)).
  pose proof (days_before_month_nonneg (year d) (month d)).
  destruct (decide (month d = 12)) as [E|].
  - rewrite E in *. lia.
  - pose proof (days_before_month_mono (year d) (month d) 12).
    pose proof (days_in_month_bounds (year d) 12). lia.
Qed.

Lemma toordinal_lt d1 d2 :
  valid_date d1 = true -> valid_date d2 = true ->
  date_lt d1 d2 -> toordinal d1 < toordinal d2.
Proof.
  intros Hv1 Hv2. rewrite date_lt_spec.
  pose proof (toordinal_year_bound _ Hv1). pose proof (toordinal_year_bound _ Hv2).
  apply valid_date_spec in Hv1 as (Hy1 & Hm1 & Hd1).
  apply valid_date_spec in Hv2 as (Hy2 & Hm2 & Hd2).
  intros [Hy|(Hy & [Hm|(Hm & Hd)])].
  - pose proof (days_before_year_mono (year d1 + 1) (year d2)). lia.
  - unfold toordinal. rewrite <- Hy in *.
    pose proof (days_before_month_mono (year d1) (month d1) (month d2)). lia.
  - unfold toordinal. rewrite <- Hy, <- Hm. lia.
Qed.

Lemma toordinal_le d1 d2 :
  valid_date d1 = true -> valid_date d2 = true ->
  date_le d1 d2 = true -> toordinal d1 <= toordinal d2.
Proof.
  intros Hv1 Hv2 Hle. destruct (date_le_lt_or_eq _ _ Hle) as [->|Hlt]; [lia|].
  pose proof (toordinal_lt _ _ Hv1 Hv2 Hlt). lia.
Qed.

(** ** Digits and the date format *)

Lemma digit_cases c :
  is_digit c = true ->
  c = "0"%char \/ c = "1"%char \/ c = "2"%char \/ c = "3"%char \/ c = "4"%char \/
  c = "5"%char \/ c = "6"%char \/ c = "7"%char \/ c = "8"%char \/ c = "9"%char.
Proof.
  destruct c as [[] [] [] [] [] [] [] []]; vm_compute; intros H;
    solve [discriminate H | tauto].
Qed.

Ltac by_digit H :=
  apply digit_cases in H;
  destruct H as [->|[->|[->|[->|[->|[->|[->|[->|[->| ->]]]]]]]]].

Lemma digit_val_bounds c : is_digit c = true -> 0 <= digit_val c <= 9.
Proof. intros H. by_digit H; vm_compute; split; discriminate. Qed.

Lemma digit_chr_val c : is_digit c = true -> digit_chr (digit_val c) = c.
Proof. intros H. by_digit H; reflexivity. Qed.

Lemma digit_as_nat n :
  0 <= n <= 9 -> exists k : nat, n = Z.of_nat k /\ (k <= 9)%nat.
Proof. intros H. exists (Z.to_nat n). lia. Qed.

Lemma is_digit_chr n : 0 <= n <= 9 -> is_digit (digit_chr n) = true.
Proof.
  intros H. apply digit_as_nat in H as (k & -> & Hk).
  do 10 (destruct k as [|k]; [reflexivity|]). lia.
Qed.

Lemma digit_val_chr n : 0 <= n <= 9 -> digit_val (digit_chr n) = n.
Proof.
  intros H. apply digit_as_nat in H as (k & -> & Hk).
  do 10 (destruct k as [|k]; [reflexivity|]). lia.
Qed.

Lemma is_digit_not_dash c : is_digit c = true -> Ascii.eqb c dash = false.
Proof. intros H. by_digit H; reflexivity. Qed.

Lemma digit_chr_inj a b :
  0 <= a <= 9 -> 0 <= b <= 9 -> digit_chr a = digit_chr b -> a = b.
Proof.
  intros Ha Hb E. apply (f_equal digit_val) in E. by rewrite !digit_val_chr in E.
Qed.

(** An ASCII digit is a decimal digit, with the same value. *)
Lemma decimal_digit_ascii c r :
  is_digit c = true -> decimal_digit (c :: r) = Some (digit_val c, r).
Proof. intros H. by_digit H; reflexivity. Qed.

Lemma decimal_digit_chr n r :
  0 <= n <= 9 -> decimal_digit (digit_chr n :: r) = Some (n, r).
Proof.
  intros H. rewrite decimal_digit_ascii by (by apply is_digit_chr).
  by rewrite digit_val_chr.
Qed.

(** Among the bytes below 128 the decimal digits are the ASCII digits. *)
Lemma decimal_digit_ascii_inv c r v r' :
  (byte_val c <? 128) = true -> decimal_digit (c :: r) = Some (v, r') ->
  is_digit c = true /\ v = digit_val c /\ r' = r.
Proof.
  destruct c as [[] [] [] [] [] [] [] []]; intros Hlt; vm_compute in Hlt;
    try discriminate Hlt; vm_compute; intros H;
    first [discriminate H | by injection H as <- <-].
Qed.

(** What a digit matches depends on the bytes of its character only. *)
Lemma decode_char_app l cp r t :
  decode_char l = Some (cp, r) -> decode_char (l ++ t) = Some (cp, r ++ t).
Proof.
  intros H. destruct l as [|a [|b [|c [|d l]]]]; cbn [app]; unfold decode_char in *;
    repeat (case_match; try done); by simplify_eq.
Qed.

Lemma decode_char_suffix l cp r :
  decode_char l = Some (cp, r) ->
  exists c, l = c ++ r /\ decode_char c = Some (cp, []).
Proof.
  intros H. destruct l as [|a l]; [done|].
  unfold decode_char in H.
  destruct (byte_val a <? 128) eqn:H1.
  { simplify_eq. exists [a]. split; [done|]. unfold decode_char. by rewrite H1. }
  destruct (byte_val a <? 194) eqn:H2; [done|].
  destruct (byte_val a <? 224) eqn:H3.
  { destruct l as [|b l]; [done|]. destruct (continuation b) eqn:Hb; [|done].
    simplify_eq. exists [a; b]. split; [done|]. unfold decode_char.
    by rewrite H1, H2, H3, Hb. }
  destruct (byte_val a <? 240) eqn:H4.
  { destruct l as [|b [|c l]]; try done.
    destruct (continuation b) eqn:Hb; [|done].
    destruct (continuation c) eqn:Hc; [|done].
    case_match eqn:Hcp; [|done].
    simplify_eq. exists [a; b; c]. split; [done|]. unfold decode_char.
    by rewrite H1, H2, H3, H4, Hb, Hc, Hcp. }
  destruct (byte_val a <? 245) eqn:H5; [|done].
  destruct l as [|b [|c [|d l]]]; try done.
  destruct (continuation b) eqn:Hb; [|done].
  destruct (continuation c) eqn:Hc; [|done].
  destruct (continuation d) eqn:Hd; [|done].
  case_match eqn:Hcp; [|done].
  simplify_eq. exists [a; b; c; d]. split; [done|]. unfold decode_char.
  by rewrite H1, H2, H3, H4, H5, Hb, Hc, Hd, Hcp.
Qed.

Lemma decimal_digit_app l v r t :
  decimal_digit l = Some (v, r) -> decimal_digit (l ++ t) = Some (v, r ++ t).
Proof.
  unfold decimal_digit. destruct (decode_char l) as [[cp r0]|] eqn:E; [|done].
  rewrite (decode_char_app _ _ _ t E). destruct (decimal_value cp); [|done].
  by intros [= -> ->].
Qed.

Lemma decimal_digit_suffix l v r :
  decimal_digit l = Some (v, r) ->
  exists c, l = c ++ r /\ decimal_digit c = Some (v, []).
Proof.
  unfold decimal_digit. destruct (decode_char l) as [[cp r0]|] eqn:E; [|done].
  destruct (decimal_value cp) eqn:Ev; [|done]. intros [= -> ->].
  destruct (decode_char_suffix _ _ _ E) as (c & -> & Hc).
  exists c. split; [done|]. by rewrite Hc, Ev.
Qed.

Lemma decimal_digits_app n : forall l vs r t,
  decimal_digits n l = Some (vs, r) ->
  decimal_digits n (l ++ t) = Some (vs, r ++ t).
Proof.
  induction n as [|n IH]; intros l vs r t H; cbn in *.
  { by simplify_eq. }
  destruct (decimal_digit l) as [[v r1]|] eqn:E; [|done].
  rewrite (decimal_digit_app _ _ _ t E).
  destruct (decimal_digits n r1) as [[vs' r2]|] eqn:E2; [|done].
  rewrite (IH _ _ _ t E2). by simplify_eq.
Qed.

Lemma decimal_digits_suffix n : forall l vs r,
  decimal_digits n l = Some (vs, r) ->
  exists c, l = c ++ r /\ decimal_digits n c = Some (vs, []).
Proof.
  induction n as [|n IH]; intros l vs r H; cbn in *.
  { simplify_eq. by exists []. }
  destruct (decimal_digit l) as [[v r1]|] eqn:E; [|done].
  destruct (decimal_digits n r1) as [[vs' r2]|] eqn:E2; [|done].
  simplify_eq.
  destruct (decimal_digit_suffix _ _ _ E) as (c1 & -> & Hc1).
  destruct (IH _ _ _ E2) as (c2 & -> & Hc2).
  exists (c1 ++ c2). split; [by rewrite app_assoc|].
  rewrite (decimal_digit_app _ _ _ c2 Hc1). cbn [app]. by rewrite Hc2.
Qed.

Lemma date_shape_app l r t :
  date_shape l = Some r -> date_shape (l ++ t) = Some (r ++ t).
Proof.
  unfold date_shape.
  destruct (decimal_digits 4 l) as [[vs1 [|s1 r1]]|] eqn:E1; try done.
  rewrite (decimal_digits_app _ _ _ _ t E1). cbn [app].
  destruct (Ascii.eqb s1 dash); [|done].
  destruct (decimal_digits 2 r1) as [[vs2 [|s2 r2]]|] eqn:E2; try done.
  rewrite (decimal_digits_app _ _ _ _ t E2). cbn [app].
  destruct (Ascii.eqb s2 dash); [|done].
  destruct (decimal_digits 2 r2) as [[vs3 tl]|] eqn:E3; [|done].
  rewrite (decimal_digits_app _ _ _ _ t E3). by intros [= ->].
Qed.

Lemma date_shape_suffix l r :
  date_shape l = Some r -> exists g, l = g ++ r /\ date_shape g = Some [].
Proof.
  unfold date_shape.
  destruct (decimal_digits 4 l) as [[vs1 [|s1 r1]]|] eqn:E1; try done.
  destruct (Ascii.eqb s1 dash) eqn:Hs1; [|done].
  destruct (decimal_digits 2 r1) as [[vs2 [|s2 r2]]|] eqn:E2; try done.
  destruct (Ascii.eqb s2 dash) eqn:Hs2; [|done].
  destruct (decimal_digits 2 r2) as [[vs3 tl]|] eqn:E3; [|done].
  intros [= ->].
  destruct (decimal_digits_suffix _ _ _ _ E1) as (c1 & -> & Hc1).
  destruct (decimal_digits_suffix _ _ _ _ E2) as (c2 & -> & Hc2).
  destruct (decimal_digits_suffix _ _ _ _ E3) as (c3 & -> & Hc3).
  exists (c1 ++ s1 :: c2 ++ s2 :: c3). split.
  { by repeat (rewrite <- app_assoc; cbn [app]). }
  rewrite (decimal_digits_app _ _ _ _ (s1 :: c2 ++ s2 :: c3) Hc1). cbn [app].
  rewrite Hs1.
  rewrite (decimal_digits_app _ _ _ _ (s2 :: c3) Hc2). cbn [app].
  by rewrite Hs2, Hc3.
Qed.

(** Two-digit fields. *)
Lemma match_month_fmt m r :
  1 <= m <= 12 ->
  match_month (digit_chr (m / 10 mod 10) :: digit_chr (m mod 10) :: r) = Some (m, r).
Proof. intros H. by_month H; reflexivity. Qed.

Lemma day_cases n :
  1 <= n <= 31 -> exists k : nat, n = Z.of_nat k /\ (1 <= k <= 31)%nat.
Proof. intros H. exists (Z.to_nat n). lia. Qed.

Lemma match_day_fmt n :
  1 <= n <= 31 ->
  match_day [digit_chr (n / 10 mod 10); digit_chr (n mod 10)] = Some (n, []).
Proof.
  intros H. destruct (day_cases n H) as (k & -> & Hk).
  do 32 (destruct k as [|k]; [first [lia | reflexivity]|]). lia.
Qed.

Lemma match_month_digits a b r v r' :
  is_digit a = true -> is_digit b = true ->
  match_month (a :: b :: r) = Some (v, r') ->
  (r' = r /\ v = 10 * digit_val a + digit_val b /\ 1 <= v <= 12) \/ r' = b :: r.
Proof.
  intros Ha Hb. by_digit Ha; by_digit Hb; vm_compute; intros H;
    first [discriminate H | injection H as <- <-; (left; repeat split; discriminate) || (by right)].
Qed.

Lemma match_day_digits a b v :
  is_digit a = true -> is_digit b = true ->
  match_day [a; b] = Some (v, []) ->
  v = 10 * digit_val a + digit_val b /\ 1 <= v <= 31.
Proof.
  intros Ha Hb. by_digit Ha; by_digit Hb; vm_compute; intros H;
    first [discriminate H | injection H as <-; repeat split; discriminate].
Qed.

Lemma strptime_valid s d : strptime s = Some d -> valid_date d = true.
Proof.
  unfold strptime. intros H.
  destruct (decimal_digits 4 _)
    as [[[|y1 [|y2 [|y3 [|y4 [|]]]]] [|sep1 r1]]|]; try done.
  destruct (Ascii.eqb sep1 dash); [|done].
  destruct (match_month r1) as [[m [|sep2 r2]]|]; try done.
  destruct (Ascii.eqb sep2 dash); [|done].
  destruct (match_day r2) as [[dd [|]]|]; try done.
  destruct (valid_date _) eqn:E; [|done]. by simplify_eq.
Qed.

Lemma year_digits y :
  0 <= y <= 9999 ->
  0 <= y / 1000 mod 10 <= 9 /\ 0 <= y / 100 mod 10 <= 9 /\
  0 <= y / 10 mod 10 <= 9 /\ 0 <= y mod 10 <= 9 /\
  1000 * (y / 1000 mod 10) + 100 * (y / 100 mod 10)
    + 10 * (y / 10 mod 10) + y mod 10 = y.
Proof. intros. Z.div_mod_to_equations. lia. Qed.

(** [strptime] reads the zero-padded form of a date back. *)
Lemma strptime_isoformat d :
  valid_date d = true -> strptime (isoformat d) = Some d.
Proof.
  intros Hv. pose proof Hv as Hv'. apply valid_date_spec in Hv' as (Hy & Hm & Hd).
  pose proof (days_in_month_bounds (year d) (month d)).
  unfold MAXYEAR in Hy.
  destruct (year_digits (year d)) as (H1 & H2 & H3 & H4 & Hsum); [lia|].
  unfold strptime, isoformat. rewrite list_ascii_of_string_of_list_ascii.
  cbn [decimal_digits]. rewrite !decimal_digit_chr by assumption.
  rewrite Hsum. change (Ascii.eqb dash dash) with true. cbn match.
  rewrite match_month_fmt by lia.
  change (Ascii.eqb dash dash) with true. cbn match.
  rewrite match_day_fmt by lia.
  destruct d; cbn in *. by rewrite Hv.
Qed.

(** From the year 1000 on [strftime] gives the zero-padded form. *)
Lemma strftime_isoformat d : 1000 <= year d -> strftime d = isoformat d.
Proof.
  intros Hy. unfold strftime, isoformat, year_str.
  assert ((year d <? 10) = false) as -> by lia.
  assert ((year d <? 100) = false) as -> by lia.
  assert ((year d <? 1000) = false) as -> by lia.
  reflexivity.
Qed.

Lemma strptime_strftime d :
  valid_date d = true -> 1000 <= year d -> strptime (strftime d) = Some d.
Proof.
  intros Hv Hy. rewrite strftime_isoformat by done. by apply strptime_isoformat.
Qed.

(** Below the year 1000 [strptime] does not read what [strftime] wrote. *)
Lemma strptime_strftime_short d :
  valid_date d = true -> year d < 1000 -> strptime (strftime d) = None.
Proof.
  intros (Hy & Hm & Hd)%valid_date_spec Hlt.
  pose proof (days_in_month_bounds (year d) (month d)).
  unfold strptime, strftime, year_str.
  rewrite list_ascii_of_string_of_list_ascii.
  destruct (Z.ltb_spec (year d) 10); [|destruct (Z.ltb_spec (year d) 100);
    [|destruct (Z.ltb_spec (year d) 1000); [|lia]]];
    cbn [app decimal_digits];
    rewrite ?decimal_digit_chr by (Z.div_mod_to_equations; lia);
    reflexivity.
Qed.

Lemma strftime_inj d1 d2 :
  valid_date d1 = true -> valid_date d2 = true ->
  strftime d1 = strftime d2 -> d1 = d2.
Proof.
  intros (Hy1 & Hm1 & Hd1)%valid_date_spec (Hy2 & Hm2 & Hd2)%valid_date_spec E.
  pose proof (days_in_month_bounds (year d1) (month d1)).
  pose proof (days_in_month_bounds (year d2) (month d2)).
  unfold MAXYEAR in *.
  apply (f_equal list_ascii_of_string) in E. unfold strftime, year_str in E.
  rewrite !list_ascii_of_string_of_list_ascii in E.
  destruct d1 as [y1 m1 dd1], d2 as [y2 m2 dd2]; cbn [year month day] in *.
  destruct (Z.ltb_spec y1 10), (Z.ltb_spec y1 100), (Z.ltb_spec y1 1000),
           (Z.ltb_spec y2 10), (Z.ltb_spec y2 100), (Z.ltb_spec y2 1000);
    try lia; cbn [app] in E; try discriminate E; injection E; intros;
    repeat match goal with
           | H : digit_chr _ = digit_chr _ |- _ =>
               apply digit_chr_inj in H; [|Z.div_mod_to_equations; lia..]
           end;
    f_equal; Z.div_mod_to_equations; lia.
Qed.

(** ** File names *)

Lemma append_nil s : "" +:+ s = s.
Proof. reflexivity. Qed.

Lemma append_cons c s t : String c s +:+ t = String c (s +:+ t).
Proof. reflexivity. Qed.

Ltac str_simpl := rewrite ?append_cons, ?append_nil; simpl.

Lemma list_ascii_of_string_app a b :
  list_ascii_of_string (a +:+ b) = list_ascii_of_string a ++ list_ascii_of_string b.
Proof. induction a as [|c a IH]; str_simpl; [done | by f_equal]. Qed.


Lemma strip_prefix_app p r : strip_prefix p (p +:+ r) = Some r.
Proof. induction p as [|c p IH]; str_simpl; [done | by rewrite Ascii.eqb_refl]. Qed.

Lemma strip_prefix_spec p s r : strip_prefix p s = Some r -> s = p +:+ r.
Proof.
  revert s. induction p as [|c p IH]; str_simpl; intros s H; [congruence|].
  destruct s as [|c' s]; [done|].
  destruct (Ascii.eqb_spec c c') as [->|]; [|done].
  by rewrite (IH _ H).
Qed.

Lemma plain_app a b : plain (a +:+ b) = plain a && plain b.
Proof. unfold plain. by rewrite list_ascii_of_string_app, forallb_app. Qed.

Lemma glob_plain_prefix p q r :
  plain p = true -> glob_match (p +:+ q) (p +:+ r) = glob_match q r.
Proof.
  unfold plain. induction p as [|c p IH]; str_simpl; [done|].
  intros [Hc Hp]%andb_true_iff.
  assert (Ascii.eqb c "*" = false) as ->.
  { unfold plain_char in Hc. apply negb_true_iff in Hc.
    by repeat apply orb_false_elim in Hc as [Hc _]. }
  rewrite Ascii.eqb_refl. simpl. by apply IH.
Qed.

Lemma star_search_app k g s : k s = true -> star_search k (g +:+ s) = true.
Proof.
  intros Hk. induction g as [|c g IH]; str_simpl.
  - destruct s; simpl; rewrite Hk; done.
  - rewrite IH. apply orb_true_r.
Qed.

Lemma glob_star_csv g : glob_match "*.csv" (g +:+ ".csv") = true.
Proof. simpl. by apply star_search_app. Qed.

Lemma string_of_list_ascii_app a b :
  string_of_list_ascii (a ++ b) = string_of_list_ascii a +:+ string_of_list_ascii b.
Proof. induction a as [|c a IH]; [done|]. cbn. by rewrite IH. Qed.

Lemma match_date_csv_spec rest g :
  match_date_csv rest = Some g ->
  date_shaped g /\
  (rest = g +:+ ".csv" \/ rest = g +:+ ".csv" +:+ String newline EmptyString).
Proof.
  unfold match_date_csv, date_shaped. cbn zeta.
  destruct (date_shape (list_ascii_of_string rest)) as [tl|] eqn:E; [|done].
  destruct (date_shape_suffix _ _ E) as (g0 & Hl & Hg0).
  case_match eqn:Htl; [|done]. intros [= <-].
  rewrite Hl, length_app, Nat.add_sub, take_app_length.
  rewrite list_ascii_of_string_of_list_ascii. split; [done|].
  rewrite <- (string_of_list_ascii_of_string rest), Hl, string_of_list_ascii_app.
  apply orb_true_iff in Htl as [->%String.eqb_eq | ->%String.eqb_eq];
    [by left | by right].
Qed.

Lemma match_date_csv_shaped g :
  date_shaped g -> match_date_csv (g +:+ ".csv") = Some g.
Proof.
  unfold date_shaped, match_date_csv. intros Hg. cbn zeta.
  rewrite list_ascii_of_string_app, (date_shape_app _ _ _ Hg). cbn [app].
  change (String.eqb (string_of_list_ascii (list_ascii_of_string ".csv")) ".csv")
    with true. cbn [orb].
  rewrite length_app, Nat.add_sub, take_app_length.
  by rewrite string_of_list_ascii_of_string.
Qed.

Lemma date_shaped_isoformat d : valid_date d = true -> date_shaped (isoformat d).
Proof.
  intros (Hy & Hm & Hd)%valid_date_spec.
  pose proof (days_in_month_bounds (year d) (month d)). unfold MAXYEAR in Hy.
  unfold date_shaped, date_shape, isoformat.
  rewrite list_ascii_of_string_of_list_ascii. cbn [decimal_digits].
  rewrite !decimal_digit_chr by (Z.div_mod_to_equations; lia).
  reflexivity.
Qed.

Lemma decimal_digits_ascii n : forall l vs r,
  forallb (fun c => byte_val c <? 128) l = true ->
  decimal_digits n l = Some (vs, r) ->
  exists cs, l = cs ++ r /\ length cs = n /\ forallb is_digit cs = true /\
             forallb (fun c => byte_val c <? 128) r = true.
Proof.
  induction n as [|n IH]; intros l vs r Ha H; cbn in H.
  { simplify_eq. by exists []. }
  destruct l as [|c l]; [done|]. cbn in Ha. apply andb_true_iff in Ha as [Hc Ha].
  destruct (decimal_digit (c :: l)) as [[v r1]|] eqn:E; [|done].
  apply decimal_digit_ascii_inv in E as (Hd & -> & ->); [|done].
  destruct (decimal_digits n l) as [[vs' r2]|] eqn:E2; [|done]. simplify_eq.
  destruct (IH _ _ _ Ha E2) as (cs & -> & Hlen & Hds & Hr).
  exists (c :: cs). cbn. rewrite Hd, Hlen. done.
Qed.

Lemma ascii_date_shape l :
  forallb (fun c => byte_val c <? 128) l = true -> date_shape l = Some [] ->
  exists y1 y2 y3 y4 m1 m2 d1 d2,
    l = [y1; y2; y3; y4; dash; m1; m2; dash; d1; d2] /\
    forallb is_digit [y1; y2; y3; y4; m1; m2; d1; d2] = true.
Proof.
  unfold date_shape. intros Ha H.
  destruct (decimal_digits 4 l) as [[vs1 [|s1 r1]]|] eqn:E1; try done.
  destruct (decimal_digits_ascii _ _ _ _ Ha E1) as (c1 & -> & Hl1 & Hd1 & Ha1).
  destruct (Ascii.eqb_spec s1 dash) as [->|]; [|done].
  cbn [forallb] in Ha1. apply andb_true_iff in Ha1 as [_ Ha1].
  destruct (decimal_digits 2 r1) as [[vs2 [|s2 r2]]|] eqn:E2; try done.
  destruct (decimal_digits_ascii _ _ _ _ Ha1 E2) as (c2 & -> & Hl2 & Hd2 & Ha2).
  destruct (Ascii.eqb_spec s2 dash) as [->|]; [|done].
  cbn [forallb] in Ha2. apply andb_true_iff in Ha2 as [_ Ha2].
  destruct (decimal_digits 2 r2) as [[vs3 tl]|] eqn:E3; [|done].
  destruct (decimal_digits_ascii _ _ _ _ Ha2 E3) as (c3 & -> & Hl3 & Hd3 & _).
  injection H as ->.
  destruct c1 as [|y1 [|y2 [|y3 [|y4 [|]]]]]; try done.
  destruct c2 as [|m1 [|m2 [|]]]; try done.
  destruct c3 as [|d1 [|d2 [|]]]; try done.
  exists y1, y2, y3, y4, m1, m2, d1, d2. split; [done|].
  cbn in *. repeat (apply andb_true_iff in Hd1 as [? Hd1]).
  repeat (apply andb_true_iff in Hd2 as [? Hd2]).
  repeat (apply andb_true_iff in Hd3 as [? Hd3]).
  repeat match goal with H : is_digit _ = true |- _ => rewrite H; clear H end.
  reflexivity.
Qed.

(** A text of the date shape made of bytes below 128 that [strptime] reads
    as a date is the zero-padded form of that date. *)
Lemma ascii_date_isoformat g d :
  ascii_only g = true -> date_shaped g -> strptime g = Some d ->
  g = isoformat d.
Proof.
  unfold ascii_only, date_shaped. intros Ha Hg.
  destruct (ascii_date_shape _ Ha Hg)
    as (y1 & y2 & y3 & y4 & m1 & m2 & d1 & d2 & Hl & Hd).
  rewrite <- (string_of_list_ascii_of_string g), Hl. clear Ha Hg Hl.
  cbn in Hd. repeat (apply andb_true_iff in Hd as [? Hd]).
  unfold strptime. rewrite list_ascii_of_string_of_list_ascii.
  cbn [decimal_digits]. rewrite !decimal_digit_ascii by done.
  change (Ascii.eqb dash dash) with true. cbn match.
  destruct (match_month _) as [[v r']|] eqn:Em; [|done].
  apply match_month_digits in Em; [|done..].
  destruct Em as [(-> & -> & Hv)| ->].
  2:{ by rewrite (is_digit_not_dash m2). }
  change (Ascii.eqb dash dash) with true. cbn match.
  destruct (match_day _) as [[w r'']|] eqn:Ed; [|done].
  destruct r''; [|done].
  apply match_day_digits in Ed; [|done..]. destruct Ed as [-> Hw].
  case_match; [|done]. intros [= <-]. unfold isoformat. cbn [year month day].
  repeat match goal with
         | H : is_digit ?c = true |- _ =>
             pose proof (digit_val_bounds _ H); pose proof (digit_chr_val _ H);
             clear H
         end.
  f_equal.
  repeat match goal with
  | |- _ :: _ = _ :: _ => f_equal
  end; try reflexivity;
  match goal with
  | |- ?c = digit_chr ?e =>
      transitivity (digit_chr (digit_val c));
        [done | f_equal; Z.div_mod_to_equations; lia]
  end.
Qed.

Lemma star_search_cons k c s :
  star_search k (String c s) = k (String c s) || star_search k s.
Proof. reflexivity. Qed.

Lemma glob_literal p : forall s,
  forallb (fun c => negb (Ascii.eqb c "*")) (list_ascii_of_string p) = true ->
  glob_match p s = true -> s = p.
Proof.
  induction p as [|c p IH]; intros s Hp H.
  - by destruct s.
  - cbn [list_ascii_of_string forallb] in Hp.
    apply andb_true_iff in Hp as [Hc Hp]. apply negb_true_iff in Hc.
    cbn [glob_match] in H. rewrite Hc in H. destruct s as [|c' s]; [done|].
    apply andb_true_iff in H as [->%Ascii.eqb_eq H]. f_equal. by apply IH.
Qed.

Lemma glob_csv_literal s : glob_match ".csv" s = true -> s = ".csv".
Proof. by apply glob_literal. Qed.

Lemma glob_star_csv_inv s :
  glob_match "*.csv" s = true -> exists g, s = g +:+ ".csv".
Proof.
  change (glob_match "*.csv") with (star_search (glob_match ".csv")).
  induction s as [|c s IH].
  - done.
  - rewrite star_search_cons. intros [H|H]%orb_true_iff.
    + exists "". by rewrite (glob_csv_literal _ H).
    + destruct (IH H) as [g ->]. by exists (String c g).
Qed.

(** The glob leaves out a name that ends in a newline, which the regex
    would take. *)
Lemma glob_star_newline g :
  glob_match "*.csv" (g +:+ ".csv" +:+ String newline EmptyString) = false.
Proof.
  destruct (glob_match _ _) eqn:E; [|done].
  apply glob_star_csv_inv in E as [x Hx].
  apply (f_equal (fun s => rev (list_ascii_of_string s))) in Hx.
  rewrite !list_ascii_of_string_app, !rev_app_distr in Hx.
  cbn in Hx. discriminate Hx.
Qed.

(** A name is read as a date exactly when the glob and the regex take it
    and [strptime] parses its group. *)
Lemma read_as_detected p name d :
  plain p = true -> read_as p name d ->
  glob_match (p +:+ "*.csv") name = true /\
  exists g, pattern_match p name = Some g /\ strptime g = Some d.
Proof.
  intros Hp (g & -> & Hg & Hd). split.
  - rewrite glob_plain_prefix by done. apply glob_star_csv.
  - exists g. split; [|done]. unfold pattern_match. rewrite strip_prefix_app.
    by apply match_date_csv_shaped.
Qed.

Lemma detected_read_as p name g d :
  plain p = true ->
  glob_match (p +:+ "*.csv") name = true ->
  pattern_match p name = Some g -> strptime g = Some d ->
  read_as p name d.
Proof.
  intros Hp Hglob Hpat Hd. unfold pattern_match in Hpat.
  destruct (strip_prefix p name) as [rest|] eqn:E; [|done].
  apply strip_prefix_spec in E as ->.
  apply match_date_csv_spec in Hpat as [Hg [-> | ->]].
  - by exists g.
  - rewrite glob_plain_prefix in Hglob by done.
    by rewrite glob_star_newline in Hglob.
Qed.

(** The zero-padded name of a date is read as that date. *)
Lemma isoformat_read_as p d :
  valid_date d = true -> read_as p (p +:+ isoformat d +:+ ".csv") d.
Proof.
  intros Hd. exists (isoformat d). split; [done|].
  split; [by apply date_shaped_isoformat | by apply strptime_isoformat].
Qed.

Lemma append_inv_head p a b : p +:+ a = p +:+ b -> a = b.
Proof.
  induction p as [|c p IH]; [done|]. rewrite !append_cons. intros [= H]. auto.
Qed.

Lemma append_inv_tail a b t : a +:+ t = b +:+ t -> a = b.
Proof.
  intros H. apply (f_equal list_ascii_of_string) in H.
  rewrite !list_ascii_of_string_app in H. apply app_inv_tail in H.
  rewrite <- (string_of_list_ascii_of_string a), <- (string_of_list_ascii_of_string b).
  by rewrite H.
Qed.

(** Below the year 1000 the name [strftime] gives has no four-digit year,
    and the scan reads it as no date. *)
Lemma short_year_not_read (p : string) (d x : date) :
  valid_date d = true -> year d < 1000 ->
  ~ read_as p (p +:+ strftime d +:+ ".csv") x.
Proof.
  intros (Hy & Hm & Hd)%valid_date_spec Hlt (g & Hname & Hg & _).
  apply append_inv_head, append_inv_tail in Hname. subst g.
  pose proof (days_in_month_bounds (year d) (month d)).
  unfold date_shaped, date_shape, strftime, year_str in Hg.
  rewrite list_ascii_of_string_of_list_ascii in Hg.
  destruct (Z.ltb_spec (year d) 10); [|destruct (Z.ltb_spec (year d) 100);
    [|destruct (Z.ltb_spec (year d) 1000); [|lia]]];
    cbn [app decimal_digits] in Hg;
    rewrite ?decimal_digit_chr in Hg by (Z.div_mod_to_equations; lia);
    discriminate Hg.
Qed.

(** ** The days of a range *)

Lemma valid_le_max e : valid_date e = true -> date_le e date_max = true.
Proof.
  rewrite valid_date_spec, date_le_spec. unfold date_max; cbn.
  pose proof (days_in_month_bounds (year e) (month e)).
  intros (Hy & Hm & Hd).
  destruct (decide (month e = 12)) as [E|]; [|lia].
  rewrite E in Hd. change (days_in_month (year e) 12) with 31 in Hd. lia.
Qed.

Lemma days_from_spec fuel : forall d e,
  valid_date d = true -> valid_date e = true ->
  toordinal e - toordinal d + 2 <= Z.of_nat fuel ->
  (forall x, x ∈ days_from fuel d e <->
             valid_date x = true /\ date_le d x = true /\ date_le x e = true)
  /\ StronglySorted date_lt (days_from fuel d e).
Proof.
  induction fuel as [|fuel IH]; intros d e Hd He Hfuel.
  { assert (date_le d e = false) as Hgt.
    { destruct (date_le d e) eqn:E; [|done].
      pose proof (toordinal_le _ _ Hd He E). lia. }
    split; [|constructor]. intros x. cbn. split; [by intros ?%elem_of_nil|].
    intros (_ & H1 & H2). rewrite (date_le_trans _ _ _ H1 H2) in Hgt. done. }
  cbn [days_from]. destruct (date_le d e) eqn:Hle.
  2:{ split; [|constructor]. intros x. split; [by intros ?%elem_of_nil|].
      intros (_ & H1 & H2). rewrite (date_le_trans _ _ _ H1 H2) in Hle. done. }
  destruct (add_day d) as [d'| err |] eqn:Hadd.
  - pose proof (add_day_valid _ _ Hd Hadd) as Hd'.
    pose proof (add_day_ordinal _ _ Hd Hadd) as Hord.
    pose proof (add_day_lt _ _ Hd Hadd) as Hlt.
    destruct (IH d' e Hd' He) as [Hmem Hsort]; [lia|].
    split.
    + intros x. rewrite elem_of_cons, Hmem. split.
      * intros [-> | (Hx & H1 & H2)]; [by rewrite date_le_refl|].
        repeat split; [done| |done].
        apply date_lt_le. by apply (date_lt_le_trans d d' x).
      * intros (Hx & H1 & H2).
        destruct (date_le_lt_or_eq _ _ H1) as [->|Hdx]; [by left|].
        right. repeat split; [done| |done]. by apply (add_day_least d d' x).
    + constructor; [done|]. apply Forall_forall. intros x Hx.
      apply Hmem in Hx as (_ & H1 & _). by apply (date_lt_le_trans d d' x).
  - destruct (add_day_overflow _ _ Hd Hadd) as [-> _].
    pose proof (date_le_antisym _ _ Hle (valid_le_max _ He)) as <-.
    split; [|repeat constructor].
    intros x. rewrite list_elem_of_singleton. split; [by intros ->; rewrite date_le_refl|].
    intros (_ & H1 & H2). eapply date_le_antisym; eauto.
  - by destruct (add_day_not_blocked d).
Qed.

Lemma loop_fuel_enough s e :
  toordinal e - toordinal s + 2 <= Z.of_nat (loop_fuel s e).
Proof. unfold loop_fuel. lia. Qed.

Lemma date_range_spec s e x :
  valid_date s = true -> valid_date e = true ->
  x ∈ date_range s e <->
  valid_date x = true /\ date_le s x = true /\ date_le x e = true.
Proof.
  intros Hs He. apply (days_from_spec _ s e Hs He (loop_fuel_enough s e)).
Qed.

Lemma date_range_sorted s e :
  valid_date s = true -> valid_date e = true ->
  StronglySorted date_lt (date_range s e).
Proof.
  intros Hs He. apply (days_from_spec _ s e Hs He (loop_fuel_enough s e)).
Qed.

Lemma date_range_empty s e : date_le s e = false -> date_range s e = [].
Proof. unfold date_range, loop_fuel. cbn. by intros ->. Qed.

Lemma missing_loop_spec fuel (X : gset date) : forall d e acc,
  valid_date d = true -> valid_date e = true ->
  (0 < fuel)%nat -> toordinal e - toordinal d + 2 <= Z.of_nat fuel ->
  missing_loop fuel X d e acc =
    if decide (e = date_max /\ date_le d e = true) then Raised OverflowError
    else Returned (acc ++ filter (.∉ X) (days_from fuel d e)).
Proof.
  induction fuel as [|fuel IH]; intros d e acc Hd He Hpos Hfuel; [lia|].
  cbn [missing_loop days_from]. destruct (date_le d e) eqn:Hle.
  2:{ rewrite decide_False by (intros [_ ?]; done).
      by rewrite filter_nil, app_nil_r. }
  pose proof (toordinal_le _ _ Hd He Hle) as Hord.
  destruct (add_day d) as [d'| err |] eqn:Hadd.
  - pose proof (add_day_valid _ _ Hd Hadd) as Hd'.
    pose proof (add_day_ordinal _ _ Hd Hadd) as Hord'.
    rewrite IH by (done || lia).
    assert (e = date_max /\ date_le d' e = true <-> e = date_max /\ true = true) as Hiff.
    { split; intros [-> _]; split; try done. by apply valid_le_max. }
    destruct (decide (e = date_max /\ date_le d' e = true)) as [Hc|Hc];
      destruct (decide (e = date_max /\ true = true)) as [Hc'|Hc'];
      [done | by apply Hiff in Hc | by apply Hiff in Hc' |].
    f_equal. rewrite filter_cons.
    destruct (decide (d ∈ X)) as [Hin|Hin].
    + by rewrite decide_False by (by intros ?).
    + rewrite decide_True by done. by rewrite <- app_assoc.
  - destruct (add_day_overflow _ _ Hd Hadd) as [-> ->].
    pose proof (date_le_antisym _ _ Hle (valid_le_max _ He)) as <-.
    by rewrite decide_True.
  - by destruct (add_day_not_blocked d).
Qed.

Lemma valid_not_max d e :
  valid_date d = true -> date_le d e = true -> valid_date e = true ->
  e <> date_max -> d <> date_max.
Proof.
  intros Hd Hle He Hne ->. apply Hne.
  symmetry. eapply date_le_antisym; [done|]. by apply valid_le_max.
Qed.

Lemma missing_days_spec (X : gset date) s e :
  valid_date s = true -> valid_date e = true -> e <> date_max ->
  missing_days X s e = Returned (filter (.∉ X) (date_range s e)).
Proof.
  intros Hs He Hne. unfold missing_days.
  rewrite missing_loop_spec; [|done..| unfold loop_fuel; lia | apply loop_fuel_enough].
  rewrite decide_False by (by intros [? _]). done.
Qed.

Lemma missing_days_cases (X : gset date) s e :
  valid_date s = true -> valid_date e = true ->
  missing_days X s e = Raised OverflowError \/
  missing_days X s e = Returned (filter (.∉ X) (date_range s e)).
Proof.
  intros Hs He. unfold missing_days.
  rewrite missing_loop_spec; [|done..| unfold loop_fuel; lia | apply loop_fuel_enough].
  case_decide; [by left | by right].
Qed.

(** ** Running computations of the I/O monad *)

Ltac io_unfold :=
  unfold mbind, io_mbind, io_bind, mret, io_mret, io_ret, emit, get_fs,
    put_fs, raise, block, lift, try_except in *.

Lemma run_bind {A B} (c : io A) (k : A -> io B) fs :
  (c ≫= k) fs =
  match c fs with
  | (Returned a, fs1, t1) => let '(r, fs2, t2) := k a fs1 in (r, fs2, t1 ++ t2)
  | (Raised e, fs1, t1) => (Raised e, fs1, t1)
  | (Blocked, fs1, t1) => (Blocked, fs1, t1)
  end.
Proof. reflexivity. Qed.

(** ** The cache scan *)

Lemma listdir_spec fs dir n : n ∈ listdir fs dir <-> is_present fs dir n = true.
Proof.
  unfold listdir, is_present, lookup_file. destruct (fs !! dir) as [m|].
  - rewrite elem_of_elements, elem_of_dom. destruct (m !! n); split; try done.
  - split; [by intros ?%elem_of_nil | done].
Qed.

Lemma fold_scan_spec prefix names : forall (X : gset date) d,
  d ∈ fold_left (scan_file prefix) names X <->
  d ∈ X \/ exists n g, n ∈ names /\ pattern_match prefix n = Some g /\ strptime g = Some d.
Proof.
  induction names as [|n names IH]; intros X d; cbn [fold_left].
  { split; [by left|]. intros [?|(n & g & []%elem_of_nil & _)]; done. }
  rewrite IH. unfold scan_file at 1. split.
  - intros [Hd | (n' & g & Hn' & Hp & Hs)].
    + destruct (pattern_match prefix n) as [g|] eqn:Hp; [|by left].
      destruct (strptime g) as [d0|] eqn:Hs; [|by left].
      apply elem_of_union in Hd as [->%elem_of_singleton | ?]; [|by left].
      right. exists n, g. split; [left|]; done.
    + right. exists n', g. split; [by right|done].
  - intros [Hd | (n' & g & Hn' & Hp & Hs)].
    + left. destruct (pattern_match prefix n) as [g|]; [|done].
      destruct (strptime g); [|done]. apply elem_of_union. by right.
    + apply elem_of_cons in Hn' as [-> | Hn'].
      * left. rewrite Hp, Hs. apply elem_of_union. left.
        by apply elem_of_singleton.
      * right. by exists n', g.
Qed.

Lemma get_existing_dates_run dir dt itv sym fs :
  String.eqb dt "klines" && negb (truthy itv) = false ->
  get_existing_dates dir dt itv sym fs =
  (Returned (existing_in fs dir dt itv sym), fs,
   [EGlob dir (name_prefix dt itv sym +:+ "*.csv")]).
Proof. intros H. unfold get_existing_dates. rewrite H. reflexivity. Qed.

Lemma plain_prefix dt itv sym :
  plain sym = true -> plain (fmt_opt itv) = true ->
  plain (name_prefix dt itv sym) = true.
Proof.
  intros Hs Hi. unfold name_prefix. case_match; rewrite !plain_app, ?Hs, ?Hi; done.
Qed.

(** The scan counts a date exactly when some entry's name is read as
    it. *)
Lemma existing_in_spec fs dir dt itv sym d :
  plain (name_prefix dt itv sym) = true ->
  d ∈ existing_in fs dir dt itv sym <->
  exists name, is_present fs dir name = true /\
               read_as (name_prefix dt itv sym) name d.
Proof.
  intros Hp. unfold existing_in. rewrite fold_scan_spec. split.
  - intros [[]%elem_of_empty | (n & g & Hn & Hpat & Hs)].
    apply list_elem_of_In, filter_In in Hn as [Hn Hglob].
    apply list_elem_of_In, listdir_spec in Hn.
    exists n. split; [done|]. by eapply detected_read_as.
  - intros (n & Hn & Hr). right.
    destruct (read_as_detected _ _ _ Hp Hr) as [Hglob (g & Hpat & Hs)].
    exists n, g. split; [|done].
    apply list_elem_of_In, filter_In. split; [|done].
    by apply list_elem_of_In, listdir_spec.
Qed.

Lemma csv_name_isoformat dt itv sym d :
  1000 <= year d ->
  csv_name dt itv sym d = name_prefix dt itv sym +:+ isoformat d +:+ ".csv".
Proof. intros Hy. unfold csv_name. by rewrite strftime_isoformat. Qed.

Lemma existing_in_isoformat fs dir dt itv sym d :
  plain (name_prefix dt itv sym) = true -> valid_date d = true ->
  is_present fs dir (name_prefix dt itv sym +:+ isoformat d +:+ ".csv") = true ->
  d ∈ existing_in fs dir dt itv sym.
Proof.
  intros Hp Hd Hin. apply existing_in_spec; [done|].
  eexists. split; [exact Hin|]. by apply isoformat_read_as.
Qed.

Lemma existing_in_artifact fs dir dt itv sym d :
  plain (name_prefix dt itv sym) = true -> valid_date d = true ->
  1000 <= year d ->
  is_present fs dir (csv_name dt itv sym d) = true ->
  d ∈ existing_in fs dir dt itv sym.
Proof.
  intros Hp Hd Hy Hin. rewrite csv_name_isoformat in Hin by done.
  by apply existing_in_isoformat.
Qed.

Lemma existing_in_valid fs dir dt itv sym d :
  plain (name_prefix dt itv sym) = true ->
  d ∈ existing_in fs dir dt itv sym -> valid_date d = true.
Proof.
  intros Hp (n & _ & g & _ & _ & Hs)%existing_in_spec; [|done].
  by eapply strptime_valid.
Qed.

Lemma ascii_only_app a b : ascii_only (a +:+ b) = ascii_only a && ascii_only b.
Proof. unfold ascii_only. by rewrite list_ascii_of_string_app, forallb_app. Qed.

(** In a directory whose names are ASCII the scan counts a date exactly
    when its zero-padded name is there. *)
Lemma existing_in_ascii fs dir dt itv sym d :
  plain (name_prefix dt itv sym) = true ->
  (forall name, is_present fs dir name = true -> ascii_only name = true) ->
  d ∈ existing_in fs dir dt itv sym <->
  valid_date d = true /\
  is_present fs dir (name_prefix dt itv sym +:+ isoformat d +:+ ".csv") = true.
Proof.
  intros Hp Hascii. split.
  - intros Hd. split; [by eapply existing_in_valid|].
    apply existing_in_spec in Hd as (n & Hn & g & -> & Hg & Hs); [|done].
    pose proof (Hascii _ Hn) as Ha.
    rewrite !ascii_only_app in Ha.
    apply andb_true_iff in Ha as [_ [Ha _]%andb_true_iff].
    by rewrite <- (ascii_date_isoformat g d Ha Hg Hs).
  - intros [Hd Hin]. by apply existing_in_isoformat.
Qed.

(** ** One attempt of a fetch *)

Lemma attempt_once_spec net url dir name k fs :
  exists b fs' tr,
    attempt_once net url dir name k fs = (Returned b, fs', tr) /\
    net_view tr = [EGet url] /\
    attempt_outcome fs dir name (net url k) b fs'.
Proof.
  unfold attempt_once, fetch_once, save_member. io_unfold.
  destruct (net url k) as [|status content] eqn:Hnet; cbn.
  { eexists _, _, _. split; [reflexivity|]. split; [done|constructor]. }
  destruct (status =? 200) eqn:Hst; cbn.
  2:{ eexists _, _, _. split; [reflexivity|]. split; [done|constructor]. }
  destruct content as [| |members]; cbn;
    try (eexists _, _, _; split; [reflexivity|]; split; [done|constructor]).
  destruct members as [|[csv p0] rest]; cbn.
  { eexists _, _, _. split; [reflexivity|]. split; [done|constructor]. }
  destruct (getinfo csv ((csv, p0) :: rest)) as [[| |bytes]|] eqn:Hinfo; cbn;
    try (eexists _, _, _; split; [reflexivity|]; split; [done|constructor]).
  - destruct (fs !! dir) as [m|] eqn:Hdir; cbn;
      [|eexists _, _, _; split; [reflexivity|]; split; [done|constructor]].
    assert (read_fails (Response status (Zip ((csv, p0) :: rest))) = true) as Hrf.
    { cbv beta iota delta [read_fails]. by rewrite Hst, Hinfo. }
    destruct (m !! name) as [[data|]|] eqn:Hname; cbn;
      eexists _, _, _; (split; [reflexivity|]); (split; [done|]).
    + apply attempt_truncated; [done | by rewrite Hname | done].
    + apply attempt_untouched.
    + apply attempt_truncated; [done | by rewrite Hname | done].
  - destruct (fs !! dir) as [m|] eqn:Hdir; cbn;
      [|eexists _, _, _; split; [reflexivity|]; split; [done|constructor]].
    assert (payload (Response status (Zip ((csv, p0) :: rest))) = Some bytes) as Hpl.
    { cbv beta iota delta [payload]. by rewrite Hst, Hinfo. }
    destruct (m !! name) as [[data|]|] eqn:Hname; cbn;
      eexists _, _, _; (split; [reflexivity|]); (split; [done|]).
    + apply attempt_saved; [done | by rewrite Hname | done].
    + apply attempt_untouched.
    + apply attempt_saved; [done | by rewrite Hname | done].
Qed.

Lemma attempt_outcome_frame fs dir name r b fs' d' n' :
  attempt_outcome fs dir name r b fs' ->
  (d', n') <> (dir, name) ->
  lookup_file fs' d' n' = lookup_file fs d' n'.
Proof.
  intros Ho Hne. unfold lookup_file.
  destruct Ho as [|m Hm _ _|m bytes Hm _ _]; [done|..];
    (destruct (decide (d' = dir)) as [->|];
     [rewrite lookup_insert_eq, Hm, lookup_insert_ne; [done|congruence]
     |by rewrite lookup_insert_ne]).
Qed.

Lemma attempt_outcome_dir fs dir name r b fs' m :
  attempt_outcome fs dir name r b fs' ->
  fs !! dir = Some m -> m !! name <> Some Dir ->
  exists m', fs' !! dir = Some m' /\ m' !! name <> Some Dir.
Proof.
  intros Ho Hm Hn. destruct Ho as [|m0 Hm0 _ _|m0 bytes Hm0 _ _]; [eauto|..];
    (eexists; split; [apply lookup_insert_eq | by rewrite lookup_insert_eq]).
Qed.

Lemma transient_no_payload r : is_transient r = true -> payload r = None.
Proof.
  destruct r as [|status [| |[|[csv p] ms]]]; try done.
  cbv beta iota delta [is_transient payload].
  destruct (status =? 200) eqn:E; [|done].
  apply Z.eqb_eq in E as ->. cbn.
  destruct (getinfo _ _) as [[]|]; done.
Qed.

Lemma read_fails_no_payload r : read_fails r = true -> payload r = None.
Proof.
  destruct r as [|status [| |[|[csv p] ms]]]; try done.
  cbv beta iota delta [read_fails payload].
  destruct (status =? 200); [|done]. destruct (getinfo _ _) as [[]|]; done.
Qed.

Lemma net_view_app t1 t2 : net_view (t1 ++ t2) = net_view t1 ++ net_view t2.
Proof. apply List.filter_app. Qed.

Lemma requests_app t1 t2 : requests (t1 ++ t2) = requests t1 ++ requests t2.
Proof. apply List.filter_app. Qed.

Lemma requests_net_view t : requests (net_view t) = requests t.
Proof.
  unfold requests, net_view. induction t as [|e t IH]; [done|].
  destruct e; cbn; rewrite IH; done.
Qed.

(** ** The retry loop *)

Lemma attempts_from_S net url dir name k n fs :
  attempts_from net url dir name k (S n) fs =
  match attempt_once net url dir name k fs with
  | (Returned true, fs1, t1) => (Returned true, fs1, t1 ++ [])
  | (Returned false, fs1, t1) =>
      let '(r, fs2, t2) := attempts_from net url dir name (k + 1) n fs1 in
      (r, fs2, t1 ++ ESleep 1 :: t2)
  | (Raised e, fs1, t1) => (Raised e, fs1, t1)
  | (Blocked, fs1, t1) => (Blocked, fs1, t1)
  end.
Proof.
  cbn [attempts_from]. rewrite run_bind. fold (attempt_once net url dir name k).
  destruct (attempt_once net url dir name k fs) as [[[[]| |] fs1] t1]; try done.
  rewrite run_bind. cbn.
  by destruct (attempts_from net url dir name (k + 1) n fs1) as [[r fs2] t2].
Qed.

Lemma attempts_from_spec net url dir name n : forall k fs,
  exists b fs' tr,
    attempts_from net url dir name k n fs = (Returned b, fs', tr) /\
    (forall d' n', (d', n') <> (dir, name) ->
                   lookup_file fs' d' n' = lookup_file fs d' n') /\
    (b = true -> exists j bytes,
        k <= j < k + Z.of_nat n /\ payload (net url j) = Some bytes /\
        lookup_file fs' dir name = Some (File bytes)) /\
    (length (requests tr) <= n)%nat /\
    (b = false -> net_view tr = concat (replicate n [EGet url; ESleep 1])).
Proof.
  induction n as [|n IH]; intros k fs.
  { exists false, fs, []. repeat split; try done. }
  rewrite attempts_from_S.
  destruct (attempt_once_spec net url dir name k fs) as (b & fs1 & t1 & -> & Hv & Ho).
  destruct b.
  - exists true, fs1, (t1 ++ []). split; [done|]. rewrite app_nil_r.
    split; [intros; by eapply attempt_outcome_frame|].
    split.
    + intros _. inversion Ho as [| |m bytes Hm Hn Hp]; subst.
      exists k, bytes. split; [lia|]. split; [done|].
      unfold lookup_file. by rewrite !lookup_insert_eq.
    + rewrite <- requests_net_view, Hv. cbn. split; [lia|done].
  - destruct (IH (k + 1) fs1) as (b & fs2 & t2 & -> & Hfr & Hok & Hlen & Hnv).
    exists b, fs2, (t1 ++ ESleep 1 :: t2). split; [done|].
    split.
    { intros d' n' Hne. rewrite Hfr by done. by eapply attempt_outcome_frame. }
    split.
    { intros Hb. destruct (Hok Hb) as (j & bytes & Hj & Hp & Hl).
      exists j, bytes. split; [lia|done]. }
    split.
    { rewrite requests_app, <- (requests_net_view t1), Hv.
      change (requests [EGet url]) with [EGet url].
      change (requests (ESleep 1 :: t2)) with (requests t2).
      cbn [app length]. lia. }
    intros Hb. rewrite net_view_app, Hv.
    change (net_view (ESleep 1 :: t2)) with (ESleep 1 :: net_view t2).
    by rewrite Hnv.
Qed.

(** A loop that returns [True] has stopped at its last attempt: the
    attempts before it failed and were each followed by a pause, and the
    destination holds the payload of that attempt. *)
Lemma attempts_from_true net url dir name n : forall k fs fs' tr,
  attempts_from net url dir name k n fs = (Returned true, fs', tr) ->
  exists j bytes,
    k <= j < k + Z.of_nat n /\ payload (net url j) = Some bytes /\
    lookup_file fs' dir name = Some (File bytes) /\
    net_view tr
    = concat (replicate (Z.to_nat (j - k)) [EGet url; ESleep 1]) ++ [EGet url].
Proof.
  induction n as [|n IH]; intros k fs fs' tr H; [done|].
  rewrite attempts_from_S in H.
  destruct (attempt_once_spec net url dir name k fs) as (b & fs1 & t1 & Hrun & Hv & Ho).
  rewrite Hrun in H. destruct b.
  - injection H as <- <-. inversion Ho as [| |m bytes Hm Hn Hp]; subst.
    exists k, bytes. split; [lia|]. split; [done|]. split.
    + unfold lookup_file. by rewrite !lookup_insert_eq.
    + rewrite app_nil_r, Hv, Z.sub_diag. reflexivity.
  - destruct (attempts_from net url dir name (k + 1) n fs1) as [[r fs2] t2] eqn:E.
    injection H as -> <- <-.
    destruct (IH _ _ _ _ E) as (j & bytes & Hj & Hp & Hl & Hnv).
    exists j, bytes. split; [lia|]. split; [done|]. split; [done|].
    rewrite net_view_app, Hv.
    change (net_view (ESleep 1 :: t2)) with (ESleep 1 :: net_view t2).
    rewrite Hnv. replace (Z.to_nat (j - k)) with (S (Z.to_nat (j - (k + 1)))) by lia.
    reflexivity.
Qed.

Lemma attempts_from_transient net url dir name n : forall k fs,
  (forall j, k <= j < k + Z.of_nat n -> is_transient (net url j) = true) ->
  exists fs' tr,
    attempts_from net url dir name k n fs = (Returned false, fs', tr) /\
    net_view tr = concat (replicate n [EGet url; ESleep 1]) /\
    length (requests tr) = n.
Proof.
  induction n as [|n IH]; intros k fs Htr.
  { by exists fs, []. }
  rewrite attempts_from_S.
  destruct (attempt_once_spec net url dir name k fs) as (b & fs1 & t1 & -> & Hv & Ho).
  assert (b = false) as ->.
  { destruct Ho as [| |m bytes _ _ Hp]; try done.
    rewrite transient_no_payload in Hp; [done|]. apply Htr. lia. }
  destruct (IH (k + 1) fs1) as (fs2 & t2 & -> & Hnv & Hlen).
  { intros j Hj. apply Htr. lia. }
  exists fs2, (t1 ++ ESleep 1 :: t2). split; [done|].
  rewrite net_view_app, requests_app, <- (requests_net_view t1), Hv.
  change (requests [EGet url]) with [EGet url].
  change (requests (ESleep 1 :: t2)) with (requests t2).
  change (net_view (ESleep 1 :: t2)) with (ESleep 1 :: net_view t2).
  cbn [app length]. rewrite Hnv, Hlen. done.
Qed.

Lemma attempts_from_read_fails net url dir name n : forall k fs m,
  fs !! dir = Some m -> m !! name <> Some Dir -> (0 < n)%nat ->
  (forall j, k <= j < k + Z.of_nat n -> read_fails (net url j) = true) ->
  exists fs' tr,
    attempts_from net url dir name k n fs = (Returned false, fs', tr) /\
    lookup_file fs' dir name = Some (File "").
Proof.
  induction n as [|n IH]; intros k fs m Hm Hn Hpos Hrf; [lia|].
  rewrite attempts_from_S.
  assert (Hk : read_fails (net url k) = true) by (apply Hrf; lia).
  unfold attempt_once, fetch_once, save_member. io_unfold.
  destruct (net url k) as [|status [| |[|[csv p] ms]]]; try done.
  cbv beta iota delta [read_fails] in Hk.
  apply andb_true_iff in Hk as [Hst Hinfo]. rewrite Hst. cbn.
  destruct (getinfo csv ((csv, p) :: ms)) as [[]|]; try done. cbn.
  rewrite Hm. cbn.
  set (fs1 := <[dir := <[name := File ""]> m]> fs).
  assert (exists fs' tr,
    attempts_from net url dir name (k + 1) n fs1 = (Returned false, fs', tr) /\
    lookup_file fs' dir name = Some (File "")) as (fs' & tr & Hrun & Hl).
  { destruct n as [|n].
    - exists fs1, []. split; [done|]. unfold lookup_file, fs1.
      by rewrite !lookup_insert_eq.
    - apply (IH (k + 1) fs1 (<[name := File ""]> m)).
      + apply lookup_insert_eq.
      + by rewrite lookup_insert_eq.
      + lia.
      + intros j Hj. apply Hrf. lia. }
  destruct (m !! name) as [[]|] eqn:E; try done; cbn; fold fs1; rewrite Hrun; eauto.
Qed.

Lemma gather_returns net dir tasks : forall fs,
  exists oks fs' tr,
    gather net dir tasks fs = (Returned oks, fs', tr) /\
    length oks = length tasks.
Proof.
  induction tasks as [|[url out] tasks IH]; intros fs.
  { by exists [], fs, []. }
  cbn [gather]. rewrite run_bind. unfold download_and_save_csv.
  destruct (attempts_from_spec net url dir out (Z.to_nat default_retries) 1 fs)
    as (b & fs1 & t1 & -> & _).
  rewrite run_bind.
  destruct (IH fs1) as (oks & fs2 & t2 & -> & Hlen).
  eexists _, _, _. split; [reflexivity|]. cbn. by rewrite Hlen.
Qed.

(** * The properties of the design document *)

(** C10: a call of [download_binance_data] whose [data_type] is neither
    ['klines'] nor ['bookTicker'], or is ['klines'] with no interval, raises
    [ValueError] with the file system untouched and an empty trace, that is
    before any file-system or network action; [get_existing_dates] likewise
    raises [ValueError] when asked for klines without an interval. *)
Theorem invalid_request_raises_before_io net a fs :
  String.eqb (data_type a) "klines" || String.eqb (data_type a) "bookTicker" = false
  \/ (data_type a = "klines" /\ truthy (interval a) = false) ->
  (exists msg, download_binance_data net a fs = (Raised (ValueError msg), fs, [])) /\
  (forall dir sym itv, truthy itv = false ->
     exists msg, get_existing_dates dir "klines" itv sym fs
                 = (Raised (ValueError msg), fs, [])).
Proof.
  intros H. split.
  - unfold download_binance_data. destruct H as [-> | [Hk Hi]]; [by eexists|].
    rewrite Hk, Hi. by eexists.
  - intros dir sym itv Hi. unfold get_existing_dates. rewrite Hi. by eexists.
Qed.

Lemma invalid_request_raises_before_io_witness :
  (exists msg,
      download_binance_data net_down
        (Request "BTCUSDT" "2024-01-01" "2024-01-02" binance_url "futures"
           "um" "daily" "trades" None ["data"] 10) fs_one_day
      = (Raised (ValueError msg), fs_one_day, [])) /\
  (forall dir sym itv, truthy itv = false ->
     exists msg, get_existing_dates dir "klines" itv sym fs_one_day
                 = (Raised (ValueError msg), fs_one_day, [])).
Proof.
  apply invalid_request_raises_before_io. left. reflexivity.
Defined.

(** C5: when every attempt of a fetch meets a transient failure, the fetcher
    makes exactly [retries] requests, pauses one second after each, and
    returns [False] without raising; [gather] runs every task to an outcome
    whatever the others do, with the default of three attempts each. *)
Theorem fetch_gives_up_after_retries net url dir name retries fs :
  (forall k, 1 <= k <= retries -> is_transient (net url k) = true) ->
  (exists fs' tr,
     download_and_save_csv net url dir name retries fs
       = (Returned false, fs', tr) /\
     net_view tr = concat (replicate (Z.to_nat retries) [EGet url; ESleep 1]) /\
     length (requests tr) = Z.to_nat retries) /\
  default_retries = 3 /\
  (forall tasks fs0, exists oks fs1 tr1,
     gather net dir tasks fs0 = (Returned oks, fs1, tr1) /\
     length oks = length tasks).
Proof.
  intros Htr. split; [|split; [done|]].
  - unfold download_and_save_csv. apply attempts_from_transient.
    intros j Hj. apply Htr. lia.
  - intros tasks fs0. apply gather_returns.
Qed.

Lemma fetch_gives_up_after_retries_witness :
  (exists fs' tr,
     download_and_save_csv net_down "u" demo_dir "f.csv" 3 fs_empty_dir
       = (Returned false, fs', tr) /\
     net_view tr = concat (replicate (Z.to_nat 3) [EGet "u"; ESleep 1]) /\
     length (requests tr) = Z.to_nat 3) /\
  default_retries = 3 /\
  (forall tasks fs0, exists oks fs1 tr1,
     gather net_down demo_dir tasks fs0 = (Returned oks, fs1, tr1) /\
     length oks = length tasks).
Proof.
  apply fetch_gives_up_after_retries. intros k Hk. reflexivity.
Defined.

(** C2, as the code has it: a fetch writes into the destination itself and
    into no other path.  A fetch that returns [True] has stopped at the
    attempt that succeeded, its [k]-th: the trace shows [k - 1] requests
    each followed by a pause and then the [k]-th request, and the
    destination holds the complete payload of that attempt.  A fetch whose
    archive member fails while it is read leaves the destination as an
    empty file. *)
Theorem fetch_writes_destination_in_place net url dir name retries fs :
  exists b fs' tr,
    download_and_save_csv net url dir name retries fs = (Returned b, fs', tr) /\
    (forall d' n', (d', n') <> (dir, name) ->
                   lookup_file fs' d' n' = lookup_file fs d' n') /\
    (b = true -> exists k bytes,
        1 <= k <= retries /\ payload (net url k) = Some bytes /\
        lookup_file fs' dir name = Some (File bytes) /\
        net_view tr
        = concat (replicate (Z.to_nat (k - 1)) [EGet url; ESleep 1])
          ++ [EGet url]) /\
    (forall m, fs !! dir = Some m -> m !! name <> Some Dir -> 1 <= retries ->
       (forall k, 1 <= k <= retries -> read_fails (net url k) = true) ->
       b = false /\ lookup_file fs' dir name = Some (File "")).
Proof.
  unfold download_and_save_csv.
  destruct (attempts_from_spec net url dir name (Z.to_nat retries) 1 fs)
    as (b & fs' & tr & Hrun & Hfr & _).
  exists b, fs', tr. split; [done|]. split; [done|]. split.
  - intros ->.
    destruct (attempts_from_true _ _ _ _ _ _ _ _ _ Hrun)
      as (k & bytes & Hk & Hp & Hl & Hnv).
    exists k, bytes. split; [lia|done].
  - intros m Hm Hn Hpos Hrf.
    destruct (attempts_from_read_fails net url dir name (Z.to_nat retries) 1 fs m)
      as (fs2 & tr2 & Hrun2 & Hl); [done|done|lia| |].
    { intros j Hj. apply Hrf. lia. }
    rewrite Hrun in Hrun2. by simplify_eq.
Qed.

(** C2, counterexample: against a server whose archives cannot be inflated
    the fetch gives up, no payload was ever delivered, and yet the
    destination, absent before, now holds a file, of zero bytes. *)
Lemma aborted_fetch_leaves_empty_file :
  let o := download_and_save_csv net_corrupt "u" demo_dir
             "BTCUSDT-1h-2024-01-01.csv" 3 fs_empty_dir in
  lookup_file fs_empty_dir demo_dir "BTCUSDT-1h-2024-01-01.csv" = None /\
  res_of o = Returned false /\
  (forall k, payload (net_corrupt "u" k) = None) /\
  lookup_file (fs_of o) demo_dir "BTCUSDT-1h-2024-01-01.csv" = Some (File "").
Proof. repeat split; vm_compute; reflexivity. Qed.

(** ** The acquisition run *)

Lemma StronglySorted_filter {A} (R : relation A) (P : A -> Prop)
    `{!forall x, Decision (P x)} l :
  StronglySorted R l -> StronglySorted R (filter P l).
Proof.
  induction 1 as [|x l Hs IH Hall]; [constructor|].
  rewrite filter_cons. case_decide; [|done].
  constructor; [done|]. apply Forall_forall. intros y [_ Hy]%list_elem_of_filter.
  by eapply Forall_forall in Hall.
Qed.

Lemma lookup_file_mkdir dir fs d n :
  lookup_file (mkdir_fs dir fs) d n = lookup_file fs d n.
Proof.
  unfold mkdir_fs, lookup_file. destruct (fs !! dir) eqn:E; [done|].
  destruct (decide (d = dir)) as [->|].
  - by rewrite lookup_insert_eq, E.
  - by rewrite lookup_insert_ne.
Qed.

Lemma listdir_mkdir dir fs d : listdir (mkdir_fs dir fs) d = listdir fs d.
Proof.
  unfold mkdir_fs, listdir. destruct (fs !! dir) eqn:E; [done|].
  destruct (decide (d = dir)) as [->|].
  - by rewrite lookup_insert_eq, E.
  - by rewrite lookup_insert_ne.
Qed.

Lemma is_present_mkdir dir fs d n :
  is_present (mkdir_fs dir fs) d n = is_present fs d n.
Proof. unfold is_present. by rewrite lookup_file_mkdir. Qed.

Lemma existing_in_mkdir dir fs d dt itv sym :
  existing_in (mkdir_fs dir fs) d dt itv sym = existing_in fs d dt itv sym.
Proof. unfold existing_in. by rewrite listdir_mkdir. Qed.

Lemma mkdir_run dir fs : mkdir dir fs = (Returned tt, mkdir_fs dir fs, [EMkdir dir]).
Proof. unfold mkdir, mkdir_fs. io_unfold. by destruct (fs !! dir). Qed.

Lemma schedule_spec a : forall missing tasks fs,
  schedule a missing tasks fs =
  (Returned (tasks ++ List.map (task_of a) (List.filter (artifact_missing fs a) missing)),
   fs,
   List.map (fun d => EExists (local_path_of a)
                        (csv_name (data_type a) (interval a) (symbol a) d)) missing).
Proof.
  induction missing as [|d missing IH]; intros tasks fs.
  { cbn. by rewrite app_nil_r. }
  cbn [schedule List.map List.filter]. unfold artifact_missing at 1, is_present.
  io_unfold.
  destruct (lookup_file fs (local_path_of a) _) eqn:E; cbn; rewrite IH; cbn.
  - done.
  - by rewrite <- app_assoc.
Qed.

Lemma request_ok_spec a :
  request_ok a = true ->
  String.eqb (data_type a) "klines" || String.eqb (data_type a) "bookTicker" = true /\
  String.eqb (data_type a) "klines" && negb (truthy (interval a)) = false.
Proof.
  unfold request_ok. intros [H1 H2]%andb_true_iff.
  by apply negb_true_iff in H2.
Qed.

(** The run up to the scheduling of the tasks. *)
Lemma download_run net a fs s e :
  request_ok a = true ->
  strptime (start_date a) = Some s -> strptime (end_date a) = Some e ->
  let dir := local_path_of a in
  let fs1 := mkdir_fs dir fs in
  let pre := [EMkdir dir;
              EGlob dir (name_prefix (data_type a) (interval a) (symbol a) +:+ "*.csv")] in
  download_binance_data net a fs =
  match missing_days (existing_in fs dir (data_type a) (interval a) (symbol a)) s e with
  | Returned [] => (Returned tt, fs1, pre)
  | Returned missing =>
      if max_concurrent_downloads a <? 0 then
        (Raised (ValueError "Semaphore initial value must be >= 0"), fs1, pre)
      else
        let probes := List.map (fun d => EExists dir
                        (csv_name (data_type a) (interval a) (symbol a) d)) missing in
        match List.map (task_of a) (List.filter (artifact_missing fs a) missing) with
        | [] => (Returned tt, fs1, pre ++ probes)
        | tasks =>
            if max_concurrent_downloads a =? 0 then (Blocked, fs1, pre ++ probes)
            else
              let '(r, fs2, t2) := gather net dir tasks fs1 in
              (match r with
               | Returned _ => Returned tt
               | Raised err => Raised err
               | Blocked => Blocked
               end, fs2, pre ++ probes ++ t2)
        end
  | Raised err => (Raised err, fs1, pre)
  | Blocked => (Blocked, fs1, pre)
  end.
Proof.
  intros [Hdt Hitv]%request_ok_spec Hs He dir fs1 pre.
  unfold download_binance_data. rewrite Hdt, Hitv. cbn [negb].
  unfold parse_date. rewrite Hs, He. fold dir.
  unfold mbind, io_mbind, io_bind, mret, io_mret, io_ret, lift, raise, block.
  rewrite mkdir_run. subst fs1 pre.
  rewrite get_existing_dates_run by done.
  rewrite existing_in_mkdir.
  destruct (missing_days _ s e) as [[|d0 missing]| |]; try done.
  destruct (max_concurrent_downloads a <? 0); [done|].
  rewrite schedule_spec. cbn [app].
  assert (forall l, List.filter (artifact_missing (mkdir_fs dir fs) a) l
                    = List.filter (artifact_missing fs a) l) as ->.
  { intros l. apply filter_ext. intros d. unfold artifact_missing.
    by rewrite is_present_mkdir. }
  destruct (List.map (task_of a) _) as [|t ts]; [by rewrite app_nil_r|].
  destruct (max_concurrent_downloads a =? 0); [by rewrite app_nil_r|].
  destruct (gather net dir (t :: ts) (mkdir_fs dir fs)) as [[[]] t2];
    cbn; by rewrite ?app_nil_r.
Qed.
(** C4, as the code has it: the cache scan decides by names alone.  It
    counts a date as present exactly when the directory has an entry whose
    name is read as that date (the prefix, a text of the shape
    [\d{4}-\d{2}-\d{2}] that [strptime] parses to the date, and [.csv]);
    the bytes of the entry play no part.  From the year 1000 on an entry
    under the artifact name of a date makes the date present; and in a
    directory whose names are ASCII a date is present exactly when there is
    an entry under its zero-padded name, which from the year 1000 on is
    the artifact name.  Below the year 1000 the artifact name, whose year
    [strftime] does not pad, is read as no date. *)
Theorem cache_scan_is_name_based fs dir dt itv sym :
  plain (name_prefix dt itv sym) = true ->
  String.eqb dt "klines" && negb (truthy itv) = false ->
  exists X tr,
    get_existing_dates dir dt itv sym fs = (Returned X, fs, tr) /\
    (forall d, d ∈ X <->
       exists name entry, lookup_file fs dir name = Some entry /\
                          read_as (name_prefix dt itv sym) name d) /\
    (forall d entry, valid_date d = true -> 1000 <= year d ->
       lookup_file fs dir (csv_name dt itv sym d) = Some entry -> d ∈ X) /\
    ((forall name entry, lookup_file fs dir name = Some entry ->
                         ascii_only name = true) ->
     forall d, d ∈ X <->
       valid_date d = true /\
       exists entry,
         lookup_file fs dir (name_prefix dt itv sym +:+ isoformat d +:+ ".csv")
         = Some entry) /\
    (forall d, 1000 <= year d ->
       csv_name dt itv sym d = name_prefix dt itv sym +:+ isoformat d +:+ ".csv") /\
    (forall d x, valid_date d = true -> year d < 1000 ->
       ~ read_as (name_prefix dt itv sym) (csv_name dt itv sym d) x).
Proof.
  intros Hp Hok. eexists _, _. split; [by apply get_existing_dates_run|].
  split; [|split; [|split; [|split; [by apply csv_name_isoformat|]]]];
    [| | |intros d x Hd Hy; by apply short_year_not_read].
  - intros d. rewrite existing_in_spec by done. unfold is_present. split.
    + intros (n & Hn & Hr). destruct (lookup_file fs dir n) as [en|] eqn:E; [|done].
      by exists n, en.
    + intros (n & en & Hn & Hr). exists n. by rewrite Hn.
  - intros d en Hd Hy Hl. apply existing_in_artifact; [done..|].
    unfold is_present. by rewrite Hl.
  - intros Hascii d. rewrite existing_in_ascii; [|done|].
    + unfold is_present. destruct (lookup_file _ _ _) as [en|]; split;
        intros [? ?]; split; try done; [by exists en | by destruct H0].
    + intros n Hn. unfold is_present in Hn.
      destruct (lookup_file fs dir n) as [en|] eqn:E; [|done]. by eapply Hascii.
Qed.

Lemma cache_scan_is_name_based_witness :
  exists X tr,
    get_existing_dates demo_dir "klines" (Some "1h") "BTCUSDT" fs_one_day
      = (Returned X, fs_one_day, tr) /\
    (forall d, d ∈ X <->
       exists name entry, lookup_file fs_one_day demo_dir name = Some entry /\
                          read_as (name_prefix "klines" (Some "1h") "BTCUSDT") name d) /\
    (forall d entry, valid_date d = true -> 1000 <= year d ->
       lookup_file fs_one_day demo_dir
         (csv_name "klines" (Some "1h") "BTCUSDT" d) = Some entry -> d ∈ X) /\
    ((forall name entry, lookup_file fs_one_day demo_dir name = Some entry ->
                         ascii_only name = true) ->
     forall d, d ∈ X <->
       valid_date d = true /\
       exists entry,
         lookup_file fs_one_day demo_dir
           (name_prefix "klines" (Some "1h") "BTCUSDT" +:+ isoformat d +:+ ".csv")
         = Some entry) /\
    (forall d, 1000 <= year d ->
       csv_name "klines" (Some "1h") "BTCUSDT" d
       = name_prefix "klines" (Some "1h") "BTCUSDT" +:+ isoformat d +:+ ".csv") /\
    (forall d x, valid_date d = true -> year d < 1000 ->
       ~ read_as (name_prefix "klines" (Some "1h") "BTCUSDT")
           (csv_name "klines" (Some "1h") "BTCUSDT" d) x).
Proof.
  apply cache_scan_is_name_based; reflexivity.
Defined.

(** C4, counterexample: a zero-byte file under the artifact name of
    2024-01-01 makes the scan report that date as present. *)
Lemma zero_byte_file_counts_as_present :
  lookup_file fs_zero_byte demo_dir "BTCUSDT-1h-2024-01-01.csv" = Some (File "") /\
  res_of (get_existing_dates demo_dir "klines" (Some "1h") "BTCUSDT" fs_zero_byte)
    = Returned {[ Date 2024 1 1 ]}.
Proof. split; vm_compute; reflexivity. Qed.

(** C8, as the code has it: the missing-days computation returns, in
    ascending order and without duplicates, exactly the calendar days of
    the inclusive range that no entry of the directory is read as; what an
    entry holds plays no part.  From the year 1000 on a returned day has no
    entry under its artifact name; and in a directory whose names are ASCII
    the returned days are exactly those with no entry under their
    zero-padded name. *)
Theorem missing_days_exact fs dir dt itv sym s e :
  plain (name_prefix dt itv sym) = true ->
  String.eqb dt "klines" && negb (truthy itv) = false ->
  valid_date s = true -> valid_date e = true -> e <> date_max ->
  exists X tr L,
    get_existing_dates dir dt itv sym fs = (Returned X, fs, tr) /\
    missing_days X s e = Returned L /\
    (forall d, d ∈ L <->
       valid_date d = true /\ date_le s d = true /\ date_le d e = true /\
       ~ exists name entry, lookup_file fs dir name = Some entry /\
                            read_as (name_prefix dt itv sym) name d) /\
    (forall d, d ∈ L -> 1000 <= year d ->
       lookup_file fs dir (csv_name dt itv sym d) = None) /\
    ((forall name entry, lookup_file fs dir name = Some entry ->
                         ascii_only name = true) ->
     forall d, d ∈ L <->
       valid_date d = true /\ date_le s d = true /\ date_le d e = true /\
       lookup_file fs dir (name_prefix dt itv sym +:+ isoformat d +:+ ".csv")
       = None) /\
    StronglySorted date_lt L.
Proof.
  intros Hp Hok Hs He Hmax.
  eexists _, _, _. split; [by apply get_existing_dates_run|].
  split; [by apply missing_days_spec|].
  assert (forall d, d ∈ filter (.∉ existing_in fs dir dt itv sym) (date_range s e)
            <-> (valid_date d = true /\ date_le s d = true /\ date_le d e = true)
                /\ d ∉ existing_in fs dir dt itv sym) as Hin.
  { intros d. rewrite list_elem_of_filter, date_range_spec by done. tauto. }
  split; [|split; [|split]].
  - intros d. rewrite Hin, existing_in_spec by done. unfold is_present. split.
    + intros [(Hv & H1 & H2) Hn]. repeat split; try done.
      intros (n & en & Hl & Hr). apply Hn. exists n. by rewrite Hl.
    + intros (Hv & H1 & H2 & Hn). split; [done|].
      intros (n & Hl & Hr). apply Hn.
      destruct (lookup_file fs dir n) as [en|] eqn:E; [|done]. by exists n, en.
  - intros d [(Hv & _) Hn]%Hin Hy.
    destruct (lookup_file fs dir (csv_name dt itv sym d)) as [en|] eqn:E; [|done].
    destruct Hn. apply existing_in_artifact; [done..|].
    unfold is_present. by rewrite E.
  - intros Hascii d. rewrite Hin, existing_in_ascii; [|done|].
    + unfold is_present. destruct (lookup_file _ _ _); split.
      * intros [(Hv & _) Hn]. by destruct Hn.
      * by intros (_ & _ & _ & ?).
      * intros [(Hv & H1 & H2) _]. done.
      * intros (Hv & H1 & H2 & _). split; [done|]. by intros [_ ?].
    + intros n Hn. unfold is_present in Hn.
      destruct (lookup_file fs dir n) as [en|] eqn:E; [|done]. by eapply Hascii.
  - apply StronglySorted_filter. by apply date_range_sorted.
Qed.

Lemma missing_days_exact_witness :
  exists X tr L,
    get_existing_dates demo_dir "klines" (Some "1h") "BTCUSDT" fs_one_day
      = (Returned X, fs_one_day, tr) /\
    missing_days X (Date 2024 1 1) (Date 2024 1 3) = Returned L /\
    (forall d, d ∈ L <->
       valid_date d = true /\ date_le (Date 2024 1 1) d = true /\
       date_le d (Date 2024 1 3) = true /\
       ~ exists name entry,
           lookup_file fs_one_day demo_dir name = Some entry /\
           read_as (name_prefix "klines" (Some "1h") "BTCUSDT") name d) /\
    (forall d, d ∈ L -> 1000 <= year d ->
       lookup_file fs_one_day demo_dir
         (csv_name "klines" (Some "1h") "BTCUSDT" d) = None) /\
    ((forall name entry, lookup_file fs_one_day demo_dir name = Some entry ->
                         ascii_only name = true) ->
     forall d, d ∈ L <->
       valid_date d = true /\ date_le (Date 2024 1 1) d = true /\
       date_le d (Date 2024 1 3) = true /\
       lookup_file fs_one_day demo_dir
         (name_prefix "klines" (Some "1h") "BTCUSDT" +:+ isoformat d +:+ ".csv")
       = None) /\
    StronglySorted date_lt L.
Proof.
  apply missing_days_exact; try reflexivity. vm_compute. discriminate.
Defined.

(** C8, counterexample: the cache holds a zero-byte file for 2024-01-01, no
    well-formed artifact, and the missing-days computation for that single
    day returns no date. *)
Lemma zero_byte_day_is_not_missing :
  lookup_file fs_zero_byte demo_dir
    (csv_name "klines" (Some "1h") "BTCUSDT" (Date 2024 1 1)) = Some (File "") /\
  missing_days (existing_in fs_zero_byte demo_dir "klines" (Some "1h") "BTCUSDT")
    (Date 2024 1 1) (Date 2024 1 1) = Returned [].
Proof. split; vm_compute; reflexivity. Qed.





(** ** The assembly loop *)

Section AssemblyFacts.

Variable read_csv : string -> exn + list row.

Lemma combine_loop_ext fuel (dir : list string) (sym itv : string) :
  forall (d e : date) (acc : list (list row)) (fs fs' : FS),
  (forall n, lookup_file fs dir n = lookup_file fs' dir n) ->
  exists r tr,
    combine_loop read_csv fuel dir sym itv d e acc fs = (r, fs, tr) /\
    combine_loop read_csv fuel dir sym itv d e acc fs' = (r, fs', tr) /\
    requests tr = [].
Proof.
  induction fuel as [|fuel IH]; intros d e acc fs fs' Hext.
  { by exists Blocked, []. }
  cbn [combine_loop]. destruct (date_le d e); [|by exists (Returned acc), []].
  unfold mbind, io_mbind, io_bind, mret, io_mret, io_ret, lift, raise, emit, get_fs.
  rewrite <- Hext.
  destruct (lookup_file fs dir _) as [[data|]|].
  - destruct (read_csv data) as [err|df]; [by eexists _, _|].
    destruct (add_day d) as [d'| |]; [|by eexists _, _..].
    destruct (IH d' e (acc ++ [df]) fs fs' Hext) as (r & tr & -> & -> & Hreq).
    eexists _, _. split; [reflexivity|]. split; [reflexivity|].
    rewrite !requests_app, Hreq. reflexivity.
  - by eexists _, _.
  - destruct (add_day d) as [d'| |]; [|by eexists _, _..].
    destruct (IH d' e acc fs fs' Hext) as (r & tr & -> & -> & Hreq).
    eexists _, _. split; [reflexivity|]. split; [reflexivity|].
    rewrite !requests_app, Hreq. reflexivity.
Qed.

Lemma combine_loop_spec fuel (dir : list string) (sym itv : string) :
  forall (d e : date) (acc : list (list row)) (fs : FS),
  valid_date d = true -> valid_date e = true -> e <> date_max ->
  (0 < fuel)%nat -> toordinal e - toordinal d + 2 <= Z.of_nat fuel ->
  res_of (combine_loop read_csv fuel dir sym itv d e acc fs) =
  match collect (List.map (fun x => load read_csv fs dir (klines_name sym itv x))
                          (days_from fuel d e)) with
  | inl err => Raised err
  | inr frames => Returned (acc ++ frames)
  end.
Proof.
  induction fuel as [|fuel IH]; intros d e acc fs Hd He Hmax Hpos Hfuel; [lia|].
  cbn [combine_loop days_from]. destruct (date_le d e) eqn:Hle.
  2:{ cbn. by rewrite app_nil_r. }
  pose proof (toordinal_le _ _ Hd He Hle) as Hord.
  destruct (add_day_returns d Hd) as [d' Hadd].
  { by eapply valid_not_max. }
  pose proof (add_day_valid _ _ Hd Hadd) as Hd'.
  pose proof (add_day_ordinal _ _ Hd Hadd) as Hord'.
  rewrite Hadd. cbn [List.map collect].
  unfold mbind, io_mbind, io_bind, mret, io_mret, io_ret, lift, raise, emit, get_fs.
  unfold load at 1. fold (klines_name sym itv d).
  destruct (lookup_file fs dir (klines_name sym itv d)) as [[data|]|].
  - destruct (read_csv data) as [err|df]; [done|].
    specialize (IH d' e (acc ++ [df]) fs Hd' He Hmax).
    destruct (combine_loop read_csv fuel dir sym itv d' e (acc ++ [df]) fs)
      as [[r fs2] t2]. unfold res_of in *. cbn in *.
    rewrite IH by lia. destruct (collect _); [done|]. by rewrite <- app_assoc.
  - done.
  - specialize (IH d' e acc fs Hd' He Hmax).
    destruct (combine_loop read_csv fuel dir sym itv d' e acc fs)
      as [[r fs2] t2]. unfold res_of in *. cbn in *.
    by rewrite IH by lia.
Qed.

Lemma combine_ext (data_dir : list string)
    (instr mkt tf dt sym itv sd ed : string) (fs fs' : FS) :
  (forall dir n, lookup_file fs dir n = lookup_file fs' dir n) ->
  exists r tr,
    combine read_csv data_dir instr mkt tf dt sym itv sd ed fs = (r, fs, tr) /\
    combine read_csv data_dir instr mkt tf dt sym itv sd ed fs' = (r, fs', tr) /\
    requests tr = [].
Proof.
  intros Hext. unfold combine, parse_date.
  unfold mbind, io_mbind, io_bind, mret, io_mret, io_ret, raise.
  destruct (strptime sd) as [s|]; [|by eexists _, _].
  destruct (strptime ed) as [e|]; [|by eexists _, _].
  destruct (combine_loop_ext (loop_fuel s e)
              (fold_left path_join [instr; mkt; tf; dt; sym; itv] data_dir)
              sym itv s e [] fs fs') as (r & tr & -> & -> & Hreq); [done|].
  destruct r as [[|df dfs]| |]; eexists _, _; (split; [reflexivity|]);
    (split; [reflexivity|]); cbn; by rewrite ?app_nil_r.
Qed.

Lemma combine_spec (data_dir : list string)
    (instr mkt tf dt sym itv sd ed : string) (s e : date) (fs : FS) :
  strptime sd = Some s -> strptime ed = Some e -> e <> date_max ->
  res_of (combine read_csv data_dir instr mkt tf dt sym itv sd ed fs) =
  match collect (List.map
                   (fun x => load read_csv fs
                               (klines_dir data_dir instr mkt tf dt sym itv)
                               (klines_name sym itv x))
                   (date_range s e)) with
  | inl err => Raised err
  | inr [] => Raised (ValueError "No data found, exiting.")
  | inr (df :: dfs) => Returned (concat (df :: dfs))
  end.
Proof.
  intros Hs He Hmax. unfold combine, parse_date. rewrite Hs, He.
  unfold mbind, io_mbind, io_bind, mret, io_mret, io_ret, raise.
  pose proof (combine_loop_spec (loop_fuel s e)
                (klines_dir data_dir instr mkt tf dt sym itv) sym itv s e [] fs
                (strptime_valid _ _ Hs) (strptime_valid _ _ He) Hmax) as Hloop.
  unfold klines_dir in *.
  destruct (combine_loop _ _ _ _ _ _ _ _ fs) as [[r fs2] t2].
  unfold res_of in *. cbn in Hloop. unfold date_range.
  rewrite Hloop by (unfold loop_fuel; lia).
  destruct (collect _) as [err|[|df dfs]]; done.
Qed.

End AssemblyFacts.

Lemma collect_ok loads :
  forallb (fun l => negb (load_failed l)) loads = true ->
  collect loads = inr (omap loaded_frame loads).
Proof.
  induction loads as [|[[err|df]|] loads IH]; cbn; [done|done| |];
    intros H; rewrite IH by done; done.
Qed.

Lemma collect_err loads :
  existsb load_failed loads = true -> exists err, collect loads = inl err.
Proof.
  induction loads as [|[[err|df]|] loads IH]; cbn; [done|by eexists| |];
    intros H; destruct (IH H) as [err' ->]; by eexists.
Qed.

(** The first day whose file cannot be read decides the error. *)
Lemma first_failed_load {A} (f : A -> option (exn + list row)) (l : list A) :
  existsb load_failed (List.map f l) = true ->
  exists k d err,
    l !! k = Some d /\ f d = Some (inl err) /\
    forallb (fun x => negb (load_failed (f x))) (take k l) = true /\
    collect (List.map f l) = inl err.
Proof.
  induction l as [|a l IH]; [done|]. cbn [List.map existsb collect].
  destruct (f a) as [[err|df]|] eqn:Ea; cbn [load_failed orb].
  - intros _. exists 0%nat, a, err. by rewrite Ea.
  - intros H. destruct (IH H) as (k & d & err & Hk & Hd & Hall & ->).
    exists (S k), d, err. cbn. by rewrite Ea.
  - intros H. destruct (IH H) as (k & d & err & Hk & Hd & Hall & ->).
    exists (S k), d, err. cbn. by rewrite Ea.
Qed.

(** C1, as the code has it: the assembly skips a day whose file is absent
    and returns the concatenation of the frames of the days that have one;
    it raises [ValueError] when no day of the range has a file; and when a
    file that is there cannot be read it raises the error of the reader,
    that of the first such day in date order, and returns no frame. *)
Theorem assembly_skips_absent_days (read_csv : string -> exn + list row)
    (data_dir : list string) (instr mkt tf dt sym itv sd ed : string)
    (s e : date) (fs : FS) :
  strptime sd = Some s -> strptime ed = Some e -> e <> date_max ->
  let look d := load read_csv fs (klines_dir data_dir instr mkt tf dt sym itv)
                  (klines_name sym itv d) in
  let loads := List.map look (date_range s e) in
  let frames := omap loaded_frame loads in
  let out := res_of (combine read_csv data_dir instr mkt tf dt sym itv sd ed fs) in
  (forallb (fun l => negb (load_failed l)) loads = true -> frames <> [] ->
     out = Returned (concat frames)) /\
  (forallb (fun l => negb (load_failed l)) loads = true -> frames = [] ->
     out = Raised (ValueError "No data found, exiting.")) /\
  (existsb load_failed loads = true ->
     exists k d err,
       date_range s e !! k = Some d /\ look d = Some (inl err) /\
       forallb (fun x => negb (load_failed (look x))) (take k (date_range s e))
       = true /\
       out = Raised err).
Proof.
  intros Hs He Hmax look loads frames out. subst out.
  rewrite (combine_spec read_csv data_dir instr mkt tf dt sym itv sd ed s e fs Hs He Hmax).
  fold look loads. repeat split.
  - intros Hok Hne. rewrite (collect_ok _ Hok). fold frames.
    by destruct frames.
  - intros Hok Hnil. rewrite (collect_ok _ Hok). fold frames. by rewrite Hnil.
  - intros Hex.
    destruct (first_failed_load look (date_range s e) Hex)
      as (k & d & err & Hk & Hd & Hall & Hc).
    exists k, d, err. fold loads in Hc. by rewrite Hc.
Qed.

Lemma assembly_skips_absent_days_witness :
  let look d := load demo_read_csv fs_one_day
                  (klines_dir ["data"] "futures" "um" "daily" "klines"
                     "BTCUSDT" "1h")
                  (klines_name "BTCUSDT" "1h" d) in
  let loads := List.map look (date_range (Date 2024 1 1) (Date 2024 1 2)) in
  let frames := omap loaded_frame loads in
  let out := res_of (combine demo_read_csv ["data"] "futures" "um" "daily"
                       "klines" "BTCUSDT" "1h" "2024-01-01" "2024-01-02"
                       fs_one_day) in
  (forallb (fun l => negb (load_failed l)) loads = true -> frames <> [] ->
     out = Returned (concat frames)) /\
  (forallb (fun l => negb (load_failed l)) loads = true -> frames = [] ->
     out = Raised (ValueError "No data found, exiting.")) /\
  (existsb load_failed loads = true ->
     exists k d err,
       date_range (Date 2024 1 1) (Date 2024 1 2) !! k = Some d /\
       look d = Some (inl err) /\
       forallb (fun x => negb (load_failed (look x)))
               (take k (date_range (Date 2024 1 1) (Date 2024 1 2))) = true /\
       out = Raised err).
Proof.
  apply assembly_skips_absent_days; [reflexivity | reflexivity |].
  vm_compute. discriminate.
Defined.

(** C1, counterexample: the cache holds 2024-01-01, the server has nothing;
    for the range 2024-01-01 .. 2024-01-02 the call returns the rows of the
    first day alone, with the second day still absent from the cache. *)
Lemma gapped_dataset_is_returned :
  let o := get_combined_dataframe demo_read_csv net_down "BTCUSDT" "1h"
             "2024-01-01" "2024-01-02" ["data"] "futures" "um" "daily"
             "klines" 10 fs_one_day in
  res_of o = Returned [Row 97 []; Row 98 []] /\
  lookup_file (fs_of o) demo_dir "BTCUSDT-1h-2024-01-02.csv" = None.
Proof. split; vm_compute; reflexivity. Qed.

Lemma date_range_valid s e d :
  valid_date s = true -> valid_date e = true -> d ∈ date_range s e ->
  valid_date d = true.
Proof. intros Hs He Hd. by apply (date_range_spec s e d Hs He) in Hd as [? _]. Qed.

Lemma date_range_nonempty s e :
  date_le s e = true -> date_range s e <> [].
Proof. unfold date_range, loop_fuel. cbn. by intros ->. Qed.

Lemma midnight_next_day d1 d2 :
  valid_date d1 = true -> valid_date d2 = true -> date_lt d1 d2 ->
  midnight_ms d1 + ms_per_day <= midnight_ms d2.
Proof.
  intros H1 H2 Hlt. pose proof (toordinal_lt _ _ H1 H2 Hlt).
  unfold midnight_ms, ms_per_day. lia.
Qed.

Lemma omap_loaded_all {A} (f : A -> option (exn + list row)) (l : list A) :
  forallb (fun d => match f d with Some (inr _) => true | _ => false end) l = true ->
  forallb (fun x => negb (load_failed x)) (List.map f l) = true /\
  omap loaded_frame (List.map f l)
  = List.map (fun d => match f d with Some (inr df) => df | _ => [] end) l.
Proof.
  induction l as [|d l IH]; [done|]. cbn.
  destruct (f d) as [[err|df]|]; try done. cbn. intros H.
  destruct (IH H) as [-> ->]. done.
Qed.

(** C7, as the code has it: when every day of a non-empty range has a file
    that parses, the assembly returns the frames of the days concatenated in
    ascending date order, each in file order, so that the row count is the
    sum of the row counts of the days; and if the rows of every day carry
    times of that day, every row before a day boundary is no later than
    every row after it. *)
Theorem assembly_concatenates_in_date_order
    (read_csv : string -> exn + list row)
    (data_dir : list string) (instr mkt tf dt sym itv sd ed : string)
    (s e : date) (fs : FS) :
  strptime sd = Some s -> strptime ed = Some e ->
  date_le s e = true -> e <> date_max ->
  let look d := load read_csv fs (klines_dir data_dir instr mkt tf dt sym itv)
                  (klines_name sym itv d) in
  forallb (fun d => match look d with Some (inr _) => true | _ => false end)
          (date_range s e) = true ->
  let frame_of d := match look d with Some (inr df) => df | _ => [] end in
  let out := concat (List.map frame_of (date_range s e)) in
  res_of (combine read_csv data_dir instr mkt tf dt sym itv sd ed fs)
    = Returned out /\
  StronglySorted date_lt (date_range s e) /\
  length out = list_sum (List.map (fun d => length (frame_of d)) (date_range s e)) /\
  ((forall d r, d ∈ date_range s e -> r ∈ frame_of d ->
      midnight_ms d <= open_time r < midnight_ms d + ms_per_day) ->
   forall k r1 r2,
     r1 ∈ concat (List.map frame_of (take k (date_range s e))) ->
     r2 ∈ concat (List.map frame_of (drop k (date_range s e))) ->
     open_time r1 <= open_time r2).
Proof.
  intros Hs He Hle Hmax look Hall frame_of out.
  pose proof (strptime_valid _ _ Hs) as Hvs.
  pose proof (strptime_valid _ _ He) as Hve.
  pose proof (date_range_sorted s e Hvs Hve) as Hsorted.
  destruct (omap_loaded_all look (date_range s e) Hall) as [Hok Hframes].
  split; [|split; [done|split]].
  - rewrite (combine_spec read_csv data_dir instr mkt tf dt sym itv sd ed s e fs Hs He Hmax).
    fold look. rewrite (collect_ok _ Hok), Hframes. fold frame_of.
    pose proof (date_range_nonempty s e Hle).
    destruct (date_range s e); done.
  - unfold out. by rewrite length_concat, List.map_map.
  - intros Hday k r1 r2 H1 H2.
    apply list_elem_of_In, in_concat in H1 as (l1 & Hl1 & Hr1).
    apply list_elem_of_In, in_concat in H2 as (l2 & Hl2 & Hr2).
    apply in_map_iff in Hl1 as (d1 & <- & Hd1).
    apply in_map_iff in Hl2 as (d2 & <- & Hd2).
    apply list_elem_of_In in Hd1, Hd2, Hr1, Hr2.
    rewrite <- (take_drop k (date_range s e)) in Hsorted.
    assert (date_lt d1 d2) as Hlt.
    { eapply StronglySorted_app_1_elem_of; eauto. }
    assert (d1 ∈ date_range s e) as Hin1.
    { rewrite <- (take_drop k (date_range s e)). apply elem_of_app. by left. }
    assert (d2 ∈ date_range s e) as Hin2.
    { rewrite <- (take_drop k (date_range s e)). apply elem_of_app. by right. }
    pose proof (midnight_next_day d1 d2
                  (date_range_valid s e d1 Hvs Hve Hin1)
                  (date_range_valid s e d2 Hvs Hve Hin2) Hlt).
    pose proof (Hday d1 r1 Hin1 Hr1). pose proof (Hday d2 r2 Hin2 Hr2). lia.
Qed.

Lemma assembly_concatenates_in_date_order_witness :
  let look d := load day_read_csv fs_two_days
                  (klines_dir ["data"] "futures" "um" "daily" "klines" "BTCUSDT" "1h")
                  (klines_name "BTCUSDT" "1h" d) in
  let frame_of d := match look d with Some (inr df) => df | _ => [] end in
  let range := date_range (Date 2024 1 1) (Date 2024 1 2) in
  let out := concat (List.map frame_of range) in
  res_of (combine day_read_csv ["data"] "futures" "um" "daily" "klines"
            "BTCUSDT" "1h" "2024-01-01" "2024-01-02" fs_two_days)
    = Returned out /\
  StronglySorted date_lt range /\
  length out = list_sum (List.map (fun d => length (frame_of d)) range) /\
  ((forall d r, d ∈ range -> r ∈ frame_of d ->
      midnight_ms d <= open_time r < midnight_ms d + ms_per_day) ->
   forall k r1 r2,
     r1 ∈ concat (List.map frame_of (take k range)) ->
     r2 ∈ concat (List.map frame_of (drop k range)) ->
     open_time r1 <= open_time r2).
Proof.
  apply assembly_concatenates_in_date_order;
    [reflexivity | reflexivity | reflexivity | vm_compute; discriminate | reflexivity].
Defined.

(** C7, counterexample: both days of the range have a file that parses, and
    the assembled rows go back in time across the day boundary. *)
Lemma valid_days_unordered_timestamps :
  let look d := load demo_read_csv fs_unordered demo_dir (klines_name "BTCUSDT" "1h" d) in
  forallb (fun d => match look d with Some (inr _) => true | _ => false end)
          (date_range (Date 2024 1 1) (Date 2024 1 2)) = true /\
  look (Date 2024 1 1) = Some (inr [Row 98 []]) /\
  look (Date 2024 1 2) = Some (inr [Row 97 []]) /\
  res_of (combine demo_read_csv ["data"] "futures" "um" "daily" "klines"
            "BTCUSDT" "1h" "2024-01-01" "2024-01-02" fs_unordered)
    = Returned [Row 98 []; Row 97 []] /\
  ~ (98 <= 97).
Proof. repeat split; try (vm_compute; reflexivity). lia. Qed.

(** ** Re-running on a complete cache *)

Lemma download_invalid net a fs :
  request_ok a = false ->
  exists msg, download_binance_data net a fs = (Raised (ValueError msg), fs, []).
Proof.
  unfold request_ok, download_binance_data. intros H.
  destruct (_ || _); cbn in *; [|by eexists].
  apply negb_false_iff in H. rewrite H. by eexists.
Qed.

Lemma download_bad_dates net a fs :
  request_ok a = true ->
  strptime (start_date a) = None \/ strptime (end_date a) = None ->
  exists msg,
    download_binance_data net a fs
    = (Raised (ValueError msg), mkdir_fs (local_path_of a) fs,
       [EMkdir (local_path_of a)]).
Proof.
  intros [Hdt Hitv]%request_ok_spec Hbad.
  unfold download_binance_data. rewrite Hdt, Hitv. cbn [negb].
  unfold parse_date.
  unfold mbind, io_mbind, io_bind, mret, io_mret, io_ret, lift, raise, block.
  rewrite mkdir_run.
  destruct (strptime (start_date a)); [|by eexists].
  destruct (strptime (end_date a)); [|by eexists].
  by destruct Hbad.
Qed.

Lemma missing_days_form (X : gset date) s e :
  valid_date s = true -> valid_date e = true ->
  missing_days X s e =
    if decide (e = date_max /\ date_le s e = true) then Raised OverflowError
    else Returned (filter (.∉ X) (date_range s e)).
Proof.
  intros Hs He. unfold missing_days.
  by rewrite missing_loop_spec;
    [|done..| unfold loop_fuel; lia | apply loop_fuel_enough].
Qed.

Lemma requests_probes (f : date -> event) (l : list date) :
  (forall d, requests [f d] = []) -> requests (List.map f l) = [].
Proof.
  intros Hf. induction l as [|d l IH]; [done|].
  change (List.map f (d :: l)) with ([f d] ++ List.map f l).
  by rewrite requests_app, Hf, IH.
Qed.

Lemma cached_no_task fs a s e (P : date -> Prop) `{!forall d, Decision (P d)} :
  strptime (start_date a) = Some s -> strptime (end_date a) = Some e ->
  all_cached fs a = true ->
  List.filter (artifact_missing fs a) (filter P (date_range s e)) = [].
Proof.
  intros Hs He. unfold all_cached. rewrite Hs, He.
  induction (date_range s e) as [|d l IH]; [done|].
  cbn [forallb]. intros [Hd Hl]%andb_true_iff.
  rewrite filter_cons. case_decide; [|by apply IH].
  cbn [List.filter]. unfold artifact_missing at 1. rewrite Hd. cbn.
  by apply IH.
Qed.

(** On a complete cache the acquisition issues no request and changes no
    file. *)
Lemma cached_run_no_request net a fs :
  all_cached fs a = true ->
  requests (trace_of (download_binance_data net a fs)) = [] /\
  forall dir n,
    lookup_file (fs_of (download_binance_data net a fs)) dir n
    = lookup_file fs dir n.
Proof.
  intros Hall.
  destruct (request_ok a) eqn:Hok.
  2:{ destruct (download_invalid net a fs Hok) as [msg ->]. done. }
  destruct (strptime (start_date a)) as [s|] eqn:Hs.
  2:{ destruct (download_bad_dates net a fs Hok) as [msg ->]; [by left|].
      split; [done|]. intros. apply lookup_file_mkdir. }
  destruct (strptime (end_date a)) as [e|] eqn:He.
  2:{ destruct (download_bad_dates net a fs Hok) as [msg ->]; [by right|].
      split; [done|]. intros. apply lookup_file_mkdir. }
  rewrite (download_run net a fs s e Hok Hs He). cbn zeta.
  rewrite (missing_days_form _ s e (strptime_valid _ _ Hs) (strptime_valid _ _ He)).
  case_decide.
  { split; [done|]. intros. apply lookup_file_mkdir. }
  destruct (filter _ (date_range s e)) as [|d0 missing] eqn:Hm.
  { split; [done|]. intros. apply lookup_file_mkdir. }
  destruct (max_concurrent_downloads a <? 0).
  { split; [done|]. intros. apply lookup_file_mkdir. }
  rewrite <- Hm, (cached_no_task fs a s e _ Hs He Hall). cbn [List.map].
  split; [|intros; apply lookup_file_mkdir].
  unfold trace_of. cbn [snd]. rewrite requests_app, requests_probes; done.
Qed.

Lemma rerun_download net0 net a fs0 u fsA tA :
  download_binance_data net0 a fs0 = (Returned u, fsA, tA) ->
  all_cached fsA a = true ->
  exists t2,
    download_binance_data net a fsA
    = (Returned tt, mkdir_fs (local_path_of a) fsA, t2) /\
    requests t2 = [].
Proof.
  intros Hd1 Hall.
  destruct (request_ok a) eqn:Hok.
  2:{ destruct (download_invalid net0 a fs0 Hok) as [msg E].
      rewrite E in Hd1. done. }
  destruct (strptime (start_date a)) as [s|] eqn:Hs.
  2:{ destruct (download_bad_dates net0 a fs0 Hok) as [msg E]; [by left|].
      rewrite E in Hd1. done. }
  destruct (strptime (end_date a)) as [e|] eqn:He.
  2:{ destruct (download_bad_dates net0 a fs0 Hok) as [msg E]; [by right|].
      rewrite E in Hd1. done. }
  pose proof (strptime_valid _ _ Hs) as Hvs.
  pose proof (strptime_valid _ _ He) as Hve.
  rewrite (download_run net0 a fs0 s e Hok Hs He) in Hd1. cbn zeta in Hd1.
  rewrite (download_run net a fsA s e Hok Hs He). cbn zeta.
  rewrite (missing_days_form _ s e Hvs Hve) in Hd1.
  rewrite (missing_days_form _ s e Hvs Hve).
  case_decide; [done|].
  destruct (filter _ (date_range s e)) as [|d2 m2] eqn:Hm2 in |- *.
  { by eexists. }
  destruct (max_concurrent_downloads a <? 0) eqn:HN.
  - exfalso.
    destruct (filter _ (date_range s e)) as [|d1 m1] eqn:Hm1 in Hd1; [|done].
    injection Hd1 as _ <- _.
    rewrite existing_in_mkdir, Hm1 in Hm2. done.
  - rewrite <- Hm2, (cached_no_task fsA a s e _ Hs He Hall). cbn [List.map].
    eexists. split; [reflexivity|].
    rewrite requests_app, requests_probes; done.
Qed.

(** C6: after a first run that returned a dataset and left an entry in the
    cache for every day of the range, a second run on that cache, with any
    server, issues no request, changes no file and returns the same
    dataset; and on any cache with an entry for every day of a range the
    acquisition alone issues no request and changes no file. *)
Theorem rerun_is_noop (read_csv : string -> exn + list row)
    (net0 net : string -> Z -> response)
    (symbol interval start_date end_date : string) (data_dir : list string)
    (instrument market timeframe data_type : string)
    (max_concurrent_downloads : Z) (fs0 : FS) (D : list row) :
  let a := Request symbol start_date end_date binance_url instrument market
             timeframe data_type (Some interval) data_dir
             max_concurrent_downloads in
  let run1 := get_combined_dataframe read_csv net0 symbol interval start_date
                end_date data_dir instrument market timeframe data_type
                max_concurrent_downloads fs0 in
  res_of run1 = Returned D ->
  all_cached (fs_of run1) a = true ->
  let run2 := get_combined_dataframe read_csv net symbol interval start_date
                end_date data_dir instrument market timeframe data_type
                max_concurrent_downloads (fs_of run1) in
  (res_of run2 = Returned D /\
   requests (trace_of run2) = [] /\
   forall dir n, lookup_file (fs_of run2) dir n = lookup_file (fs_of run1) dir n) /\
  (forall a' fs',
     all_cached fs' a' = true ->
     requests (trace_of (download_binance_data net a' fs')) = [] /\
     forall dir n,
       lookup_file (fs_of (download_binance_data net a' fs')) dir n
       = lookup_file fs' dir n).
Proof.
  intros a run1 HD Hall run2. split; [|intros; by apply cached_run_no_request].
  subst run1 run2. unfold get_combined_dataframe in *. fold a in HD, Hall |- *.
  unfold mbind, io_mbind, io_bind in *.
  destruct (download_binance_data net0 a fs0) as [[r1 fsA] tA] eqn:Hd1.
  destruct r1 as [u| |]; [|done..].
  destruct (combine_ext read_csv data_dir instrument market timeframe data_type
              symbol interval start_date end_date fsA
              (mkdir_fs (local_path_of a) fsA))
    as (r & tr & Hc1 & Hc2 & Hreq).
  { intros. by rewrite lookup_file_mkdir. }
  rewrite Hc1 in HD, Hall |- *.
  unfold res_of, fs_of, trace_of in *. cbn [fst snd] in *. subst r.
  destruct (rerun_download net0 net a fs0 u fsA tA Hd1 Hall) as (t2 & -> & Hreq2).
  rewrite Hc2. cbn [fst snd].
  split; [done|]. split; [by rewrite requests_app, Hreq2, Hreq|].
  intros. apply lookup_file_mkdir.
Qed.

Lemma rerun_is_noop_witness :
  let a := demo_request "2024-01-01" "2024-01-02" in
  let run1 := get_combined_dataframe demo_read_csv net_one_day "BTCUSDT" "1h"
                "2024-01-01" "2024-01-02" ["data"] "futures" "um" "daily"
                "klines" 10 fs_one_day in
  let run2 := get_combined_dataframe demo_read_csv net_down "BTCUSDT" "1h"
                "2024-01-01" "2024-01-02" ["data"] "futures" "um" "daily"
                "klines" 10 (fs_of run1) in
  (res_of run2 = Returned [Row 97 []; Row 98 []; Row 99 []; Row 100 []] /\
   requests (trace_of run2) = [] /\
   forall dir n, lookup_file (fs_of run2) dir n = lookup_file (fs_of run1) dir n) /\
  (forall a' fs',
     all_cached fs' a' = true ->
     requests (trace_of (download_binance_data net_down a' fs')) = [] /\
     forall dir n,
       lookup_file (fs_of (download_binance_data net_down a' fs')) dir n
       = lookup_file fs' dir n).
Proof.
  apply (rerun_is_noop demo_read_csv net_one_day net_down "BTCUSDT" "1h"
           "2024-01-01" "2024-01-02" ["data"] "futures" "um" "daily" "klines"
           10 fs_one_day [Row 97 []; Row 98 []; Row 99 []; Row 100 []]);
    vm_compute; reflexivity.
Defined.

(** ** The semaphore *)

Lemma in_flight_count_insert (l : list Scheduler.task_state) : forall i x y,
  l !! i = Some y ->
  Scheduler.in_flight_count (<[i := x]> l)
  = Scheduler.in_flight_count l - Scheduler.in_flight y + Scheduler.in_flight x.
Proof.
  induction l as [|t l IH]; intros i x y Hi; [done|].
  destruct i as [|i].
  - cbn in *. simplify_eq. lia.
  - change (<[S i := x]> (t :: l)) with (t :: <[i := x]> l).
    change ((t :: l) !! S i) with (l !! i) in Hi.
    cbn [Scheduler.in_flight_count]. rewrite (IH i x y Hi). lia.
Qed.

Lemma in_flight_count_waiting n :
  Scheduler.in_flight_count (replicate n Scheduler.Waiting) = 0.
Proof. induction n as [|n IH]; cbn; [done|]. by rewrite IH. Qed.

Lemma exec_invariant N s act s' :
  Scheduler.exec s act = Some s' ->
  0 <= Scheduler.permits s /\
  Scheduler.permits s + Scheduler.in_flight_count (Scheduler.tasks s) = N ->
  0 <= Scheduler.permits s' /\
  Scheduler.permits s' + Scheduler.in_flight_count (Scheduler.tasks s') = N.
Proof.
  intros Hexec [Hpos Hsum].
  destruct act as [i|i|i|i]; cbn in Hexec;
    destruct (Scheduler.tasks s !! i) as [[|k|k|b]|] eqn:Hi; try done.
  - destruct (0 <? Scheduler.permits s) eqn:Hp; [|done].
    apply Z.ltb_lt in Hp. simplify_eq. cbn.
    rewrite (in_flight_count_insert _ _ _ _ Hi). cbn. lia.
  - simplify_eq. cbn. rewrite (in_flight_count_insert _ _ _ _ Hi). cbn. lia.
  - simplify_eq. cbn. rewrite (in_flight_count_insert _ _ _ _ Hi). cbn. lia.
  - destruct (k <? default_retries); simplify_eq; cbn;
      rewrite (in_flight_count_insert _ _ _ _ Hi); cbn; lia.
Qed.

Lemma run_invariant N schedule : forall s s',
  Scheduler.run s schedule = Some s' ->
  0 <= Scheduler.permits s /\
  Scheduler.permits s + Scheduler.in_flight_count (Scheduler.tasks s) = N ->
  0 <= Scheduler.permits s' /\
  Scheduler.permits s' + Scheduler.in_flight_count (Scheduler.tasks s') = N.
Proof.
  induction schedule as [|act rest IH]; intros s s' Hrun Hinv; cbn in Hrun.
  - by simplify_eq.
  - destruct (Scheduler.exec s act) as [s1|] eqn:Hexec; [|done].
    eapply IH; [done|]. by eapply exec_invariant.
Qed.

(** C9: in a run with concurrency limit [N], whatever the number of tasks
    and whatever the schedule, the number of fetches inside the semaphore
    never exceeds [N]. *)
Theorem at_most_limit_in_flight N n schedule s0 s :
  Scheduler.start N n = Returned s0 ->
  Scheduler.run s0 schedule = Some s ->
  Scheduler.in_flight_count (Scheduler.tasks s) <= N.
Proof.
  unfold Scheduler.start. intros Hstart Hrun.
  destruct (N <? 0) eqn:HN; [done|]. apply Z.ltb_ge in HN. simplify_eq.
  destruct (run_invariant N schedule _ _ Hrun) as [Hpos Hsum]; [|lia].
  cbn. rewrite in_flight_count_waiting. lia.
Qed.

Lemma at_most_limit_in_flight_witness :
  Scheduler.in_flight_count
    [Scheduler.Attempting 2; Scheduler.Pausing 1; Scheduler.Waiting]
  <= default_max_concurrent_downloads.
Proof.
  apply (at_most_limit_in_flight default_max_concurrent_downloads 3
           [Scheduler.Acquire 0; Scheduler.Acquire 1; Scheduler.Fail 0;
            Scheduler.Fail 1; Scheduler.Resume 0]
           (Scheduler.State 10
              [Scheduler.Waiting; Scheduler.Waiting; Scheduler.Waiting])
           (Scheduler.State 8
              [Scheduler.Attempting 2; Scheduler.Pausing 1; Scheduler.Waiting]));
    reflexivity.
Defined.

(** * Further properties of the code *)

(** ** A fetch that succeeds *)

Lemma attempt_once_saves (net : string -> Z -> response) (url : string)
    (dir : list string) (name : string) (k : Z) (fs : FS)
    (m : gmap string entry) (bytes : string) :
  fs !! dir = Some m -> m !! name <> Some Dir ->
  payload (net url k) = Some bytes ->
  attempt_once net url dir name k fs
  = (Returned true, <[dir := <[name := File bytes]> m]> fs,
     [EGet url; EOpenW dir name; EWrite dir name bytes]).
Proof.
  intros Hm Hn Hp. unfold attempt_once, fetch_once, save_member. io_unfold.
  destruct (net url k) as [|status [| |[|[csv p] ms]]]; try done.
  cbv beta iota delta [payload] in Hp.
  destruct (status =? 200); [|done]. cbn.
  destruct (getinfo csv ((csv, p) :: ms)) as [[| |b]|]; try done.
  simplify_eq. cbn. rewrite Hm. cbn.
  destruct (m !! name) as [[]|]; done.
Qed.

Lemma attempt_once_fails (net : string -> Z -> response) (url : string)
    (dir : list string) (name : string) (k : Z) (fs : FS) :
  payload (net url k) = None ->
  exists fs' tr,
    attempt_once net url dir name k fs = (Returned false, fs', tr) /\
    net_view tr = [EGet url] /\
    (fs' = fs \/
     exists m, fs !! dir = Some m /\ m !! name <> Some Dir /\
               fs' = <[dir := <[name := File ""]> m]> fs).
Proof.
  intros Hp.
  destruct (attempt_once_spec net url dir name k fs) as (b & fs' & tr & Hrun & Hv & Ho).
  destruct Ho as [|m Hm Hn _|m bytes Hm Hn Hp'].
  - exists fs, tr. eauto.
  - eexists _, tr. split; [done|]. split; [done|]. right. eauto.
  - congruence.
Qed.

Lemma attempts_from_success (net : string -> Z -> response) (url : string)
    (dir : list string) (name : string) (n : nat) :
  forall (k : Z) (fs : FS) (m : gmap string entry) (failed : nat) (bytes : string),
  fs !! dir = Some m -> m !! name <> Some Dir ->
  first_success net url k n = Some (failed, bytes) ->
  exists fs' tr,
    attempts_from net url dir name k n fs = (Returned true, fs', tr) /\
    lookup_file fs' dir name = Some (File bytes) /\
    net_view tr = concat (replicate failed [EGet url; ESleep 1]) ++ [EGet url].
Proof.
  induction n as [|n IH]; intros k fs m failed bytes Hm Hn Hfirst; [done|].
  rewrite attempts_from_S. cbn [first_success] in Hfirst.
  destruct (payload (net url k)) as [b|] eqn:Hp.
  - simplify_eq. rewrite (attempt_once_saves net url dir name k fs m bytes Hm Hn Hp).
    eexists _, _. split; [reflexivity|]. split; [|done].
    unfold lookup_file. by rewrite !lookup_insert_eq.
  - destruct (first_success net url (k + 1) n) as [[j b]|] eqn:Hrest; [|done].
    simplify_eq.
    destruct (attempt_once_fails net url dir name k fs Hp)
      as (fs1 & t1 & -> & Hv & Hfs1).
    assert (exists m1, fs1 !! dir = Some m1 /\ m1 !! name <> Some Dir)
      as (m1 & Hm1 & Hn1).
    { destruct Hfs1 as [->|(m0 & Hm0 & Hn0 & ->)]; [eauto|].
      eexists. split; [apply lookup_insert_eq|]. by rewrite lookup_insert_eq. }
    destruct (IH (k + 1) fs1 m1 j bytes Hm1 Hn1 Hrest) as (fs2 & t2 & -> & Hl & Hv2).
    eexists _, _. split; [reflexivity|]. split; [done|].
    rewrite net_view_app, Hv.
    change (net_view (ESleep 1 :: t2)) with (ESleep 1 :: net_view t2).
    rewrite Hv2. reflexivity.
Qed.


(** X1: a fetch stops at the first attempt whose response delivers a
    payload: it returns [True], has sent one request per failed attempt and
    one more, has paused one second after each failed attempt and not after
    the last, and the destination holds exactly that payload. *)
Theorem fetch_stops_at_first_success (net : string -> Z -> response) (url : string)
    (dir : list string) (name : string) (retries : Z) (fs : FS)
    (m : gmap string entry) (failed : nat) (bytes : string) :
  fs !! dir = Some m -> m !! name <> Some Dir ->
  first_success net url 1 (Z.to_nat retries) = Some (failed, bytes) ->
  exists fs' tr,
    download_and_save_csv net url dir name retries fs = (Returned true, fs', tr) /\
    lookup_file fs' dir name = Some (File bytes) /\
    net_view tr = concat (replicate failed [EGet url; ESleep 1]) ++ [EGet url] /\
    (failed < Z.to_nat retries)%nat.
Proof.
  intros Hm Hn Hfirst. unfold download_and_save_csv.
  destruct (attempts_from_success net url dir name (Z.to_nat retries) 1 fs m
              failed bytes Hm Hn Hfirst) as (fs' & tr & Hrun & Hl & Hv).
  exists fs', tr. repeat split; try done.
  clear -Hfirst. revert failed Hfirst. generalize 1.
  induction (Z.to_nat retries) as [|n IH]; intros k failed H; [done|].
  cbn in H. destruct (payload (net url k)); [simplify_eq; lia|].
  destruct (first_success net url (k + 1) n) as [[j b]|] eqn:E; [|done].
  simplify_eq. specialize (IH _ _ E). lia.
Qed.

Lemma fetch_stops_at_first_success_witness :
  exists fs' tr,
    download_and_save_csv net_third_time "u" demo_dir "f.csv" 3 fs_empty_dir
      = (Returned true, fs', tr) /\
    lookup_file fs' demo_dir "f.csv" = Some (File "cd") /\
    net_view tr = concat (replicate 2%nat [EGet "u"; ESleep 1]) ++ [EGet "u"] /\
    (2 < Z.to_nat 3)%nat.
Proof.
  apply (fetch_stops_at_first_success net_third_time "u" demo_dir "f.csv" 3
           fs_empty_dir ∅ 2%nat "cd"); [reflexivity | | reflexivity].
  vm_compute. discriminate.
Defined.

(** ** The tasks of a run, one after the other *)

Lemma attempts_from_more (net : string -> Z -> response) (url : string)
    (dir : list string) (name : string) (n : nat) :
  forall (k : Z) (fs : FS),
  exists b fs' tr,
    attempts_from net url dir name k n fs = (Returned b, fs', tr) /\
    Forall (fun ev => ev = EGet url) (requests tr) /\
    (is_Some (fs !! dir) -> is_Some (fs' !! dir)).
Proof.
  induction n as [|n IH]; intros k fs.
  { exists false, fs, []. repeat split; [constructor|done]. }
  rewrite attempts_from_S.
  destruct (attempt_once_spec net url dir name k fs) as (b & fs1 & t1 & -> & Hv & Ho).
  assert (requests t1 = [EGet url]) as Hr1 by (by rewrite <- requests_net_view, Hv).
  assert (is_Some (fs !! dir) -> is_Some (fs1 !! dir)) as Hd1.
  { destruct Ho; [done|..]; intros _; by rewrite lookup_insert_eq. }
  destruct b.
  - exists true, fs1, (t1 ++ []). split; [done|]. rewrite app_nil_r, Hr1.
    split; [by repeat constructor|done].
  - destruct (IH (k + 1) fs1) as (b & fs2 & t2 & -> & Hall & Hd2).
    exists b, fs2, (t1 ++ ESleep 1 :: t2). split; [done|].
    rewrite requests_app, Hr1.
    change (requests (ESleep 1 :: t2)) with (requests t2).
    split; [by constructor|]. intros H. by apply Hd2, Hd1.
Qed.

Lemma gather_frame (net : string -> Z -> response) (dir : list string)
    (tasks : list (string * string)) :
  forall fs : FS,
  exists oks fs' tr,
    gather net dir tasks fs = (Returned oks, fs', tr) /\
    (forall d' n', d' <> dir \/ n' ∉ List.map snd tasks ->
                   lookup_file fs' d' n' = lookup_file fs d' n') /\
    (length (requests tr) <= Z.to_nat default_retries * length tasks)%nat /\
    Forall (fun ev => exists url, url ∈ List.map fst tasks /\ ev = EGet url)
           (requests tr) /\
    (is_Some (fs !! dir) -> is_Some (fs' !! dir)).
Proof.
  induction tasks as [|[url out] tasks IH]; intros fs.
  { exists [], fs, []. repeat split; try done; cbn; lia. }
  cbn [gather]. unfold download_and_save_csv.
  unfold mbind, io_mbind, io_bind, mret, io_mret, io_ret.
  destruct (attempts_from_spec net url dir out (Z.to_nat default_retries) 1 fs)
    as (b & fs1 & t1 & Hrun & Hfr & _ & Hlen & _).
  destruct (attempts_from_more net url dir out (Z.to_nat default_retries) 1 fs)
    as (b' & fs1' & t1' & Hrun' & Hall & Hdir).
  rewrite Hrun in Hrun'. injection Hrun' as <- <- <-. rewrite Hrun.
  destruct (IH fs1) as (oks & fs2 & t2 & -> & Hfr2 & Hlen2 & Hall2 & Hdir2).
  eexists _, _, _. split; [reflexivity|]. cbn [List.map fst snd length].
  split; [|split; [|split]].
  - intros d' n' Hne. rewrite Hfr2, Hfr; [done| |].
    + destruct Hne as [?|Hn]; [congruence|]. intros [= -> ->]. apply Hn. by left.
    + destruct Hne as [?|Hn]; [by left|right]. intros ?. apply Hn. by right.
  - rewrite app_nil_r, requests_app, length_app. lia.
  - rewrite app_nil_r, requests_app. apply Forall_app. split.
    + eapply Forall_impl; [exact Hall|]. intros ev ->. exists url. split; [by left|done].
    + eapply Forall_impl; [exact Hall2|]. intros ev (u & Hu & ->).
      exists u. split; [by right|done].
  - intros H. by apply Hdir2, Hdir.
Qed.

Lemma requests_for_app (url : string) (t1 t2 : list event) :
  requests_for url (t1 ++ t2) = requests_for url t1 ++ requests_for url t2.
Proof. apply List.filter_app. Qed.

Lemma requests_for_requests (url : string) (t : list event) :
  requests_for url (requests t) = requests_for url t.
Proof.
  unfold requests_for, requests. induction t as [|ev t IH]; [done|].
  destruct ev; cbn; rewrite ?IH; try done.
Qed.

Lemma requests_for_length (url : string) (t : list event) :
  (length (requests_for url t) <= length t)%nat.
Proof.
  unfold requests_for. induction t as [|ev t IH]; [done|].
  cbn. destruct (match ev with EGet u => _ | _ => _ end); cbn; lia.
Qed.

Lemma requests_for_other (url : string) (urls : list string) (t : list event) :
  Forall (fun ev => exists u, u ∈ urls /\ ev = EGet u) t ->
  url ∉ urls -> requests_for url t = [].
Proof.
  induction 1 as [|ev t (u & Hu & ->) _ IH]; intros Hn; [done|].
  cbn. destruct (String.eqb_spec u url) as [->|]; [done|]. by apply IH.
Qed.

(** No url is requested more often than a task has attempts. *)
Lemma gather_requests_for (net : string -> Z -> response) (dir : list string)
    (tasks : list (string * string)) :
  forall (fs : FS) (url : string),
  NoDup (List.map fst tasks) ->
  (length (requests_for url (trace_of (gather net dir tasks fs)))
   <= Z.to_nat default_retries)%nat.
Proof.
  induction tasks as [|[u0 out] tasks IH]; intros fs url Hnd.
  { cbn. lia. }
  cbn [List.map fst] in Hnd. apply NoDup_cons in Hnd as [Hu0 Hnd].
  cbn [gather]. unfold download_and_save_csv.
  unfold mbind, io_mbind, io_bind, mret, io_mret, io_ret.
  destruct (attempts_from_spec net u0 dir out (Z.to_nat default_retries) 1 fs)
    as (b & fs1 & t1 & Hrun & _ & _ & Hlen & _).
  destruct (attempts_from_more net u0 dir out (Z.to_nat default_retries) 1 fs)
    as (b' & fs1' & t1' & Hrun' & Hall & _).
  rewrite Hrun in Hrun'. injection Hrun' as <- <- <-. rewrite Hrun.
  specialize (IH fs1 url Hnd).
  destruct (gather_frame net dir tasks fs1) as (oks & fs2 & t2 & Hg & _ & _ & Hall2 & _).
  rewrite Hg in *. unfold trace_of in *. cbn [fst snd] in *.
  rewrite app_nil_r, requests_for_app, length_app.
  destruct (decide (url = u0)) as [->|Hne].
  - rewrite <- (requests_for_requests u0 t2),
      (requests_for_other u0 (List.map fst tasks) _ Hall2 Hu0).
    rewrite <- (requests_for_requests u0 t1).
    pose proof (requests_for_length u0 (requests t1)). cbn [length]. lia.
  - rewrite <- (requests_for_requests url t1),
      (requests_for_other url [u0] (requests t1)).
    + cbn [length]. lia.
    + eapply Forall_impl; [exact Hall|]. intros ev ->. exists u0.
      split; [by left|done].
    + by intros ->%list_elem_of_singleton.
Qed.


(** ** Artifact names *)


Lemma task_url_inj (a : request) (d1 d2 : date) :
  valid_date d1 = true -> valid_date d2 = true ->
  fst (task_of a d1) = fst (task_of a d2) -> d1 = d2.
Proof.
  intros H1 H2 H. unfold task_of, zip_name in H. cbn [fst] in H.
  apply append_inv_head, append_inv_head, append_inv_tail in H.
  by apply strftime_inj.
Qed.

(** X2: the artifact name and the url of a request determine the date:
    two calendar days never share a cache file or an archive url. *)
Theorem artifact_names_do_not_collide a d1 d2 :
  valid_date d1 = true -> valid_date d2 = true ->
  snd (task_of a d1) = snd (task_of a d2) \/ fst (task_of a d1) = fst (task_of a d2) ->
  d1 = d2.
Proof.
  intros H1 H2 [H|H]; unfold task_of, csv_name, zip_name in H; cbn [fst snd] in H.
  - apply append_inv_head, append_inv_tail in H. by apply strftime_inj.
  - apply append_inv_head, append_inv_head, append_inv_tail in H.
    by apply strftime_inj.
Qed.

Lemma artifact_names_do_not_collide_witness :
  Date 2024 2 29 = Date 2024 2 29.
Proof.
  apply (artifact_names_do_not_collide (demo_request "2024-01-01" "2024-12-31")
           (Date 2024 2 29) (Date 2024 2 29)); [reflexivity | reflexivity |].
  left. reflexivity.
Defined.

(** ** The effect of an acquisition run *)

Lemma sorted_NoDup (l : list date) : StronglySorted date_lt l -> NoDup l.
Proof.
  induction 1 as [|d l Hs IH Hall]; constructor; [|done].
  intros Hin. eapply Forall_forall in Hall; [|exact Hin].
  unfold date_lt in Hall. by rewrite date_le_refl in Hall.
Qed.

Lemma NoDup_list_filter {A} (f : A -> bool) (l : list A) :
  NoDup l -> NoDup (List.filter f l).
Proof.
  induction 1 as [|x l Hx Hl IH]; cbn; [constructor|].
  destruct (f x); [|done]. constructor; [|done].
  intros [? _]%list_elem_of_In%filter_In. by apply Hx, list_elem_of_In.
Qed.


(** The two ways a run with well-formed arguments ends: without [gather],
    having touched nothing but the directory, or with [gather] over the
    dates it found missing. *)
Lemma download_shape (net : string -> Z -> response) (a : request) (fs : FS)
    (s e : date) :
  request_ok a = true ->
  strptime (start_date a) = Some s -> strptime (end_date a) = Some e ->
  let dir := local_path_of a in
  let X := existing_in fs dir (data_type a) (interval a) (symbol a) in
  (exists r tr,
      download_binance_data net a fs = (r, mkdir_fs dir fs, tr) /\
      requests tr = []) \/
  (exists missing oks fs2 t2 tr,
      missing_days X s e = Returned missing /\
      0 < max_concurrent_downloads a /\
      gather net dir
        (List.map (task_of a) (List.filter (artifact_missing fs a) missing))
        (mkdir_fs dir fs) = (Returned oks, fs2, t2) /\
      download_binance_data net a fs = (Returned tt, fs2, tr) /\
      requests tr = requests t2).
Proof.
  intros Hok Hs He dir X.
  rewrite (download_run net a fs s e Hok Hs He). cbn zeta. fold dir X.
  destruct (missing_days X s e) as [[|d0 missing]| |] eqn:Hm;
    [left; by eexists _, _ | | left; by eexists _, _ ..].
  destruct (max_concurrent_downloads a <? 0) eqn:HN; [left; by eexists _, _|].
  apply Z.ltb_ge in HN.
  set (probes := List.map _ (d0 :: missing)).
  assert (requests probes = []) as Hprobes by (by apply requests_probes).
  destruct (List.map (task_of a) _) as [|t ts] eqn:Ht.
  { left. eexists _, _. split; [reflexivity|]. by rewrite requests_app, Hprobes. }
  destruct (max_concurrent_downloads a =? 0) eqn:HN0.
  { left. eexists _, _. split; [reflexivity|]. by rewrite requests_app, Hprobes. }
  apply Z.eqb_neq in HN0.
  destruct (gather_frame net dir (t :: ts) (mkdir_fs dir fs))
    as (oks & fs2 & t2 & Hg & _).
  right. exists (d0 :: missing), oks, fs2, t2. eexists.
  split; [done|]. split; [lia|]. split; [by rewrite Ht|]. rewrite Hg.
  split; [reflexivity|]. by rewrite !requests_app, Hprobes.
Qed.

Lemma task_name_missing (a : request) (fs : FS) (l : list date) (n : string) :
  n ∈ List.map snd (List.map (task_of a) (List.filter (artifact_missing fs a) l)) ->
  lookup_file fs (local_path_of a) n = None.
Proof.
  intros Hn. apply list_elem_of_In in Hn.
  apply in_map_iff in Hn as ([u n'] & <- & Ht).
  apply in_map_iff in Ht as (d & Hd & Hin).
  apply filter_In in Hin as [_ Hmiss].
  unfold task_of in Hd. simplify_eq. cbn.
  unfold artifact_missing, is_present in Hmiss. by destruct (lookup_file _ _ _).
Qed.

Lemma download_keeps_entries
    (net : string -> Z -> response) (a : request) (fs : FS)
    (dir : list string) (name : string) (en : entry) :
  lookup_file fs dir name = Some en ->
  lookup_file (fs_of (download_binance_data net a fs)) dir name = Some en.
Proof.
  intros Hl.
  destruct (request_ok a) eqn:Hok.
  2:{ destruct (download_invalid net a fs Hok) as [msg ->]. done. }
  destruct (strptime (start_date a)) as [s|] eqn:Hs.
  2:{ destruct (download_bad_dates net a fs Hok) as [msg ->]; [by left|].
      unfold fs_of; cbn. by rewrite lookup_file_mkdir. }
  destruct (strptime (end_date a)) as [e|] eqn:He.
  2:{ destruct (download_bad_dates net a fs Hok) as [msg ->]; [by right|].
      unfold fs_of; cbn. by rewrite lookup_file_mkdir. }
  destruct (download_shape net a fs s e Hok Hs He)
    as [(r & tr & -> & _)|(missing & oks & fs2 & t2 & tr & _ & _ & Hg & -> & _)].
  { unfold fs_of; cbn. by rewrite lookup_file_mkdir. }
  unfold fs_of; cbn.
  destruct (gather_frame net (local_path_of a)
              (List.map (task_of a) (List.filter (artifact_missing fs a) missing))
              (mkdir_fs (local_path_of a) fs))
    as (oks' & fs2' & t2' & Hg' & Hfr & _).
  rewrite Hg in Hg'. injection Hg' as <- <- <-.
  rewrite Hfr, lookup_file_mkdir; [done|].
  destruct (decide (dir = local_path_of a)) as [->|]; [right|by left].
  intros Hn. apply task_name_missing in Hn. congruence.
Qed.

(** X3: a run of the acquisition never deletes or overwrites an entry the
    cache already has, whatever its arguments and whatever the server
    answers. *)
Theorem acquisition_keeps_existing_entries
    (net : string -> Z -> response) (a : request) (fs : FS)
    (dir : list string) (name : string) (en : entry) :
  lookup_file fs dir name = Some en ->
  lookup_file (fs_of (download_binance_data net a fs)) dir name = Some en.
Proof. apply download_keeps_entries. Qed.

Lemma acquisition_keeps_existing_entries_witness :
  lookup_file
    (fs_of (download_binance_data net_one_day
              (demo_request "2024-01-01" "2024-01-03") fs_one_day))
    demo_dir "BTCUSDT-1h-2024-01-01.csv" = Some (File "ab").
Proof.
  apply acquisition_keeps_existing_entries. reflexivity.
Defined.

(** X4: every request of a run is for the archive of a day of the range
    that has no entry under its artifact name, and a run sends at most
    three requests for each day, so at most three times as many as there
    are such days. *)
Theorem acquisition_requests_only_missing_days
    (net : string -> Z -> response) (a : request) (fs : FS) (s e : date) :
  request_ok a = true ->
  strptime (start_date a) = Some s -> strptime (end_date a) = Some e ->
  let tr := trace_of (download_binance_data net a fs) in
  let absent := List.filter (artifact_missing fs a) (date_range s e) in
  Forall (fun ev => exists d, d ∈ absent /\ ev = EGet (fst (task_of a d)))
         (requests tr) /\
  (forall d, (length (requests_for (fst (task_of a d)) tr) <= 3)%nat) /\
  (length (requests tr) <= 3 * length absent)%nat.
Proof.
  intros Hok Hs He tr absent. subst tr.
  destruct (download_shape net a fs s e Hok Hs He)
    as [(r & tr & -> & Hr)|(missing & oks & fs2 & t2 & tr & Hm & _ & Hg & -> & Hr)].
  { unfold trace_of; cbn [fst snd]. rewrite Hr. split; [constructor|].
    split; [|cbn; lia]. intros d.
    rewrite <- requests_for_requests, Hr. cbn. lia. }
  unfold trace_of; cbn [fst snd]. rewrite Hr.
  destruct (gather_frame net (local_path_of a)
              (List.map (task_of a) (List.filter (artifact_missing fs a) missing))
              (mkdir_fs (local_path_of a) fs))
    as (oks' & fs2' & t2' & Hg' & _ & Hlen & Hall & _).
  rewrite Hg in Hg'. injection Hg' as <- <- <-.
  pose proof (strptime_valid _ _ Hs) as Hvs.
  pose proof (strptime_valid _ _ He) as Hve.
  rewrite (missing_days_form _ s e Hvs Hve) in Hm.
  case_decide; [done|]. injection Hm as <-.
  set (X := existing_in _ _ _ _ _) in *.
  set (todo := List.filter (artifact_missing fs a) (filter (.∉ X) (date_range s e))) in *.
  assert (forall d, d ∈ todo -> d ∈ absent) as Hsub.
  { intros d [Hd Hmiss]%list_elem_of_In%filter_In.
    apply list_elem_of_In, list_elem_of_filter in Hd as [_ Hd].
    apply list_elem_of_In, filter_In. split; [by apply list_elem_of_In|done]. }
  split; [|split].
  - eapply Forall_impl; [exact Hall|]. intros ev (u & Hu & ->).
    apply list_elem_of_In, in_map_iff in Hu as ([u' n] & <- & Ht).
    apply in_map_iff in Ht as (d & Hd & Hin).
    exists d. split; [by apply Hsub, list_elem_of_In|]. by rewrite Hd.
  - intros d. rewrite <- requests_for_requests, Hr, requests_for_requests.
    pose proof (gather_requests_for net (local_path_of a) (List.map (task_of a) todo)
                  (mkdir_fs (local_path_of a) fs) (fst (task_of a d))) as Hper.
    rewrite Hg in Hper. unfold trace_of in Hper. cbn [snd] in Hper.
    apply Hper. rewrite List.map_map. apply NoDup_fmap_2_strong.
    + intros x y Hx Hy Hxy. apply (task_url_inj a); [| |done].
      * apply (date_range_valid s e); [done..|]. apply Hsub in Hx.
        by apply list_elem_of_In, filter_In in Hx as [?%list_elem_of_In _].
      * apply (date_range_valid s e); [done..|]. apply Hsub in Hy.
        by apply list_elem_of_In, filter_In in Hy as [?%list_elem_of_In _].
    + apply NoDup_list_filter, NoDup_filter, sorted_NoDup.
      by apply date_range_sorted.
  - etrans; [exact Hlen|]. rewrite length_map.
    assert (length todo <= length absent)%nat; [|unfold default_retries; lia].
    subst todo absent. clear. induction (date_range s e) as [|d l IH]; [done|].
    rewrite filter_cons. case_decide; cbn; destruct (artifact_missing fs a d); cbn; lia.
Qed.

Lemma acquisition_requests_only_missing_days_witness :
  let a := demo_request "2024-01-01" "2024-01-03" in
  let tr := trace_of (download_binance_data net_down a fs_one_day) in
  let absent := List.filter (artifact_missing fs_one_day a)
                  (date_range (Date 2024 1 1) (Date 2024 1 3)) in
  Forall (fun ev => exists d, d ∈ absent /\ ev = EGet (fst (task_of a d)))
         (requests tr) /\
  (forall d, (length (requests_for (fst (task_of a d)) tr) <= 3)%nat) /\
  (length (requests tr) <= 3 * length absent)%nat.
Proof.
  apply acquisition_requests_only_missing_days; reflexivity.
Defined.





(** ** Fetching and assembling *)




(** ** Ranges the loop cannot serve *)







(** ** Where the run writes and where the assembly reads *)

Lemma download_frame_dir
    (net : string -> Z -> response) (a : request) (fs : FS)
    (dir : list string) (name : string) :
  dir <> local_path_of a ->
  lookup_file (fs_of (download_binance_data net a fs)) dir name
  = lookup_file fs dir name.
Proof.
  intros Hne.
  destruct (request_ok a) eqn:Hok.
  2:{ destruct (download_invalid net a fs Hok) as [msg ->]. done. }
  destruct (strptime (start_date a)) as [s|] eqn:Hs.
  2:{ destruct (download_bad_dates net a fs Hok) as [msg ->]; [by left|].
      unfold fs_of; cbn. by rewrite lookup_file_mkdir. }
  destruct (strptime (end_date a)) as [e|] eqn:He.
  2:{ destruct (download_bad_dates net a fs Hok) as [msg ->]; [by right|].
      unfold fs_of; cbn. by rewrite lookup_file_mkdir. }
  destruct (download_shape net a fs s e Hok Hs He)
    as [(r & tr & -> & _)|(missing & oks & fs2 & t2 & tr & _ & _ & Hg & -> & _)].
  { unfold fs_of; cbn. by rewrite lookup_file_mkdir. }
  unfold fs_of; cbn.
  destruct (gather_frame net (local_path_of a)
              (List.map (task_of a) (List.filter (artifact_missing fs a) missing))
              (mkdir_fs (local_path_of a) fs))
    as (oks' & fs2' & t2' & Hg' & Hfr & _).
  rewrite Hg in Hg'. injection Hg' as <- <- <-.
  rewrite Hfr, lookup_file_mkdir; [done|by left].
Qed.

Lemma combine_res_ext (read_csv : string -> exn + list row)
    (data_dir : list string) (instr mkt tf dt sym itv sd ed : string)
    (fs fs' : FS) :
  (forall n, lookup_file fs (klines_dir data_dir instr mkt tf dt sym itv) n
             = lookup_file fs' (klines_dir data_dir instr mkt tf dt sym itv) n) ->
  res_of (combine read_csv data_dir instr mkt tf dt sym itv sd ed fs)
  = res_of (combine read_csv data_dir instr mkt tf dt sym itv sd ed fs').
Proof.
  intros Hext. unfold combine, parse_date.
  unfold mbind, io_mbind, io_bind, mret, io_mret, io_ret, raise.
  destruct (strptime sd) as [s|]; [|done].
  destruct (strptime ed) as [e|]; [|done].
  destruct (combine_loop_ext read_csv (loop_fuel s e)
              (klines_dir data_dir instr mkt tf dt sym itv)
              sym itv s e [] fs fs' Hext) as (r & tr & H1 & H2 & _).
  unfold klines_dir in *. rewrite H1, H2.
  by destruct r as [[|df dfs]| |].
Qed.

(** X10: with [data_type = 'bookTicker'] the acquisition writes into the
    directory of the symbol while the assembly reads the sub-directory named
    after the interval, so nothing the run fetches is read: the outcome of
    [get_combined_dataframe] is the one of assembling the cache as it was
    before the run. *)
Theorem book_ticker_fetches_are_not_assembled
    (read_csv : string -> exn + list row) (net : string -> Z -> response)
    (sym itv sd ed : string) (data_dir : list string)
    (instr mkt tf : string) (N : Z) (fs : FS) :
  itv <> "" -> itv <> "." ->
  res_of (download_binance_data net
            (Request sym sd ed binance_url instr mkt tf "bookTicker" (Some itv)
               data_dir N) fs) = Returned tt ->
  res_of (get_combined_dataframe read_csv net sym itv sd ed data_dir instr mkt
            tf "bookTicker" N fs)
  = res_of (combine read_csv data_dir instr mkt tf "bookTicker" sym itv sd ed fs).
Proof.
  intros H1 H2 Hres. unfold get_combined_dataframe.
  set (a := Request sym sd ed binance_url instr mkt tf "bookTicker" (Some itv)
              data_dir N) in *.
  unfold mbind, io_mbind, io_bind.
  pose proof (fun n => download_frame_dir net a fs
                (klines_dir data_dir instr mkt tf "bookTicker" sym itv) n) as Hfr.
  destruct (download_binance_data net a fs) as [[r fs1] t1].
  unfold res_of, fs_of in *. cbn [fst snd] in *. subst r.
  pose proof (combine_res_ext read_csv data_dir instr mkt tf "bookTicker" sym
                itv sd ed fs1 fs) as Hc.
  destruct (combine read_csv data_dir instr mkt tf "bookTicker" sym itv sd ed fs1)
    as [[r2 fs2] t2].
  unfold res_of in Hc. cbn [fst snd] in *. apply Hc. intros n. apply Hfr.
  unfold klines_dir, local_path_of. cbn [fold_left data_type a].
  change (String.eqb "bookTicker" "klines") with false. cbn [andb].
  unfold path_join at 1.
  apply String.eqb_neq in H1, H2. rewrite H1, H2. cbn [orb].
  intros Heq. apply (f_equal length) in Heq. rewrite length_app in Heq.
  cbn in Heq. lia.
Qed.

Lemma book_ticker_fetches_are_not_assembled_witness :
  res_of (get_combined_dataframe demo_read_csv net_always "BTCUSDT" "1h"
            "2024-01-01" "2024-01-02" ["data"] "futures" "um" "daily"
            "bookTicker" 10 fs_one_day)
  = res_of (combine demo_read_csv ["data"] "futures" "um" "daily" "bookTicker"
              "BTCUSDT" "1h" "2024-01-01" "2024-01-02" fs_one_day).
Proof.
  apply book_ticker_fetches_are_not_assembled;
    [discriminate | discriminate | reflexivity].
Defined.


Lemma combine_loop_reads (read_csv : string -> exn + list row) (fuel : nat)
    (dir : list string) (sym itv : string) :
  forall (d e : date) (acc : list (list row)) (fs : FS),
  forallb is_read_event
    (trace_of (combine_loop read_csv fuel dir sym itv d e acc fs)) = true.
Proof.
  induction fuel as [|fuel IH]; intros d e acc fs; [done|].
  cbn [combine_loop]. destruct (date_le d e); [|done].
  unfold mbind, io_mbind, io_bind, mret, io_mret, io_ret, lift, raise, emit, get_fs.
  destruct (lookup_file fs dir _) as [[data|]|].
  - destruct (read_csv data) as [err|df]; [done|].
    destruct (add_day d) as [d'| |]; [|done..].
    specialize (IH d' e (acc ++ [df]) fs).
    destruct (combine_loop read_csv fuel dir sym itv d' e (acc ++ [df]) fs)
      as [[r fs2] t2]. unfold trace_of in *. cbn [fst snd] in *.
    rewrite !forallb_app, IH. reflexivity.
  - done.
  - destruct (add_day d) as [d'| |]; [|done..].
    specialize (IH d' e acc fs).
    destruct (combine_loop read_csv fuel dir sym itv d' e acc fs)
      as [[r fs2] t2]. unfold trace_of in *. cbn [fst snd] in *.
    rewrite !forallb_app, IH. reflexivity.
Qed.

(** X11: the assembly only reads: whether it returns a frame or raises, it
    leaves the file system as it found it, and all it does is probe for
    files and read them; it sends no request. *)
Theorem assembly_is_read_only (read_csv : string -> exn + list row)
    (data_dir : list string) (instr mkt tf dt sym itv sd ed : string)
    (fs : FS) :
  let run := combine read_csv data_dir instr mkt tf dt sym itv sd ed fs in
  fs_of run = fs /\
  forallb is_read_event (trace_of run) = true /\
  requests (trace_of run) = [].
Proof.
  intros run. subst run.
  destruct (combine_ext read_csv data_dir instr mkt tf dt sym itv sd ed fs fs)
    as (r & tr & Hrun & _ & Hreq); [done|].
  split; [by rewrite Hrun|]. split; [|by rewrite Hrun].
  clear. unfold combine, parse_date.
  unfold mbind, io_mbind, io_bind, mret, io_mret, io_ret, raise.
  destruct (strptime sd) as [s|]; [|done].
  destruct (strptime ed) as [e|]; [|done].
  pose proof (combine_loop_reads read_csv (loop_fuel s e)
                (fold_left path_join [instr; mkt; tf; dt; sym; itv] data_dir)
                sym itv s e [] fs) as Hl.
  destruct (combine_loop _ _ _ _ _ _ _ _ fs) as [[r fs2] t2].
  unfold trace_of in *. cbn [fst snd] in *.
  destruct r as [[|df dfs]| |]; cbn [snd app]; rewrite ?app_nil_r; exact Hl.
Qed.

(** ** Resuming *)

(** X12: from the year 1000 on, a day a fetch has saved is found by the
    next scan of the cache: the name the fetch writes is read back to the
    same date.  Below the year 1000 the name the fetch writes has no
    four-digit year: the scan does not read it, and returns the set it
    returned before the fetch. *)
Theorem saved_day_is_found_by_next_scan
    (net : string -> Z -> response) (url : string) (dir : list string)
    (dt : string) (itv : option string) (sym : string) (d : date)
    (retries : Z) (fs : FS) :
  plain (name_prefix dt itv sym) = true ->
  String.eqb dt "klines" && negb (truthy itv) = false ->
  valid_date d = true ->
  let saved := download_and_save_csv net url dir (csv_name dt itv sym d)
                 retries fs in
  res_of saved = Returned true ->
  exists X, res_of (get_existing_dates dir dt itv sym (fs_of saved)) = Returned X /\
            (1000 <= year d -> d ∈ X) /\
            (year d < 1000 -> X = existing_in fs dir dt itv sym).
Proof.
  intros Hp Hok Hd saved Hres. subst saved. unfold download_and_save_csv in *.
  destruct (attempts_from_spec net url dir (csv_name dt itv sym d)
              (Z.to_nat retries) 1 fs) as (b & fs' & tr & Hrun & Hfr & Hsucc & _).
  rewrite Hrun in *. unfold res_of, fs_of in *. cbn [fst snd] in *.
  injection Hres as ->.
  destruct (Hsucc eq_refl) as (j & bytes & _ & _ & Hl).
  rewrite get_existing_dates_run by done. cbn [fst snd].
  eexists. split; [reflexivity|]. split.
  - intros Hy. apply existing_in_artifact; [done..|].
    unfold is_present. by rewrite Hl.
  - intros Hy. apply set_eq. intros x. rewrite !existing_in_spec by done.
    assert (forall n, read_as (name_prefix dt itv sym) n x ->
                      is_present fs' dir n = is_present fs dir n) as Hsame.
    { intros n Hr. unfold is_present. rewrite Hfr; [done|].
      intros [= ->]. by eapply short_year_not_read. }
    split; intros (n & Hn & Hr); exists n; (split; [|done]).
    + by rewrite <- Hsame.
    + by rewrite Hsame.
Qed.

Lemma saved_day_is_found_by_next_scan_witness :
  let saved := download_and_save_csv net_always "u" demo_dir
                 (csv_name "klines" (Some "1h") "BTCUSDT" (Date 2024 1 5))
                 3 fs_empty_dir in
  exists X, res_of (get_existing_dates demo_dir "klines" (Some "1h") "BTCUSDT"
                      (fs_of saved)) = Returned X /\
            (1000 <= year (Date 2024 1 5) -> Date 2024 1 5 ∈ X) /\
            (year (Date 2024 1 5) < 1000 ->
             X = existing_in fs_empty_dir demo_dir "klines" (Some "1h") "BTCUSDT").
Proof.
  apply (saved_day_is_found_by_next_scan net_always "u" demo_dir "klines"
           (Some "1h") "BTCUSDT" (Date 2024 1 5) 3 fs_empty_dir);
    reflexivity.
Defined.

(** ** A limit that admits no task *)



(** ** How many days a range has *)

Lemma days_from_length fuel : forall d e,
  valid_date d = true -> valid_date e = true ->
  toordinal e - toordinal d + 2 <= Z.of_nat fuel ->
  length (days_from fuel d e) = Z.to_nat (toordinal e - toordinal d + 1).
Proof.
  induction fuel as [|fuel IH]; intros d e Hd He Hfuel.
  { cbn. lia. }
  cbn [days_from]. destruct (date_le d e) eqn:Hle.
  2:{ pose proof (toordinal_lt e d He Hd Hle). cbn. lia. }
  pose proof (toordinal_le d e Hd He Hle).
  destruct (add_day d) as [d'| err |] eqn:Hadd.
  - pose proof (add_day_valid _ _ Hd Hadd) as Hd'.
    pose proof (add_day_ordinal _ _ Hd Hadd) as Hord.
    cbn [length]. rewrite IH by (done || lia). lia.
  - destruct (add_day_overflow _ _ Hd Hadd) as [-> _].
    pose proof (date_le_antisym _ _ Hle (valid_le_max _ He)) as <-.
    cbn. lia.
  - by destruct (add_day_not_blocked d).
Qed.

(** X14: on a cache without any matching file every day of the range is
    due: the missing-days loop returns [(end - start).days + 1] dates, among
    them the start and the end date when the range is not empty. *)
Theorem empty_cache_schedules_every_day (s e : date) :
  valid_date s = true -> valid_date e = true -> e <> date_max ->
  exists L,
    missing_days ∅ s e = Returned L /\
    length L = Z.to_nat (toordinal e - toordinal s + 1) /\
    (date_le s e = true -> s ∈ L /\ e ∈ L).
Proof.
  intros Hs He Hmax. exists (date_range s e).
  split; [|split].
  - rewrite missing_days_spec by done. f_equal.
    induction (date_range s e) as [|d l IH]; [done|].
    rewrite filter_cons. destruct (decide (d ∉ (∅ : gset date))) as [_|Hn].
    + by rewrite IH.
    + destruct Hn. apply not_elem_of_empty.
  - apply days_from_length; [done..|apply loop_fuel_enough].
  - intros Hle. rewrite !date_range_spec by done.
    by rewrite !date_le_refl, Hle.
Qed.

Lemma empty_cache_schedules_every_day_witness :
  exists L,
    missing_days ∅ (Date 2024 2 27) (Date 2024 3 2) = Returned L /\
    length L = Z.to_nat (toordinal (Date 2024 3 2) - toordinal (Date 2024 2 27) + 1) /\
    (date_le (Date 2024 2 27) (Date 2024 3 2) = true ->
     Date 2024 2 27 ∈ L /\ Date 2024 3 2 ∈ L).
Proof.
  apply empty_cache_schedules_every_day; [reflexivity | reflexivity |].
  vm_compute. discriminate.
Defined.

(** ** The semaphore: permits, attempts, progress *)

Lemma forallb_lookup {A} (f : A -> bool) (l : list A) : forall i x,
  forallb f l = true -> l !! i = Some x -> f x = true.
Proof.
  induction l as [|y l IH]; intros i x Hall Hi; [done|].
  cbn in Hall. apply andb_true_iff in Hall as [Hy Hl].
  destruct i as [|i].
  - cbn in Hi. by simplify_eq.
  - exact (IH i x Hl Hi).
Qed.

Lemma forallb_insert {A} (f : A -> bool) (l : list A) : forall i x,
  forallb f l = true -> f x = true -> forallb f (<[i := x]> l) = true.
Proof.
  induction l as [|y l IH]; intros i x Hall Hx; [done|].
  cbn in Hall. apply andb_true_iff in Hall as [Hy Hl].
  destruct i as [|i].
  - cbn. by rewrite Hx, Hl.
  - change (<[S i := x]> (y :: l)) with (y :: <[i := x]> l).
    cbn. by rewrite Hy, IH.
Qed.

Lemma idle_in_flight_count (l : list Scheduler.task_state) :
  forallb is_idle l = true -> Scheduler.in_flight_count l = 0.
Proof.
  induction l as [|t l IH]; [done|].
  cbn. intros [Ht Hl]%andb_true_iff. rewrite (IH Hl).
  by destruct t.
Qed.

Lemma exec_attempts (s : Scheduler.state) (act : Scheduler.action)
    (s' : Scheduler.state) :
  Scheduler.exec s act = Some s' ->
  forallb attempt_within (Scheduler.tasks s) = true ->
  forallb attempt_within (Scheduler.tasks s') = true /\
  length (Scheduler.tasks s') = length (Scheduler.tasks s).
Proof.
  intros Hexec Hall.
  destruct act as [i|i|i|i]; cbn in Hexec;
    destruct (Scheduler.tasks s !! i) as [[|k|k|b]|] eqn:Hi; try done.
  - destruct (0 <? Scheduler.permits s); [|done]. simplify_eq. cbn.
    split; [by apply forallb_insert | apply length_insert].
  - simplify_eq. cbn. split; [by apply forallb_insert | apply length_insert].
  - pose proof (forallb_lookup _ _ _ _ Hall Hi) as Hk.
    simplify_eq. cbn. split; [by apply forallb_insert | apply length_insert].
  - pose proof (forallb_lookup _ _ _ _ Hall Hi) as Hk. cbn in Hk.
    destruct (k <? default_retries) eqn:Hlt; simplify_eq; cbn;
      (split; [apply forallb_insert; [done|] | apply length_insert]);
      [|done].
    cbn. apply Z.ltb_lt in Hlt. apply andb_true_iff in Hk as [H1 _].
    apply Z.leb_le in H1. apply andb_true_iff. split; apply Z.leb_le; lia.
Qed.

Lemma run_attempts (schedule : list Scheduler.action) :
  forall s s' : Scheduler.state,
  Scheduler.run s schedule = Some s' ->
  forallb attempt_within (Scheduler.tasks s) = true ->
  forallb attempt_within (Scheduler.tasks s') = true /\
  length (Scheduler.tasks s') = length (Scheduler.tasks s).
Proof.
  induction schedule as [|act rest IH]; intros s s' Hrun Hall; cbn in Hrun.
  - by simplify_eq.
  - destruct (Scheduler.exec s act) as [s1|] eqn:Hexec; [|done].
    destruct (exec_attempts _ _ _ Hexec Hall) as [Hall1 Hlen1].
    destruct (IH _ _ Hrun Hall1) as [Hall' Hlen'].
    split; [done|]. by rewrite Hlen', Hlen1.
Qed.

Lemma waiting_attempts (n : nat) :
  forallb attempt_within (replicate n Scheduler.Waiting) = true.
Proof. induction n as [|n IH]; [done|]. exact IH. Qed.

Lemma start_returned (N : Z) (n : nat) (s0 : Scheduler.state) :
  Scheduler.start N n = Returned s0 ->
  0 <= N /\ s0 = Scheduler.State N (replicate n Scheduler.Waiting).
Proof.
  unfold Scheduler.start. destruct (N <? 0) eqn:HN; [done|].
  apply Z.ltb_ge in HN. intros. by simplify_eq.
Qed.

(** X15: every permit taken is given back: at any point of a run where no
    task is inside the semaphore (each one still waiting or finished,
    whether it succeeded or used up its attempts), the semaphore holds its
    initial value again. *)
Theorem permits_return_when_tasks_leave (N : Z) (n : nat)
    (schedule : list Scheduler.action) (s0 s : Scheduler.state) :
  Scheduler.start N n = Returned s0 ->
  Scheduler.run s0 schedule = Some s ->
  forallb is_idle (Scheduler.tasks s) = true ->
  Scheduler.permits s = N.
Proof.
  intros [HN ->]%start_returned Hrun Hidle.
  destruct (run_invariant N schedule _ _ Hrun) as [_ Hsum].
  { cbn. rewrite in_flight_count_waiting. lia. }
  rewrite (idle_in_flight_count _ Hidle) in Hsum. lia.
Qed.

Lemma permits_return_when_tasks_leave_witness :
  let schedule :=
    [Scheduler.Acquire 0; Scheduler.Fail 0; Scheduler.Resume 0;
     Scheduler.Succeed 0; Scheduler.Acquire 1; Scheduler.Fail 1;
     Scheduler.Resume 1; Scheduler.Fail 1; Scheduler.Resume 1;
     Scheduler.Fail 1; Scheduler.Resume 1] in
  let s := Scheduler.State 1 [Scheduler.Finished true; Scheduler.Finished false] in
  Scheduler.run (Scheduler.State 1 [Scheduler.Waiting; Scheduler.Waiting]) schedule
    = Some s /\
  Scheduler.permits s = 1.
Proof.
  split; [reflexivity|].
  apply (permits_return_when_tasks_leave 1 2
           [Scheduler.Acquire 0; Scheduler.Fail 0; Scheduler.Resume 0;
            Scheduler.Succeed 0; Scheduler.Acquire 1; Scheduler.Fail 1;
            Scheduler.Resume 1; Scheduler.Fail 1; Scheduler.Resume 1;
            Scheduler.Fail 1; Scheduler.Resume 1]
           (Scheduler.State 1 [Scheduler.Waiting; Scheduler.Waiting]));
    reflexivity.
Defined.

(** X16: a task inside the semaphore is in attempt 1, 2 or 3 (the attempts
    of [range(retries)] with the default [retries]), and a run neither adds
    nor drops a task. *)
Theorem attempts_stay_within_retries (N : Z) (n : nat)
    (schedule : list Scheduler.action) (s0 s : Scheduler.state) :
  Scheduler.start N n = Returned s0 ->
  Scheduler.run s0 schedule = Some s ->
  length (Scheduler.tasks s) = n /\
  forall i k,
    Scheduler.tasks s !! i = Some (Scheduler.Attempting k) \/
    Scheduler.tasks s !! i = Some (Scheduler.Pausing k) ->
    1 <= k <= default_retries.
Proof.
  intros [HN ->]%start_returned Hrun.
  destruct (run_attempts schedule _ _ Hrun) as [Hall Hlen].
  { apply waiting_attempts. }
  split.
  { rewrite Hlen. cbn. apply length_replicate. }
  intros i k [Hi|Hi]; pose proof (forallb_lookup _ _ _ _ Hall Hi) as Hk;
    cbn in Hk; apply andb_true_iff in Hk as [H1 H2];
    apply Z.leb_le in H1, H2; lia.
Qed.

Lemma attempts_stay_within_retries_witness :
  let s := Scheduler.State 0 [Scheduler.Attempting 1; Scheduler.Attempting 3] in
  Scheduler.run (Scheduler.State 2 [Scheduler.Waiting; Scheduler.Waiting])
    [Scheduler.Acquire 1; Scheduler.Fail 1; Scheduler.Resume 1;
     Scheduler.Acquire 0; Scheduler.Fail 1; Scheduler.Resume 1] = Some s /\
  length (Scheduler.tasks s) = 2%nat /\
  forall i k,
    Scheduler.tasks s !! i = Some (Scheduler.Attempting k) \/
    Scheduler.tasks s !! i = Some (Scheduler.Pausing k) ->
    1 <= k <= default_retries.
Proof.
  split; [reflexivity|].
  apply (attempts_stay_within_retries 2 2
           [Scheduler.Acquire 1; Scheduler.Fail 1; Scheduler.Resume 1;
            Scheduler.Acquire 0; Scheduler.Fail 1; Scheduler.Resume 1]
           (Scheduler.State 2 [Scheduler.Waiting; Scheduler.Waiting]));
    reflexivity.
Defined.

Lemma busy_or_idle (l : list Scheduler.task_state) :
  (exists i k, l !! i = Some (Scheduler.Attempting k) \/
               l !! i = Some (Scheduler.Pausing k)) \/
  forallb is_idle l = true.
Proof.
  induction l as [|t l [(i & k & Hi)|Hidle]].
  - by right.
  - left. by exists (S i), k.
  - destruct t as [|k|k|b].
    + right. done.
    + left. exists 0%nat, k. by left.
    + left. exists 0%nat, k. by right.
    + right. done.
Qed.

Lemma idle_unfinished_waits (l : list Scheduler.task_state) :
  forallb is_idle l = true -> forallb is_finished l = false ->
  exists i, l !! i = Some Scheduler.Waiting.
Proof.
  induction l as [|t l IH]; [done|]. cbn.
  intros [Ht Hl]%andb_true_iff Hfin.
  destruct t as [|k|k|b]; try done.
  - by exists 0%nat.
  - cbn in Hfin. destruct (IH Hl Hfin) as [i Hi]. by exists (S i).
Qed.

(** X17: with a positive limit a run is never stuck: as long as some task
    has not finished, some task can take its next action (enter the
    semaphore, end its attempt, or leave its pause). *)
Theorem positive_limit_never_stuck (N : Z) (n : nat)
    (schedule : list Scheduler.action) (s0 s : Scheduler.state) :
  0 < N ->
  Scheduler.start N n = Returned s0 ->
  Scheduler.run s0 schedule = Some s ->
  forallb is_finished (Scheduler.tasks s) = false ->
  exists act s', Scheduler.exec s act = Some s'.
Proof.
  intros Hpos [HN ->]%start_returned Hrun Hfin.
  destruct (busy_or_idle (Scheduler.tasks s)) as [(i & k & [Hi|Hi])|Hidle].
  - exists (Scheduler.Succeed i). cbn. rewrite Hi. by eexists.
  - exists (Scheduler.Resume i). cbn. rewrite Hi.
    destruct (k <? default_retries); by eexists.
  - destruct (idle_unfinished_waits _ Hidle Hfin) as [i Hi].
    destruct (run_invariant N schedule _ _ Hrun) as [_ Hsum].
    { cbn. rewrite in_flight_count_waiting. lia. }
    rewrite (idle_in_flight_count _ Hidle) in Hsum.
    exists (Scheduler.Acquire i). cbn. rewrite Hi.
    assert ((0 <? Scheduler.permits s) = true) as -> by (apply Z.ltb_lt; lia).
    by eexists.
Qed.

Lemma positive_limit_never_stuck_witness :
  let s := Scheduler.State 1 [Scheduler.Waiting; Scheduler.Finished true] in
  Scheduler.run (Scheduler.State 1 [Scheduler.Waiting; Scheduler.Waiting])
    [Scheduler.Acquire 1; Scheduler.Succeed 1] = Some s /\
  exists act s', Scheduler.exec s act = Some s'.
Proof.
  split; [reflexivity|].
  apply (positive_limit_never_stuck 1 2
           [Scheduler.Acquire 1; Scheduler.Succeed 1]
           (Scheduler.State 1 [Scheduler.Waiting; Scheduler.Waiting]));
    [lia | reflexivity..].
Defined.

Lemma remaining_total_insert (l : list Scheduler.task_state) : forall i x y,
  l !! i = Some y ->
  remaining_total (<[i := x]> l)
  = remaining_total l - remaining_actions y + remaining_actions x.
Proof.
  induction l as [|t l IH]; intros i x y Hi; [done|].
  destruct i as [|i].
  - cbn in Hi. simplify_eq. cbn [remaining_total].
    change (<[0%nat := x]> (y :: l)) with (x :: l). cbn [remaining_total]. lia.
  - change (<[S i := x]> (t :: l)) with (t :: <[i := x]> l).
    change ((t :: l) !! S i) with (l !! i) in Hi.
    cbn [remaining_total]. rewrite (IH i x y Hi). lia.
Qed.

Lemma remaining_total_nonneg (l : list Scheduler.task_state) :
  forallb attempt_within l = true -> 0 <= remaining_total l.
Proof.
  induction l as [|t l IH]; [done|]. cbn [forallb remaining_total].
  intros [Ht Hl]%andb_true_iff. specialize (IH Hl).
  destruct t as [|k|k|b]; cbn in *; unfold default_retries in *; lia.
Qed.

Lemma remaining_total_waiting (n : nat) :
  remaining_total (replicate n Scheduler.Waiting)
  = (1 + 2 * default_retries) * Z.of_nat n.
Proof.
  induction n as [|n IH]; [done|].
  cbn [replicate remaining_total remaining_actions]. rewrite IH. lia.
Qed.

Lemma exec_remaining (s : Scheduler.state) (act : Scheduler.action)
    (s' : Scheduler.state) :
  Scheduler.exec s act = Some s' ->
  forallb attempt_within (Scheduler.tasks s) = true ->
  remaining_total (Scheduler.tasks s') + 1 <= remaining_total (Scheduler.tasks s).
Proof.
  intros Hexec Hall.
  destruct act as [i|i|i|i]; cbn in Hexec;
    destruct (Scheduler.tasks s !! i) as [[|k|k|b]|] eqn:Hi; try done;
    pose proof (forallb_lookup _ _ _ _ Hall Hi) as Hk; cbn in Hk.
  - destruct (0 <? Scheduler.permits s); [|done]. simplify_eq. cbn [Scheduler.tasks].
    rewrite (remaining_total_insert _ _ _ _ Hi). cbn. unfold default_retries. lia.
  - simplify_eq. cbn [Scheduler.tasks].
    rewrite (remaining_total_insert _ _ _ _ Hi). cbn. unfold default_retries in *. lia.
  - simplify_eq. cbn [Scheduler.tasks].
    rewrite (remaining_total_insert _ _ _ _ Hi). cbn. lia.
  - destruct (k <? default_retries) eqn:Hlt; simplify_eq; cbn [Scheduler.tasks];
      rewrite (remaining_total_insert _ _ _ _ Hi); cbn;
      unfold default_retries in *; lia.
Qed.

Lemma run_remaining (schedule : list Scheduler.action) :
  forall s s' : Scheduler.state,
  Scheduler.run s schedule = Some s' ->
  forallb attempt_within (Scheduler.tasks s) = true ->
  remaining_total (Scheduler.tasks s') + Z.of_nat (length schedule)
  <= remaining_total (Scheduler.tasks s).
Proof.
  induction schedule as [|act rest IH]; intros s s' Hrun Hall; cbn in Hrun.
  - simplify_eq. cbn. lia.
  - destruct (Scheduler.exec s act) as [s1|] eqn:Hexec; [|done].
    destruct (exec_attempts _ _ _ Hexec Hall) as [Hall1 _].
    pose proof (exec_remaining _ _ _ Hexec Hall).
    pose proof (IH _ _ Hrun Hall1).
    cbn [length]. lia.
Qed.

(** X18: a run ends: no schedule over [n] tasks has more than seven
    actions per task (entering, and for each of the three attempts its
    failure and the pause after it). *)
Theorem run_takes_at_most_seven_actions_per_task (N : Z) (n : nat)
    (schedule : list Scheduler.action) (s0 s : Scheduler.state) :
  Scheduler.start N n = Returned s0 ->
  Scheduler.run s0 schedule = Some s ->
  Z.of_nat (length schedule) <= 7 * Z.of_nat n.
Proof.
  intros [HN ->]%start_returned Hrun.
  pose proof (run_remaining schedule _ _ Hrun (waiting_attempts n)) as Hle.
  destruct (run_attempts schedule _ _ Hrun (waiting_attempts n)) as [Hall _].
  pose proof (remaining_total_nonneg _ Hall).
  cbn [Scheduler.tasks] in Hle. rewrite remaining_total_waiting in Hle.
  unfold default_retries in Hle. lia.
Qed.

Lemma run_takes_at_most_seven_actions_per_task_witness :
  Z.of_nat (length [Scheduler.Acquire 0; Scheduler.Fail 0; Scheduler.Resume 0;
                    Scheduler.Fail 0; Scheduler.Resume 0; Scheduler.Fail 0;
                    Scheduler.Resume 0]) <= 7 * Z.of_nat 1.
Proof.
  apply (run_takes_at_most_seven_actions_per_task 1 1 _
           (Scheduler.State 1 [Scheduler.Waiting])
           (Scheduler.State 1 [Scheduler.Finished false]));
    reflexivity.
Defined.

(** ** The caller's window check *)

(** X19: when [run_backtest] is given a [backtest_start_date], its check
    passes exactly when the three strings are dates and the backtest start
    is one of the days that [download_binance_data] goes through for the
    same [start_date] and [end_date]. *)
Theorem window_check_passes_on_days_of_range
    (start_date end_date backtest_start_date : string) :
  check_backtest_window start_date end_date (Some backtest_start_date)
    = Returned tt <->
  exists s e b,
    strptime start_date = Some s /\ strptime end_date = Some e /\
    strptime backtest_start_date = Some b /\ b ∈ date_range s e.
Proof.
  unfold check_backtest_window. split.
  - destruct (strptime start_date) as [s|] eqn:Hs; [|done].
    destruct (strptime end_date) as [e|] eqn:He; [|done].
    destruct (strptime backtest_start_date) as [b|] eqn:Hb; [|done].
    destruct (date_le s b && date_le b e) eqn:Hin; [|done].
    intros _. exists s, e, b. repeat split.
    apply date_range_spec; [by eapply strptime_valid..|].
    apply andb_true_iff in Hin as [H1 H2].
    split; [by eapply strptime_valid|by split].
  - intros (s & e & b & Hs & He & Hb & Hin). rewrite Hs, He, Hb.
    apply date_range_spec in Hin; [|by eapply strptime_valid..].
    destruct Hin as (_ & H1 & H2). by rewrite H1, H2.
Qed.
